(** * Spider-Scraper: the crawl engine of [SpiderScraper.py]

    A shallow embedding of the crawler core of the repository
    ([normalize_link], [same_origin] and the class [Spider]) together with
    the properties its specification states about it, and further
    properties of the crawler and of two pieces of the window [App]: the
    names of the saved page files and the lists of the settings dialog.

    Modelling conventions.
    - A Python [str] is a [string]; characters are taken in the ASCII range,
      where Python's [str.lower], [str.isspace] and [str.strip] agree with
      the definitions of module [Py].
    - Python [int] is [Z]; the two [float] settings that reach [time.sleep]
      ([retry_backoff], [delay]) are rationals [Q] (a binary float times a
      power of two is exact, overflow apart).
    - [set] is [gset string], [dict] is [gmap string _], [queue.Queue] is a
      list used first-in first-out.
    - Everything outside the repository that the crawler talks to (the HTTP
      session, robots.txt, BeautifulSoup, [urljoin], the random generator,
      the thread that may call [cancel]) is a field of the record [World];
      every interaction is recorded in a trace of [Event]s.
    - [urllib.parse.urlparse] is modelled by [Urllib.urlparse] after
      CPython's implementation; the [ValueError] it raises on malformed
      bracketed hosts is outside the model (the functions are total).
      [Urllib.urljoin] models [urllib.parse.urljoin] the same way; the
      general theorems hold for whatever [urljoin] the world provides, the
      worked examples use [Urllib.urljoin]. For the same reason
      [same_origin] has no [except] branch.
    - [time.sleep] raises [ValueError] on a negative argument, and the
      settings dialog stores [retry_backoff] unchecked. [sleep] records
      its argument in the trace whatever its sign; a theorem that states
      that a call or a run completes where a backoff is slept has
      [0 <= retry_backoff] among its hypotheses.
    - Of [requests.Session] the model keeps what the crawler itself
      writes: the headers, the cookies and the proxies it sets. What
      [requests] stores on a response (the cookies a site sets) is not
      modelled, and nothing is stated about [Session.cookies] after a
      request. Header names are compared as written, where [requests]
      compares them ignoring case; what is stated about headers is stated
      for names that differ from [User-Agent] also ignoring case. *)

From Stdlib Require Import ZArith QArith Ascii String List Bool Lia.
From stdpp Require Import base gmap strings list fin_maps.

Local Open Scope Z_scope.
Local Arguments String.append !_ _ / : simpl nomatch.

(* ===================================================================== *)
(** * Python string primitives *)
(* ===================================================================== *)

Module Py.

(** [not s] for a string: true on the empty string. *)
Definition is_empty (s : string) : bool :=
  match s with EmptyString => true | String _ _ => false end.

Definition code (c : ascii) : N := N_of_ascii c.

(** [c.isspace()] on ASCII: tab, LF, VT, FF, CR, FS, GS, RS, US, space. *)
Definition isspace (c : ascii) : bool :=
  ((9 <=? code c) && (code c <=? 13) || (28 <=? code c) && (code c <=? 32))%N.

Definition isupper (c : ascii) : bool := ((65 <=? code c) && (code c <=? 90))%N.
Definition islower (c : ascii) : bool := ((97 <=? code c) && (code c <=? 122))%N.
Definition isalpha (c : ascii) : bool := isupper c || islower c.
Definition isdigit (c : ascii) : bool := ((48 <=? code c) && (code c <=? 57))%N.

Definition lower_char (c : ascii) : ascii :=
  if isupper c then ascii_of_N (code c + 32) else c.

(** [s.lower()] *)
Fixpoint lower (s : string) : string :=
  match s with
  | EmptyString => EmptyString
  | String c s' => String (lower_char c) (lower s')
  end.

(** [s.lstrip(chars)], the set [chars] given as a predicate. *)
Fixpoint lstrip_by (p : ascii -> bool) (s : string) : string :=
  match s with
  | EmptyString => EmptyString
  | String c s' => if p c then lstrip_by p s' else s
  end.

(** [s.rstrip(chars)] *)
Fixpoint rstrip_by (p : ascii -> bool) (s : string) : string :=
  match s with
  | EmptyString => EmptyString
  | String c s' =>
      let r := rstrip_by p s' in
      if is_empty r && p c then EmptyString else String c r
  end.

(** [s.strip(chars)] *)
Definition strip_by (p : ascii -> bool) (s : string) : string :=
  rstrip_by p (lstrip_by p s).

(** [s.strip()] *)
Definition strip (s : string) : string := strip_by isspace s.
(** [s.rstrip(c)] and [s.strip(c)] for a one-character argument. *)
Definition rstrip (c : ascii) (s : string) : string := rstrip_by (Ascii.eqb c) s.
Definition strip_char (c : ascii) (s : string) : string := strip_by (Ascii.eqb c) s.

(** [s.startswith(p)] *)
Fixpoint startswith (p s : string) : bool :=
  match p, s with
  | EmptyString, _ => true
  | String a p', String b s' => Ascii.eqb a b && startswith p' s'
  | String _ _, EmptyString => false
  end.

(** [sub in s] *)
Fixpoint contains (sub s : string) : bool :=
  startswith sub s ||
  match s with
  | EmptyString => false
  | String _ s' => contains sub s'
  end.

(** [c in s] for a character *)
Fixpoint mem (c : ascii) (s : string) : bool :=
  match s with
  | EmptyString => false
  | String a s' => Ascii.eqb a c || mem c s'
  end.

(** [s.endswith(p)] *)
Fixpoint endswith (p s : string) : bool :=
  String.eqb p s ||
  match s with
  | EmptyString => false
  | String _ s' => endswith p s'
  end.

(** [s.split(c)]: the pieces between the occurrences of [c]; never empty. *)
Fixpoint split (c : ascii) (s : string) : list string :=
  match s with
  | EmptyString => [EmptyString]
  | String a s' =>
      if Ascii.eqb a c then EmptyString :: split c s'
      else match split c s' with
           | [] => [String a EmptyString]
           | h :: t => String a h :: t
           end
  end.

(** [s.split(c, 1)[0]] and [s.split(c)[0]]: the part before the first [c]. *)
Fixpoint before (c : ascii) (s : string) : string :=
  match s with
  | EmptyString => EmptyString
  | String a s' => if Ascii.eqb a c then EmptyString else String a (before c s')
  end.

(** [s.split(c, 1)[1]] when [c] occurs, the part after the first [c]. *)
Fixpoint after (c : ascii) (s : string) : string :=
  match s with
  | EmptyString => EmptyString
  | String a s' => if Ascii.eqb a c then s' else after c s'
  end.

(** [x in xs] for a list of strings *)
Definition str_in (x : string) (xs : list string) : bool :=
  existsb (String.eqb x) xs.

(** [range(n)] *)
Definition range (n : Z) : list Z := map Z.of_nat (seq 0 (Z.to_nat n)).

(** [len(xs)] *)
Definition len {A} (xs : list A) : Z := Z.of_nat (length xs).

End Py.

(* ===================================================================== *)
(** * [urllib.parse.urlparse] *)
(* ===================================================================== *)

Module Urllib.

Record ParseResult := {
  scheme : string;
  netloc : string;
  path : string;
  params : string;
  query : string;
  fragment : string
}.

(** [_WHATWG_C0_CONTROL_OR_SPACE]: code points 0 to 32 *)
Definition c0_or_space (c : ascii) : bool := (Py.code c <=? 32)%N.

(** [_UNSAFE_URL_BYTES_TO_REMOVE]: tab, CR, LF *)
Definition unsafe_byte (c : ascii) : bool :=
  ((Py.code c =? 9) || (Py.code c =? 10) || (Py.code c =? 13))%N.

Fixpoint remove_unsafe (s : string) : string :=
  match s with
  | EmptyString => EmptyString
  | String c s' =>
      if unsafe_byte c then remove_unsafe s' else String c (remove_unsafe s')
  end.

(** [scheme_chars]: letters, digits, [+], [-], [.] *)
Definition scheme_char (c : ascii) : bool :=
  Py.isalpha c || Py.isdigit c || Py.mem c "+-.".

Fixpoint all_chars (p : ascii -> bool) (s : string) : bool :=
  match s with
  | EmptyString => true
  | String c s' => p c && all_chars p s'
  end.

(** The scheme test of [urlsplit]: [i = url.find(':')], [i > 0], the first
    character is a letter and [url[:i]] consists of scheme characters.
    Returns the scheme (lowercased, or the default one) and the rest of the
    URL. *)
Definition split_scheme (default_scheme url : string) : string * string :=
  let pre := Py.before ":" url in
  match url with
  | EmptyString => (default_scheme, url)
  | String c0 _ =>
      if Py.mem ":" url && negb (Py.is_empty pre) && Py.isalpha c0
         && all_chars scheme_char pre
      then (Py.lower pre, Py.after ":" url)
      else (default_scheme, url)
  end.

(** [_splitnetloc(url, 2)]: the netloc runs up to the first of [/ ? #]. *)
Definition netloc_delim (c : ascii) : bool :=
  Ascii.eqb c "/" || Ascii.eqb c "?" || Ascii.eqb c "#".

Fixpoint span_until (p : ascii -> bool) (s : string) : string * string :=
  match s with
  | EmptyString => (EmptyString, EmptyString)
  | String c s' =>
      if p c then (EmptyString, s)
      else let '(a, b) := span_until p s' in (String c a, b)
  end.

Definition split_netloc (url : string) : string * string :=
  match url with
  | String "/" (String "/" rest) => span_until netloc_delim rest
  | _ => (EmptyString, url)
  end.

(** [_splitparams]: the parameters start at the first [;] of the last path
    segment; [drop_params] is the path without them, [take_params] the
    parameters. *)
Fixpoint drop_params (s : string) : string :=
  match s with
  | EmptyString => EmptyString
  | String c s' =>
      if Py.mem "/" s then String c (drop_params s')
      else Py.before ";" s
  end.

Fixpoint take_params (s : string) : string :=
  match s with
  | EmptyString => EmptyString
  | String c s' =>
      if Py.mem "/" s then take_params s'
      else Py.after ";" s
  end.

Definition uses_params : list string :=
  [""; "ftp"; "hdl"; "prospero"; "http"; "imap"; "https"; "shttp"; "rtsp";
   "rtspu"; "sip"; "sips"; "mms"; "sftp"; "tel"].

Definition uses_relative : list string :=
  [""; "ftp"; "http"; "gopher"; "nntp"; "imap"; "wais"; "file"; "https";
   "shttp"; "mms"; "prospero"; "rtsp"; "rtspu"; "sftp"; "svn"; "svn+ssh";
   "ws"; "wss"].

Definition uses_netloc : list string :=
  [""; "ftp"; "http"; "gopher"; "nntp"; "telnet"; "imap"; "wais"; "file";
   "mms"; "https"; "shttp"; "snews"; "prospero"; "rtsp"; "rtspu"; "rsync";
   "svn"; "svn+ssh"; "sftp"; "nfs"; "git"; "git+ssh"; "ws"; "wss"].

(** [urlparse(url, scheme)] *)
Definition urlparse_default (default_scheme url : string) : ParseResult :=
  let url := remove_unsafe (Py.lstrip_by c0_or_space url) in
  let default_scheme := remove_unsafe (Py.strip_by c0_or_space default_scheme) in
  let '(sch, url) := split_scheme default_scheme url in
  let '(loc, url) := split_netloc url in
  let frag := Py.after "#" url in
  let url := Py.before "#" url in
  let qry := Py.after "?" url in
  let url := Py.before "?" url in
  let with_params := Py.str_in sch uses_params in
  {| scheme := sch; netloc := loc;
     path := if with_params then drop_params url else url;
     params := if with_params then take_params url else EmptyString;
     query := qry; fragment := frag |}.

(** [urlparse(url)] *)
Definition urlparse (url : string) : ParseResult := urlparse_default "" url.

(** [urlunparse] (through [urlunsplit]) *)
Definition urlunparse (p : ParseResult) : string :=
  let url := if Py.is_empty (params p) then path p else path p +:+ ";" +:+ params p in
  let url :=
    if negb (Py.is_empty (netloc p))
       || (negb (Py.is_empty (scheme p)) && Py.str_in (scheme p) uses_netloc
           && negb (Py.startswith "//" url))
    then
      let url := if negb (Py.is_empty url) && negb (Py.startswith "/" url)
                 then "/" +:+ url else url in
      "//" +:+ netloc p +:+ url
    else url in
  let url := if Py.is_empty (scheme p) then url else scheme p +:+ ":" +:+ url in
  let url := if Py.is_empty (query p) then url else url +:+ "?" +:+ query p in
  if Py.is_empty (fragment p) then url else url +:+ "#" +:+ fragment p.

(** ["/".join(parts)] *)
Fixpoint join_slash (parts : list string) : string :=
  match parts with
  | [] => EmptyString
  | [x] => x
  | x :: rest => x +:+ "/" +:+ join_slash rest
  end.

(** [segments[1:-1] = filter(None, segments[1:-1])] *)
Definition filter_middle (segments : list string) : list string :=
  match segments with
  | first :: (_ :: _) as rest =>
      first :: List.filter (fun x => negb (Py.is_empty x)) (removelast rest)
        ++ [List.last rest EmptyString]
  | _ => segments
  end.

(** The loop that resolves [.] and [..] segments. *)
Definition resolve_step (resolved_path : list string) (seg : string) : list string :=
  if String.eqb seg ".." then removelast resolved_path
  else if String.eqb seg "." then resolved_path
  else resolved_path ++ [seg].

(** [urljoin(base, url)] *)
Definition urljoin (base url : string) : string :=
  if Py.is_empty base then url else
  if Py.is_empty url then base else
  let b := urlparse base in
  let u := urlparse_default (scheme b) url in
  if negb (String.eqb (scheme u) (scheme b)) || negb (Py.str_in (scheme u) uses_relative)
  then url else
  if Py.str_in (scheme u) uses_netloc && negb (Py.is_empty (netloc u))
  then urlunparse u else
  let loc := if Py.str_in (scheme u) uses_netloc then netloc b else netloc u in
  if Py.is_empty (path u) && Py.is_empty (params u) then
    urlunparse {| scheme := scheme u; netloc := loc; path := path b;
                  params := params b;
                  query := if Py.is_empty (query u) then query b else query u;
                  fragment := fragment u |}
  else
  let base_parts := Py.split "/" (path b) in
  let base_parts :=
    if negb (Py.is_empty (List.last base_parts EmptyString))
    then removelast base_parts else base_parts in
  let segments :=
    if Py.startswith "/" (path u) then Py.split "/" (path u)
    else filter_middle (base_parts ++ Py.split "/" (path u)) in
  let resolved_path := fold_left resolve_step segments [] in
  let resolved_path :=
    if Py.str_in (List.last segments EmptyString) ["."; ".."]
    then resolved_path ++ [EmptyString] else resolved_path in
  let joined := join_slash resolved_path in
  urlunparse {| scheme := scheme u; netloc := loc;
                path := if Py.is_empty joined then "/" else joined;
                params := params u; query := query u; fragment := fragment u |}.

End Urllib.


(* ===================================================================== *)
(** * Module constants and data model *)
(* ===================================================================== *)

Definition USER_AGENT : string := "RetroPhantomSpider/1.0 (+https://example.com)".
Definition REQUEST_TIMEOUT : Z := 12.
Definition CRAWL_DELAY : Q := 3 # 10.
Definition MAX_PAGES : Z := 150.
Definition ALLOWED_SCHEMES : list string := ["http"; "https"].

Definition USER_AGENTS : list string :=
  ["Mozilla/5.0 (Windows NT 10.0; Win64; x64) AppleWebKit/537.36 (KHTML, like Gecko) Chrome/120.0.0.0 Safari/537.36";
   "Mozilla/5.0 (Windows NT 10.0; Win64; x64) AppleWebKit/537.36 (KHTML, like Gecko) Chrome/119.0.0.0 Safari/537.36";
   "Mozilla/5.0 (Macintosh; Intel Mac OS X 10_15_7) AppleWebKit/537.36 (KHTML, like Gecko) Chrome/120.0.0.0 Safari/537.36";
   "Mozilla/5.0 (Windows NT 10.0; Win64; x64; rv:121.0) Gecko/20100101 Firefox/121.0";
   "Mozilla/5.0 (Macintosh; Intel Mac OS X 10_15_7) AppleWebKit/605.1.15 (KHTML, like Gecko) Version/17.1 Safari/605.1.15";
   "Mozilla/5.0 (X11; Linux x86_64) AppleWebKit/537.36 (KHTML, like Gecko) Chrome/120.0.0.0 Safari/537.36"].

(** The dataclass [Row]. *)
Module Row.
Record t := mk { title : string; category : string; url : string }.
End Row.

(** What the crawler reads off a parsed page: [soup.title] (absent, or a tag
    whose [.string] is absent or a text) and the [href] attribute of every
    element selected by ["a[href]"], in document order. *)
Record Soup := {
  soup_title : option (option string);
  soup_hrefs : list string
}.

(** A parsed robots.txt: [rp.can_fetch(useragent, url)]. *)
Definition RobotFileParser : Type := string -> string -> bool.

(** The collaborators outside the repository. The [nat] argument is the
    time of the call (the number of earlier calls into the world), so that
    the same request may be answered differently each time. *)
Record World := {
  (** [urllib.parse.urljoin(base, href)] *)
  urljoin : string -> string -> string;
  (** [session.get(url, timeout=REQUEST_TIMEOUT)] followed by
      [raise_for_status()]: the response text, or [None] when either raises *)
  session_get : nat -> string -> option string;
  (** [BeautifulSoup(html, "lxml")] *)
  BeautifulSoup : string -> Soup;
  (** [rp.read()] for a robots.txt URL: the parsed file, or [None] when it raises *)
  robots_read : nat -> string -> option RobotFileParser;
  (** the index drawn by [random.choice(USER_AGENTS)] *)
  random_choice : nat -> nat;
  (** [random.uniform(a, b)] *)
  random_uniform : nat -> Q -> Q -> Q;
  (** whether another thread has called [cancel()] by this time *)
  cancel_called : nat -> bool
}.

(** The messages handed to [log_cb]; the text of a caught exception is not
    modelled. *)
Inductive LogMsg :=
| LogRetry (attempt max_retries : Z) (url : string)   (* "  Retry {attempt}/{max_retries} for {url}" *)
| LogRetrying (wait_time : Q)                         (* "  ! {e}, retrying in {wait_time:.1f}s..." *)
| LogFailed (max_retries : Z)                         (* "  ! Failed after {max_retries} retries: {e}" *)
| LogSkipDepth (url : string) (depth max_depth : Z)   (* "  Skipping {url} (depth {depth} > max {max_depth})" *)
| LogRobots (url : string)                            (* "  Blocked by robots.txt: {url}" *)
| LogDomain (url : string)                            (* "  Domain not allowed: {url}" *)
| LogLinkFilter (url : string)                        (* "  Link filter mismatch: {url}" *)
| LogKeyword (url : string)                           (* "  Keyword filter mismatch: {url}" *)
| LogGet (url : string) (depth : Z).                  (* "GET {url} (depth {depth})" *)

(** The interactions of a crawl, in the order they happen. *)
Inductive Event :=
| EvLog (msg : LogMsg)                  (* log_cb(msg) *)
| EvProgress (title html : string)      (* progress_cb(title, html) *)
| EvGet (url : string)                  (* session.get(url, ...) *)
| EvRobotsRead (robots_url : string)    (* rp.read() *)
| EvSleep (seconds : Q)                 (* time.sleep(seconds) *)
| EvPut (url : string) (depth : Z).     (* q.put((url, depth)) *)

(** The attributes of a [Spider] that [__init__] sets and nothing changes
    afterwards. *)
Record Config := {
  root : string;
  max_pages : Z;
  delay : Q;
  max_depth : Z;
  allowed_domains : list string;
  link_filters : list string;
  max_retries : Z;
  retry_backoff : Q;
  randomize_ua : bool;
  respect_robots : bool;
  proxies : list string;
  randomize_delay : bool;
  delay_min : Q;
  delay_max : Q;
  include_keywords : list string;
  exclude_keywords : list string;
  user_agent : string
}.

(** [requests.Session]: the three attributes the crawler writes. *)
Module Session.
Record t := mk {
  headers : gmap string string;
  cookies : gmap string string;
  proxies : gmap string string
}.
End Session.

(** The mutable attributes of a [Spider], the local queue [q] of [crawl],
    the trace of interactions and the time. *)
Record State := mkState {
  session : Session.t;
  current_proxy_index : Z;
  robots_parsers : gmap string RobotFileParser;
  seen : gset string;
  rows : list Row.t;
  cancelled : bool;
  url_depths : gmap string Z;
  q : list (string * Z);
  trace : list Event;
  clock : nat
}.

Definition set_session (v : Session.t) (s : State) : State :=
  mkState v (current_proxy_index s) (robots_parsers s) (seen s) (rows s)
          (cancelled s) (url_depths s) (q s) (trace s) (clock s).
Definition set_current_proxy_index (v : Z) (s : State) : State :=
  mkState (session s) v (robots_parsers s) (seen s) (rows s)
          (cancelled s) (url_depths s) (q s) (trace s) (clock s).
Definition set_robots_parsers (v : gmap string RobotFileParser) (s : State) : State :=
  mkState (session s) (current_proxy_index s) v (seen s) (rows s)
          (cancelled s) (url_depths s) (q s) (trace s) (clock s).
Definition set_seen (v : gset string) (s : State) : State :=
  mkState (session s) (current_proxy_index s) (robots_parsers s) v (rows s)
          (cancelled s) (url_depths s) (q s) (trace s) (clock s).
Definition set_rows (v : list Row.t) (s : State) : State :=
  mkState (session s) (current_proxy_index s) (robots_parsers s) (seen s) v
          (cancelled s) (url_depths s) (q s) (trace s) (clock s).
Definition set_cancelled (v : bool) (s : State) : State :=
  mkState (session s) (current_proxy_index s) (robots_parsers s) (seen s) (rows s)
          v (url_depths s) (q s) (trace s) (clock s).
Definition set_url_depths (v : gmap string Z) (s : State) : State :=
  mkState (session s) (current_proxy_index s) (robots_parsers s) (seen s) (rows s)
          (cancelled s) v (q s) (trace s) (clock s).
Definition set_q (v : list (string * Z)) (s : State) : State :=
  mkState (session s) (current_proxy_index s) (robots_parsers s) (seen s) (rows s)
          (cancelled s) (url_depths s) v (trace s) (clock s).
Definition set_trace (v : list Event) (s : State) : State :=
  mkState (session s) (current_proxy_index s) (robots_parsers s) (seen s) (rows s)
          (cancelled s) (url_depths s) (q s) v (clock s).
Definition set_clock (v : nat) (s : State) : State :=
  mkState (session s) (current_proxy_index s) (robots_parsers s) (seen s) (rows s)
          (cancelled s) (url_depths s) (q s) (trace s) v.

(** ** The state monad of the crawl *)

Definition M (A : Type) : Type := State -> A * State.

Definition ret {A} (a : A) : M A := fun s => (a, s).
Definition bind {A B} (m : M A) (k : A -> M B) : M B :=
  fun s => let '(a, s') := m s in k a s'.
Definition gets {A} (f : State -> A) : M A := fun s => (f s, s).
Definition modify (f : State -> State) : M unit := fun s => (tt, f s).

Declare Scope crawl_scope.
Delimit Scope crawl_scope with crawl.
Notation "x <- m ;; k" := (bind m (fun x => k))
  (at level 100, m at next level, k at level 200, right associativity) : crawl_scope.
Notation "m ;; k" := (bind m (fun _ => k))
  (at level 100, k at level 200, right associativity) : crawl_scope.

(** One call into the world: read the time and advance it. *)
Definition tick : M nat := fun s => (clock s, set_clock (S (clock s)) s).
Definition emit (e : Event) : M unit := modify (fun s => set_trace (trace s ++ [e]) s).
(** [if log_cb: log_cb(msg)] *)
Definition log (log_cb : bool) (msg : LogMsg) : M unit :=
  if log_cb then emit (EvLog msg) else ret tt.
(** [time.sleep(seconds)] *)
Definition sleep (seconds : Q) : M unit := emit (EvSleep seconds).

Local Open Scope crawl_scope.

(* ===================================================================== *)
(** * Module-level functions *)
(* ===================================================================== *)

Definition same_origin (a b : string) : bool :=
  let pa := Urllib.urlparse a in
  let pb := Urllib.urlparse b in
  String.eqb (Urllib.scheme pa) (Urllib.scheme pb)
  && String.eqb (Urllib.netloc pa) (Urllib.netloc pb).

(** The test of the first [if] after [href.strip()]; both of its branches
    are [pass]. *)
Definition anchor_or_foreign_scheme (href : string) : bool :=
  Py.startswith "#" href
  || Py.contains ":" (Py.before "?" href)
     && negb (Py.str_in (Py.before ":" href) ["http"; "https"]).

Definition normalize_link (w : World) (base_url href : string) : option string :=
  if Py.is_empty href then None else
  let href := Py.strip href in
  let _ :=
    if anchor_or_foreign_scheme href then
      if Py.startswith "http" href || Py.startswith "https" href
      then tt   (* pass: allow absolute http(s) *)
      else tt   (* pass *)
    else tt in
  let abs_url := urljoin w base_url href in
  let parsed := Urllib.urlparse abs_url in
  if negb (Py.str_in (Urllib.scheme parsed) ALLOWED_SCHEMES) then None else
  let abs_url := Py.before "#" abs_url in
  Some abs_url.

(* ===================================================================== *)
(** * The class [Spider] *)
(* ===================================================================== *)

Definition is_nil {A} (l : list A) : bool :=
  match l with [] => true | _ :: _ => false end.

(** [random.choice(USER_AGENTS)] at time [t] *)
Definition random_user_agent (w : World) (t : nat) : string :=
  nth (random_choice w t mod length USER_AGENTS)%nat USER_AGENTS "".

(** [x if x is not None else d] *)
Definition or_default {A} (x : option A) (d : A) : A :=
  match x with Some v => v | None => d end.
(** [xs or []] *)
Definition or_nil {A} (x : option (list A)) : list A := or_default x [].

(** [_set_proxy]: take the proxy at the current index, advance the index. *)
Definition _set_proxy (self : Config) : M unit :=
  if is_nil (proxies self) then ret tt else
  i <- gets current_proxy_index ;;
  let proxy := nth (Z.to_nat i) (proxies self) "" in
  let proxy :=
    if Py.startswith "http://" proxy || Py.startswith "https://" proxy
    then proxy else "http://" +:+ proxy in
  modify (fun s => set_session
            (Session.mk (Session.headers (session s)) (Session.cookies (session s))
                        (<["http" := proxy]> (<["https" := proxy]> ∅))) s) ;;
  modify (set_current_proxy_index ((i + 1) mod Py.len (proxies self))).

(** [Spider.__init__]: the configuration and the initial state of the
    object. [time0] is the time at which the object is created. *)
Definition init_config (w : World) (time0 : nat)
    (root_url : string) (max_pages : Z) (delay : Q)
    (user_agent : option string) (randomize_ua respect_robots : bool)
    (max_depth : Z) (allowed_domains link_filters : option (list string))
    (max_retries : Z) (retry_backoff : Q) (proxies : option (list string))
    (randomize_delay : bool) (delay_min delay_max : option Q)
    (include_keywords exclude_keywords : option (list string)) : Config :=
  {| root := Py.rstrip "/" root_url;
     max_pages := max_pages;
     delay := delay;
     max_depth := max_depth;
     allowed_domains := or_nil allowed_domains;
     link_filters := or_nil link_filters;
     max_retries := max_retries;
     retry_backoff := retry_backoff;
     randomize_ua := randomize_ua;
     respect_robots := respect_robots;
     proxies := or_nil proxies;
     randomize_delay := randomize_delay;
     delay_min := or_default delay_min (delay * (1 # 2))%Q;
     delay_max := or_default delay_max (delay * (3 # 2))%Q;
     include_keywords := or_nil include_keywords;
     exclude_keywords := or_nil exclude_keywords;
     user_agent :=
       if randomize_ua then random_user_agent w time0
       else match user_agent with
            | Some ua => if Py.is_empty ua then USER_AGENT else ua
            | None => USER_AGENT
            end |}.

Definition init_state (self : Config) (time0 : nat)
    (custom_headers cookies : option (gmap string string)) : State :=
  let s0 :=
    {| session :=
         Session.mk (or_default custom_headers ∅ ∪ {["User-Agent" := user_agent self]})
                    (or_default cookies ∅) ∅;
       current_proxy_index := 0;
       robots_parsers := ∅;
       seen := ∅;
       rows := [];
       cancelled := false;
       url_depths := ∅;
       q := [];
       trace := [];
       clock := if randomize_ua self then S time0 else time0 |} in
  if is_nil (proxies self) then s0 else snd (_set_proxy self s0).

Section Methods.

Variable w : World.
Variable self : Config.

(** [cancel]: called from another thread; the crawl sees it at the loop
    test through [cancel_called]. *)
Definition cancel : M unit := modify (set_cancelled true).

Definition _get_delay : M Q :=
  if randomize_delay self then
    t <- tick ;;
    ret (random_uniform w t (delay_min self) (delay_max self))
  else ret (delay self).

Definition keyword_in (url_lower keyword : string) : bool :=
  Py.contains (Py.lower keyword) url_lower.

Definition _check_keyword_filters (url : string) : bool :=
  let url_lower := Py.lower url in
  (* Check exclude keywords first *)
  if existsb (keyword_in url_lower) (exclude_keywords self) then false else
  (* Check include keywords *)
  if negb (is_nil (include_keywords self)) then
    if existsb (keyword_in url_lower) (include_keywords self) then true
    else false
  else true.

Definition _get_robots_parser (url : string) : M (option RobotFileParser) :=
  if negb (respect_robots self) then ret None else
  let parsed := Urllib.urlparse url in
  let robots_url := Urllib.scheme parsed +:+ "://" +:+ Urllib.netloc parsed +:+ "/robots.txt" in
  cache <- gets robots_parsers ;;
  match cache !! robots_url with
  | Some rp => ret (Some rp)
  | None =>
      t <- tick ;;
      emit (EvRobotsRead robots_url) ;;
      match robots_read w t robots_url with
      | Some rp =>
          modify (fun s => set_robots_parsers (<[robots_url := rp]> (robots_parsers s)) s) ;;
          ret (Some rp)
      | None => ret None
      end
  end.

Definition _can_fetch (url : string) : M bool :=
  if negb (respect_robots self) then ret true else
  rp <- _get_robots_parser url ;;
  match rp with
  | None => ret true
  | Some rp => ret (rp (user_agent self) url)
  end.

(** [2 ** attempt] as a rational *)
Definition pow2 (attempt : Z) : Q := inject_Z (2 ^ attempt).

(** The body of the [for attempt in range(max_retries + 1)] loop, over the
    attempts that remain; running out of attempts is the final
    [return None]. *)
Fixpoint fetch_attempts (url : string) (log_cb : bool) (attempts : list Z)
  : M (option string) :=
  match attempts with
  | [] => ret None
  | attempt :: rest =>
      (if randomize_ua self && (attempt >? 0) then
         t <- tick ;;
         modify (fun s => set_session
           (Session.mk (<["User-Agent" := random_user_agent w t]>
                          (Session.headers (session s)))
                       (Session.cookies (session s)) (Session.proxies (session s))) s)
       else ret tt) ;;
      (if attempt >? 0 then log log_cb (LogRetry attempt (max_retries self) url)
       else ret tt) ;;
      t <- tick ;;
      emit (EvGet url) ;;
      match session_get w t url with
      | Some r => ret (Some r)
      | None =>
          if attempt <? max_retries self then
            let wait_time := (retry_backoff self * pow2 attempt)%Q in
            log log_cb (LogRetrying wait_time) ;;
            sleep wait_time ;;
            fetch_attempts url log_cb rest
          else
            log log_cb (LogFailed (max_retries self)) ;;
            ret None
      end
  end.

Definition _fetch_with_retry (url : string) (log_cb : bool) : M (option string) :=
  fetch_attempts url log_cb (Py.range (max_retries self + 1)).

(** [allowed[1:]] *)
Definition tail_str (s : string) : string :=
  match s with EmptyString => EmptyString | String _ s' => s' end.

Definition _check_domain_allowed (url : string) : bool :=
  if is_nil (allowed_domains self) then true else
  let parsed := Urllib.urlparse url in
  let domain := Py.lower (Urllib.netloc parsed) in
  existsb (fun allowed =>
    let allowed := Py.strip (Py.lower allowed) in
    if Py.startswith "." allowed then
      Py.endswith allowed domain || String.eqb domain (tail_str allowed)
    else
      String.eqb domain allowed || Py.endswith ("." +:+ allowed) domain)
    (allowed_domains self).

Definition _check_link_filter (url : string) : bool :=
  if is_nil (link_filters self) then true else
  let parsed := Urllib.urlparse url in
  let path := Py.lower (Urllib.path parsed) in
  existsb (fun filter_ext =>
    let filter_ext := Py.strip (Py.lower filter_ext) in
    let filter_ext :=
      if negb (Py.startswith "." filter_ext) then "." +:+ filter_ext else filter_ext in
    Py.endswith filter_ext path || Py.endswith (filter_ext +:+ "/") path)
    (link_filters self).

Definition _get_url_depth (url : string) : M Z :=
  depths <- gets url_depths ;;
  match depths !! url with
  | Some d => ret d
  | None =>
      if String.eqb url (root self) then ret 0 else
      let root_parsed := Urllib.urlparse (root self) in
      let url_parsed := Urllib.urlparse url in
      if negb (String.eqb (Urllib.netloc root_parsed) (Urllib.netloc url_parsed))
      then ret (-1) else
      let root_path := Py.split "/" (Py.rstrip "/" (Urllib.path root_parsed)) in
      let url_path := Py.split "/" (Py.rstrip "/" (Urllib.path url_parsed)) in
      let depth := Z.max 0 (Py.len url_path - Py.len root_path) in
      modify (fun s => set_url_depths (<[url := depth]> (url_depths s)) s) ;;
      ret depth
  end.

End Methods.

Section Crawl.

Variable w : World.
Variable self : Config.
(** whether [crawl] was given a [progress_cb] and a [log_cb] *)
Variable progress_cb log_cb : bool.

(** [q.put((url, depth))] *)
Definition q_put (url : string) (depth : Z) : M unit :=
  modify (fun s => set_q (q s ++ [(url, depth)]) s) ;;
  emit (EvPut url depth).

(** The statements before the loop: a new queue holding the root. *)
Definition crawl_seed : M unit :=
  modify (set_q []) ;;
  q_put (root self) 0 ;;
  modify (fun s => set_seen ({[root self]} ∪ seen s) s) ;;
  modify (fun s => set_url_depths (<[root self := 0]> (url_depths s)) s).

(** [soup.title.string.strip() if soup.title and soup.title.string else url] *)
Definition page_title (soup : Soup) (url : string) : string :=
  match soup_title soup with
  | Some (Some s) => if Py.is_empty s then url else Py.strip s
  | Some None | None => url
  end.

(** The "category" heuristic: first path segment. *)
Definition page_category (url : string) : string :=
  let path := Py.strip_char "/" (Urllib.path (Urllib.urlparse url)) in
  if Py.is_empty path then "" else hd "" (Py.split "/" path).

(** The body of the loop [for a in soup.select("a[href]")] for one
    [href]; each [continue] is a [ret tt]. *)
Definition queue_link (url href : string) : M unit :=
  match normalize_link w url href with
  | None => ret tt
  | Some abs_url =>
      if Py.is_empty abs_url then ret tt else
      if negb (same_origin (root self) abs_url) then ret tt else
      visited <- gets seen ;;
      if bool_decide (abs_url ∈ visited) then ret tt else
      (* Check depth for new URL *)
      new_depth <- _get_url_depth self abs_url ;;
      if (max_depth self >=? 0) && (new_depth >? max_depth self) then ret tt else
      (* Check keyword filters for new URLs *)
      if negb (_check_keyword_filters self abs_url) then ret tt else
      modify (fun s => set_seen ({[abs_url]} ∪ seen s) s) ;;
      q_put abs_url new_depth
  end.

Fixpoint queue_links (url : string) (hrefs : list string) : M unit :=
  match hrefs with
  | [] => ret tt
  | href :: rest => queue_link url href ;; queue_links url rest
  end.

(** What follows a successful fetch: the record, the callback, the links
    and the delay. *)
Definition process_page (url html : string) : M unit :=
  let soup := BeautifulSoup w html in
  let title := page_title soup url in
  let category := page_category url in
  modify (fun s => set_rows (rows s ++ [Row.mk title category url]) s) ;;
  (if progress_cb then emit (EvProgress title html) else ret tt) ;;
  queue_links url (soup_hrefs soup) ;;
  delay <- _get_delay w self ;;
  sleep delay.

(** The body of the [while] loop for the entry [(url, depth)] just taken
    from the queue; each [continue] is a [ret tt]. *)
Definition visit (url : string) (depth : Z) : M unit :=
  (* Check depth limit *)
  if (max_depth self >=? 0) && (depth >? max_depth self) then
    log log_cb (LogSkipDepth url depth (max_depth self))
  else
  (* Check robots.txt *)
  allowed <- _can_fetch w self url ;;
  if negb allowed then log log_cb (LogRobots url) else
  (* Check domain restrictions *)
  if negb (_check_domain_allowed self url) then log log_cb (LogDomain url) else
  (* Check link filters *)
  if negb (_check_link_filter self url) then log log_cb (LogLinkFilter url) else
  (* Check keyword filters *)
  if negb (_check_keyword_filters self url) then log log_cb (LogKeyword url) else
  (* Rotate proxy if enabled *)
  (if negb (is_nil (proxies self)) then _set_proxy self else ret tt) ;;
  log log_cb (LogGet url depth) ;;
  r <- _fetch_with_retry w self url log_cb ;;
  match r with
  | None => ret tt
  | Some html => process_page url html
  end.

(** [url, depth = q.get()] and the body. The loop test keeps [q.get()]
    from being called on an empty queue. *)
Definition crawl_body : M unit :=
  frontier <- gets q ;;
  match frontier with
  | [] => ret tt
  | (url, depth) :: rest =>
      modify (set_q rest) ;;
      visit url depth
  end.

(** The loop test, after whatever [cancel()] calls arrived meanwhile. *)
Definition loop_test : M bool :=
  t <- tick ;;
  (if cancel_called w t then cancel else ret tt) ;;
  s <- gets (fun s => s) ;;
  ret (negb (is_nil (q s)) && (Py.len (rows s) <? max_pages self)
       && negb (cancelled s)).

(** The [while] loop; [None] when the fuel runs out before the loop ends. *)
Fixpoint crawl_loop (fuel : nat) (s : State) : option State :=
  let '(go, s1) := loop_test s in
  if go then
    match fuel with
    | O => None
    | S fuel' => crawl_loop fuel' (snd (crawl_body s1))
    end
  else Some s1.

Definition crawl (fuel : nat) (s : State) : option State :=
  crawl_loop fuel (snd (crawl_seed s)).

(** The state after [n] rounds of the loop (test and body), or at its end
    when it ends earlier: the points a run goes through. *)
Fixpoint crawl_rounds (n : nat) (s : State) : State :=
  match n with
  | O => s
  | S n' =>
      let '(go, s1) := loop_test s in
      if go then crawl_rounds n' (snd (crawl_body s1)) else s1
  end.

End Crawl.

(** A world for worked examples: [urljoin] is [Urllib.urljoin], a request
    for [url] is answered by [pages url] every time, no robots.txt can be
    read, nothing is random and nobody cancels. *)
Definition static_world (pages : string -> option string) (soup : string -> Soup) : World :=
  {| urljoin := Urllib.urljoin;
     session_get := fun _ url => pages url;
     BeautifulSoup := soup;
     robots_read := fun _ _ => None;
     random_choice := fun _ => O;
     random_uniform := fun _ a _ => a;
     cancel_called := fun _ => false |}.

(** The projections of a trace. *)
Definition put_url (e : Event) : option string :=
  match e with EvPut url _ => Some url | _ => None end.
Definition get_url (e : Event) : option string :=
  match e with EvGet url => Some url | _ => None end.
Definition sleep_seconds (e : Event) : option Q :=
  match e with EvSleep t => Some t | _ => None end.

(** The URLs put into the queue, the URLs requested and the sleeps, in order. *)
Definition puts (tr : list Event) : list string := omap put_url tr.
Definition requests (tr : list Event) : list string := omap get_url tr.
Definition sleeps (tr : list Event) : list Q := omap sleep_seconds tr.

(* ===================================================================== *)
(** * The window [App]: page files and settings lists *)
(* ===================================================================== *)

(** ** The page files of [App.on_create_sitemap]

    The [progress_cb] closure saves each page under a name made of its
    title and URL. *)

Definition LF : ascii := "010"%char.










(** ** The lists of the settings dialog

    [on_settings] shows a list setting (allowed domains, link filters,
    proxies, keywords) one entry a line; [save_settings] reads it back. *)

(** ["\n".join(entries)], what [on_settings] inserts into the text box. *)
Fixpoint join_lines (entries : list string) : string :=
  match entries with
  | [] => EmptyString
  | [x] => x
  | x :: rest => x +:+ String LF (join_lines rest)
  end.

(** [[d.strip() for d in text.strip().split("\n") if d.strip()]], what
    [save_settings] stores for the text of the box. *)
Definition parse_lines (text : string) : list string :=
  map Py.strip
    (List.filter (fun d => negb (Py.is_empty (Py.strip d)))
       (Py.split LF (Py.strip text))).

(* ===================================================================== *)
(** * The vocabulary of the properties *)
(* ===================================================================== *)

(** [keyword] occurs in [url] up to case: a substring of [url] and
    [keyword] have the same lowercase form. *)
Definition occurs_ignoring_case (keyword url : string) : Prop :=
  exists pre mid post,
    url = pre +:+ mid +:+ post /\ Py.lower mid = Py.lower keyword.

(** The configuration of [Spider(root_url, include_keywords=incl,
    exclude_keywords=excl)], every other argument at its default. *)
Definition keyword_config (root_url : string) (incl excl : option (list string)) : Config :=
  init_config (static_world (fun _ => None) (fun _ => Build_Soup None [])) 0
    root_url MAX_PAGES CRAWL_DELAY None false true (-1) None None 3 1 None
    false None None incl excl.

(** [preserves R m]: running [m] takes every state to an [R]-related one. *)
Definition preserves (R : State -> State -> Prop) {A} (m : M A) : Prop :=
  forall s, R s (snd (m s)).

(** The part of the state the crawl invariants speak about is left alone:
    the visited set, the records, the depth index, the queue and the URLs
    put so far. *)
Definition frame (s s' : State) : Prop :=
  seen s' = seen s /\ rows s' = rows s /\ url_depths s' = url_depths s
  /\ q s' = q s /\ puts (trace s') = puts (trace s).

(** Relations that only look at that part of the state. *)
Class FrameCompatible (R : State -> State -> Prop) : Prop :=
  frame_compatible : forall s s', frame s s' -> R s s'.

(** The depth index only grows: what is stored stays stored, unchanged. *)
Definition depths_grow (s s' : State) : Prop := url_depths s ⊆ url_depths s'.

(** The records are left alone. *)
Definition rows_kept (s s' : State) : Prop := rows s' = rows s.

(** [keeps P]: a state property that survives. *)
Definition keeps (P : State -> Prop) (s s' : State) : Prop := P s -> P s'.

(** Every URL put into the queue so far was put once, and is marked visited. *)
Definition enqueue_inv (s : State) : Prop :=
  NoDup (puts (trace s)) /\ forall u, u ∈ puts (trace s) -> u ∈ seen s.

(** The record of the page at [url] with body [html]. *)
Definition row_of_page (w : World) (url html : string) : Row.t :=
  Row.mk (page_title (BeautifulSoup w html) url) (page_category url) url.

(** A site in which every page links to two pages below itself: the page
    at [u] has the body [u] and the anchors [a/] and [b/]. *)
Definition endless_site : World :=
  static_world (fun url => Some url)
    (fun html => {| soup_title := Some (Some "Page"); soup_hrefs := ["a/"; "b/"] |}).

(** [Spider(root_url, max_pages=cap)], every other argument at its default,
    and the state of the new object. *)
Definition capped_config (w : World) (root_url : string) (cap : Z) : Config :=
  init_config w 0 root_url cap CRAWL_DELAY None false true (-1) None None 3 1
    None false None None None None.

Definition new_state (self : Config) : State := init_state self 0 None None.

(** The first record, if there is one, is the record of the root. *)
Definition root_first (self : Config) (s : State) : Prop :=
  match rows s with
  | [] => q s = [] \/ q s = [(root self, 0)]
  | r :: _ => Row.url r = root self
  end.

(** [Spider("https://x.test/")] crawling a site of one page. *)
Definition one_page_site : World :=
  static_world (fun url => Some "<title>Home</title>")
    (fun html => {| soup_title := Some (Some "Home"); soup_hrefs := [] |}).

Definition nonempty (s : string) : bool := negb (Py.is_empty s).

(** The first non-empty segment of a path, the empty string when there is
    none. *)
Definition first_segment (path : string) : string :=
  hd "" (List.filter nonempty (Py.split "/" path)).

(** A document whose title element holds three blanks. *)
Definition blank_title_soup : Soup :=
  {| soup_title := Some (Some "   "); soup_hrefs := [] |}.

(** The checks a queue entry goes through before it is fetched. *)
Inductive Gate := GateDepth | GateRobots | GateDomain | GateLinkFilter | GateKeyword.

Definition gate_eqb (a b : Gate) : bool :=
  match a, b with
  | GateDepth, GateDepth | GateRobots, GateRobots | GateDomain, GateDomain
  | GateLinkFilter, GateLinkFilter | GateKeyword, GateKeyword => true
  | _, _ => false
  end.

(** Whether the entry [(url, depth)] taken from the queue in state [s] fails
    a gate. *)
Definition gate_fails (w : World) (self : Config) (url : string) (depth : Z)
    (s : State) (g : Gate) : bool :=
  match g with
  | GateDepth => (max_depth self >=? 0) && (depth >? max_depth self)
  | GateRobots => negb (fst (_can_fetch w self url s))
  | GateDomain => negb (_check_domain_allowed self url)
  | GateLinkFilter => negb (_check_link_filter self url)
  | GateKeyword => negb (_check_keyword_filters self url)
  end.

(** The message logged when a gate fails. *)
Definition gate_reason (self : Config) (url : string) (depth : Z) (g : Gate) : LogMsg :=
  match g with
  | GateDepth => LogSkipDepth url depth (max_depth self)
  | GateRobots => LogRobots url
  | GateDomain => LogDomain url
  | GateLinkFilter => LogLinkFilter url
  | GateKeyword => LogKeyword url
  end.

(** Whether robots.txt is consulted when the gates are tried in [order] and
    [g] is the first to fail. *)
Fixpoint robots_consulted (order : list Gate) (g : Gate) : bool :=
  match order with
  | [] => false
  | h :: t =>
      if gate_eqb h GateRobots then true
      else if gate_eqb h g then false
      else robots_consulted t g
  end.

(** The gates are tried in [order]: when [g] is the first that fails, the
    visit does what trying the gates up to [g] does and logs the reason of
    [g], and nothing else; in particular it requests nothing. *)
Definition gates_applied_in (order : list Gate) : Prop :=
  forall (w : World) (self : Config) (progress_cb log_cb : bool)
         (url : string) (depth : Z) (s : State) (g : Gate),
    List.find (gate_fails w self url depth s) order = Some g ->
    let s' := snd (visit w self progress_cb log_cb url depth s) in
    s' = snd (log log_cb (gate_reason self url depth g)
                (if robots_consulted order g then snd (_can_fetch w self url s) else s))
    /\ requests (trace s') = requests (trace s).

(** The order in the specification, and the order in [crawl]. *)
Definition spec_order : list Gate :=
  [GateDepth; GateDomain; GateLinkFilter; GateKeyword; GateRobots].

Definition code_order : list Gate :=
  [GateDepth; GateRobots; GateDomain; GateLinkFilter; GateKeyword].

(** A site whose robots.txt forbids everything, crawled with an allow-list
    that does not contain it. *)
Definition forbidding_site : World :=
  {| urljoin := Urllib.urljoin;
     session_get := fun _ url => Some url;
     BeautifulSoup := fun _ => {| soup_title := None; soup_hrefs := [] |};
     robots_read := fun _ _ => Some (fun _ _ => false);
     random_choice := fun _ => O;
     random_uniform := fun _ a _ => a;
     cancel_called := fun _ => false |}.

Definition elsewhere_config : Config :=
  init_config forbidding_site 0 "https://x.test/" MAX_PAGES CRAWL_DELAY None
    false true (-1) (Some ["other.test"]) None 3 1 None false None None None None.




(** A site whose page [/bad] never answers; every page links to [/bad] and
    to [/good]. *)
Definition flaky_site : World :=
  static_world
    (fun url => if String.eqb url "https://x.test/bad" then None else Some url)
    (fun html => {| soup_title := None; soup_hrefs := ["/bad"; "/good"] |}).

(** [Spider(root_url, max_retries=2, retry_backoff=1.0)] *)
Definition retry_config (w : World) (root_url : string) : Config :=
  init_config w 0 root_url MAX_PAGES CRAWL_DELAY None false true (-1) None None
    2 1 None false None None None None.

(* ===================================================================== *)
(** * The vocabulary of the further properties *)
(* ===================================================================== *)

(** What the link loop has checked of a URL it puts into the queue. *)
Definition link_in_scope (self : Config) (u : string) : Prop :=
  same_origin (root self) u = true
  /\ _check_keyword_filters self u = true
  /\ Urllib.scheme (Urllib.urlparse u) ∈ ALLOWED_SCHEMES
  /\ Py.mem "#" u = false.

(** The depth check, passed. *)
Definition depth_within (self : Config) (depth : Z) : Prop :=
  (max_depth self >=? 0) && (depth >? max_depth self) = false.

Definition entry_ok (self : Config) (e : string * Z) : Prop :=
  link_in_scope self (fst e) /\ depth_within self (snd e).

(** From [s] to [s'] the records are kept and the queue only grows at its
    end, by entries that are put and that the link loop has checked. *)
Definition extends (self : Config) (s s' : State) : Prop :=
  rows s' = rows s
  /\ exists new,
       q s' = q s ++ new
       /\ puts (trace s') = puts (trace s) ++ map fst new
       /\ Forall (entry_ok self) new.

(** The three filters a queue entry passes before it is fetched. *)
Definition passes_filters (self : Config) (u : string) : Prop :=
  _check_domain_allowed self u = true
  /\ _check_link_filter self u = true
  /\ _check_keyword_filters self u = true.

(** What holds of records, queue and puts throughout a run. *)
Definition crawl_inv (self : Config) (s : State) : Prop :=
  map Row.url (rows s) ++ map fst (q s) `sublist_of` puts (trace s)
  /\ Forall (fun e => depth_within self (snd e)) (q s)
  /\ Forall (fun r => passes_filters self (Row.url r)) (rows s)
  /\ Forall (fun u => u = root self \/ link_in_scope self u) (puts (trace s)).

(** The robots.txt URL of the origin of [url], as [_get_robots_parser]
    builds it. *)
Definition robots_url_of (url : string) : string :=
  let parsed := Urllib.urlparse url in
  Urllib.scheme parsed +:+ "://" +:+ Urllib.netloc parsed +:+ "/robots.txt".

(** From [s] to [s'] the trace grows by events that satisfy [P]. *)
Definition grows (P : Event -> Prop) (s s' : State) : Prop :=
  exists tr, trace s' = trace s ++ tr /\ Forall P tr.

(** An event that is no request, and one that is no request for a URL
    other than [url]. *)
Definition not_request (e : Event) : Prop := get_url e = None.

Definition request_of (url : string) (e : Event) : Prop :=
  get_url e = None \/ e = EvGet url.

(** From [s] to [s'] the robots cache gains only parsers that were read for
    their key. *)
Definition cache_from (w : World) (s s' : State) : Prop :=
  forall k rp,
    robots_parsers s' !! k = Some rp ->
    robots_parsers s !! k = Some rp \/ exists t, robots_read w t k = Some rp.

(** The URL passes the filters and is the root or a checked link. *)
Definition url_in_scope (self : Config) (u : string) : Prop :=
  passes_filters self u /\ (u = root self \/ link_in_scope self u).

(** What holds of the requests throughout a run. *)
Definition requests_inv (self : Config) (s : State) : Prop :=
  forall u, u ∈ requests (trace s) -> url_in_scope self u /\ u ∈ puts (trace s).

(** Every read of the robots.txt of the origin of [url] succeeds and
    forbids [url] to the crawler's user agent. *)
Definition forbids (w : World) (self : Config) (url : string) : Prop :=
  forall t, exists rp,
    robots_read w t (robots_url_of url) = Some rp /\ rp (user_agent self) url = false.

(** A cached robots.txt of the origin of [url] forbids [url]. *)
Definition cache_forbids (self : Config) (url : string) (s : State) : Prop :=
  forall rp,
    robots_parsers s !! robots_url_of url = Some rp -> rp (user_agent self) url = false.

(** What a run keeps when the robots.txt of [url] forbids it. *)
Definition forbidden_inv (self : Config) (url : string) (s : State) : Prop :=
  cache_forbids self url s /\ url ∉ requests (trace s).

(** A site whose robots.txt forbids everything under [/private]; every
    page links to [/private] and to [/public]. *)
Definition private_site : World :=
  {| urljoin := Urllib.urljoin;
     session_get := fun _ url => Some url;
     BeautifulSoup := fun _ => {| soup_title := None; soup_hrefs := ["/private"; "/public"] |};
     robots_read := fun _ _ =>
       Some (fun _ url => negb (Py.startswith "https://x.test/private" url));
     random_choice := fun _ => O;
     random_uniform := fun _ a _ => a;
     cancel_called := fun _ => false |}.

(** The proxy URL that [_set_proxy] makes of an entry of the list. *)
Definition proxy_url (proxy : string) : string :=
  if Py.startswith "http://" proxy || Py.startswith "https://" proxy
  then proxy else "http://" +:+ proxy.

(** [session.proxies] sends both schemes through [proxy]. *)
Definition proxies_are (proxy : string) (s : State) : Prop :=
  Session.proxies (session s) = <["http" := proxy]> (<["https" := proxy]> ∅).

(** [self.proxies[self.current_proxy_index]] is an element of the list. *)
Definition index_ok (self : Config) (s : State) : Prop :=
  0 <= current_proxy_index s < Py.len (proxies self).

(** [n] calls of [_set_proxy] in a row. *)
Definition set_proxy_times (self : Config) (n : nat) (s : State) : State :=
  Nat.iter n (fun s => snd (_set_proxy self s)) s.

(** [Spider(root, proxies=["p1:8080"; "https://p2"; "p3:3128"])] *)
Definition proxy_config (w : World) : Config :=
  init_config w 0 "https://x.test/" MAX_PAGES CRAWL_DELAY None false true (-1)
    None None 3 1 (Some ["p1:8080"; "https://p2"; "p3:3128"]) false None None None None.


(** The world [w] with [cancel()] arriving as [c] tells. *)
Definition with_cancel (c : nat -> bool) (w : World) : World :=
  {| urljoin := urljoin w;
     session_get := session_get w;
     BeautifulSoup := BeautifulSoup w;
     robots_read := robots_read w;
     random_choice := random_choice w;
     random_uniform := random_uniform w;
     cancel_called := c |}.


(** From [s] to [s'] records were added and, for each of them, a sleep of
    [self.delay] seconds, among whatever other sleeps were made. *)
Definition paced (self : Config) (s s' : State) : Prop :=
  exists new_rows new_sleeps,
    rows s' = rows s ++ new_rows
    /\ sleeps (trace s') = sleeps (trace s) ++ new_sleeps
    /\ replicate (length new_rows) (delay self) `sublist_of` new_sleeps.

(** Neither a record nor a sleep from [s] to [s']. *)
Definition still (s s' : State) : Prop :=
  rows s' = rows s /\ sleeps (trace s') = sleeps (trace s).

(** The number of path segments [_get_url_depth] counts. *)
Definition path_segments (url : string) : Z :=
  Py.len (Py.split "/" (Py.rstrip "/" (Urllib.path (Urllib.urlparse url)))).

(** The depth of a URL of the root's host: how many path segments it has
    more than the root, and 0 when it has fewer. *)
Definition path_depth (self : Config) (url : string) : Z :=
  if String.eqb url (root self) then 0
  else Z.max 0 (path_segments url - path_segments (root self)).

(** The depth index and the queue hold path depths only. *)
Definition depths_inv (self : Config) (s : State) : Prop :=
  (forall u d, url_depths s !! u = Some d -> d = path_depth self u)
  /\ Forall (fun e => snd e = path_depth self (fst e)) (q s).

(** A site whose pages link back to the root and down to [/a/b/c]. *)
Definition deep_link_site : World :=
  static_world (fun url => Some url)
    (fun html => {| soup_title := None; soup_hrefs := ["/a/b/c"; "/"] |}).

(** [domain] is [allowed] or one of its subdomains. *)
Definition host_matches (allowed domain : string) : Prop :=
  domain = allowed \/ exists sub, domain = sub +:+ "." +:+ allowed.

(** An entry of the allow-list as it is compared: lowercased, stripped, and
    without its leading dot. *)
Definition bare_domain (allowed : string) : string :=
  let allowed := Py.strip (Py.lower allowed) in
  if Py.startswith "." allowed then tail_str allowed else allowed.

(** An entry of the extension list as it is compared: lowercased, stripped,
    with a leading dot. *)
Definition dotted_ext (filter_ext : string) : string :=
  let filter_ext := Py.strip (Py.lower filter_ext) in
  if Py.startswith "." filter_ext then filter_ext else "." +:+ filter_ext.

(** An entry as [save_settings] stores them: not empty, no blank at either
    end, no line feed. *)
Definition clean_entry (x : string) : Prop :=
  match x with
  | EmptyString => False
  | String c _ => Py.isspace c = false
  end
  /\ Py.rstrip_by Py.isspace x = x
  /\ Py.mem LF x = false.

(** How often [u] was requested so far. *)
Definition times_requested (u : string) (s : State) : nat :=
  count_occ String.string_dec (requests (trace s)) u.

(** The number of attempts [_fetch_with_retry] makes at most. *)
Definition request_limit (self : Config) : nat := Z.to_nat (max_retries self + 1).

(** No URL was requested more often than the limit, and none of the queue
    was requested yet. *)
Definition requests_bounded (self : Config) (s : State) : Prop :=
  forall u,
    (times_requested u s <= request_limit self)%nat
    /\ (u ∈ map fst (q s) -> u ∉ requests (trace s)).

(** From [s] to [s'] the crawler has written no header of the session but
    the User-Agent, and that one only with [randomize_ua] on, taking it
    from [USER_AGENTS]. The other headers are those whose name differs from
    [User-Agent] also when case is ignored. *)
Definition session_kept (self : Config) (s s' : State) : Prop :=
  (forall k, Py.lower k <> "user-agent" ->
     Session.headers (session s') !! k = Session.headers (session s) !! k)
  /\ (Session.headers (session s') !! "User-Agent"
      = Session.headers (session s) !! "User-Agent"
      \/ exists ua, ua ∈ USER_AGENTS
           /\ Session.headers (session s') !! "User-Agent" = Some ua)
  /\ (randomize_ua self = false ->
      Session.headers (session s') = Session.headers (session s)).

(** The calls of [progress_cb] in a trace: title and HTML, in order. *)
Definition progress_of (e : Event) : option (string * string) :=
  match e with EvProgress title html => Some (title, html) | _ => None end.

Definition progress_calls (tr : list Event) : list (string * string) :=
  omap progress_of tr.

(** The call [progress_cb(title, html)] reports the record [r]: [r] is the
    record made of [html], and [title] is its title. *)
Definition reports (w : World) (call : string * string) (r : Row.t) : Prop :=
  r = row_of_page w (Row.url r) (snd call) /\ fst call = Row.title r.

(** From [s] to [s'] records were added and reported one by one. *)
Definition reported (w : World) (s s' : State) : Prop :=
  exists new_rows new_calls,
    rows s' = rows s ++ new_rows
    /\ progress_calls (trace s') = progress_calls (trace s) ++ new_calls
    /\ Forall2 (reports w) new_calls new_rows.

(** Neither a record nor a call of [progress_cb] from [s] to [s']. *)
Definition unreported (s s' : State) : Prop :=
  rows s' = rows s /\ progress_calls (trace s') = progress_calls (trace s).

(** The records are of pages within the depth limit. *)
Definition rows_within (self : Config) (s : State) : Prop :=
  Forall (fun r => path_depth self (Row.url r) <= max_depth self) (rows s).

(** [Spider("https://x.test/", max_depth=1)] *)
Definition shallow_config (w : World) : Config :=
  init_config w 0 "https://x.test/" MAX_PAGES CRAWL_DELAY None false true 1
    None None 3 1 None false None None None None.

(* ===================================================================== *)
(** * Strings: the facts the proofs use *)
(* ===================================================================== *)

Section StringFacts.

Lemma startswith_app p s : Py.startswith p (p +:+ s) = true.
Proof.
  induction p as [|a p IH]; simpl; [reflexivity|].
  rewrite Ascii.eqb_refl. exact IH.
Qed.

Lemma startswith_inv p s :
  Py.startswith p s = true -> exists post, s = p +:+ post.
Proof.
  revert s. induction p as [|a p IH]; intros s H; simpl in *.
  - exists s. reflexivity.
  - destruct s as [|b s]; [discriminate|].
    apply andb_true_iff in H as [Hab Hp].
    apply Ascii.eqb_eq in Hab. subst b.
    destruct (IH _ Hp) as [post ->]. exists post. reflexivity.
Qed.

Lemma contains_startswith sub s :
  Py.startswith sub s = true -> Py.contains sub s = true.
Proof. intros H. destruct s; simpl; rewrite H; reflexivity. Qed.

(** [sub in s] holds exactly when [s] is [pre + sub + post]. *)
Lemma contains_spec sub s :
  Py.contains sub s = true <-> exists pre post, s = pre +:+ sub +:+ post.
Proof.
  split.
  - induction s as [|c s IH]; simpl; intros H.
    + rewrite orb_false_r in H. apply startswith_inv in H as [post ->].
      exists EmptyString, post. reflexivity.
    + apply orb_true_iff in H as [H|H].
      * apply startswith_inv in H as [post ->].
        exists EmptyString, post. reflexivity.
      * destruct (IH H) as (pre & post & ->).
        exists (String c pre), post. reflexivity.
  - intros (pre & post & ->).
    induction pre as [|c pre IH]; simpl.
    + apply contains_startswith. exact (startswith_app sub post).
    + rewrite IH. apply orb_true_r.
Qed.

Lemma lower_app a b : Py.lower (a +:+ b) = Py.lower a +:+ Py.lower b.
Proof. induction a as [|c a IH]; simpl; [reflexivity|]. now rewrite IH. Qed.

Lemma lower_split s : forall a b,
  Py.lower s = a +:+ b ->
  exists s1 s2, s = s1 +:+ s2 /\ Py.lower s1 = a /\ Py.lower s2 = b.
Proof.
  induction s as [|c s IH]; intros a b H.
  - destruct a; simpl in H; [|discriminate].
    exists EmptyString, EmptyString. simpl. rewrite <- H. auto.
  - destruct a as [|x a]; simpl in H.
    + exists EmptyString, (String c s). simpl. auto.
    + injection H as Hx Hs. destruct (IH _ _ Hs) as (s1 & s2 & -> & H1 & H2).
      exists (String c s1), s2. simpl. rewrite Hx, H1. auto.
Qed.

End StringFacts.

(* ===================================================================== *)
(** * The keyword filter *)
(* ===================================================================== *)

Lemma keyword_in_spec url keyword :
  keyword_in (Py.lower url) keyword = true <-> occurs_ignoring_case keyword url.
Proof.
  unfold keyword_in, occurs_ignoring_case. rewrite contains_spec. split.
  - intros (a & b & H).
    apply lower_split in H as (pre & rest & -> & _ & H).
    apply lower_split in H as (mid & post & -> & Hmid & _).
    now exists pre, mid, post.
  - intros (pre & mid & post & -> & Hmid).
    exists (Py.lower pre), (Py.lower post).
    now rewrite !lower_app, Hmid.
Qed.

Lemma any_keyword_spec url (keywords : list string) :
  existsb (keyword_in (Py.lower url)) keywords = true
  <-> exists k, k ∈ keywords /\ occurs_ignoring_case k url.
Proof.
  rewrite existsb_exists. split; intros (k & Hin & Hk); exists k.
  - split; [now apply list_elem_of_In | now apply keyword_in_spec].
  - split; [now apply list_elem_of_In | now apply keyword_in_spec].
Qed.

(** C8. The keyword filter accepts a URL exactly when no exclude keyword
    occurs in it (up to case) and, if include keywords are configured, at
    least one of them occurs in it (up to case); so an exclude match rejects
    even when an include keyword matches, and without include keywords
    every URL free of exclude matches passes. With include [blog] and
    exclude [draft]: [https://site/blog/draft-1] is rejected,
    [https://site/blog/post-1] accepted, [https://site/about] rejected. *)
Theorem C8_keyword_filter :
  (forall (self : Config) (url : string),
     _check_keyword_filters self url = true
     <-> (~ exists k, k ∈ exclude_keywords self /\ occurs_ignoring_case k url)
         /\ (include_keywords self = []
             \/ exists k, k ∈ include_keywords self /\ occurs_ignoring_case k url))
  /\ (let self := keyword_config "https://site" (Some ["blog"]) (Some ["draft"]) in
      _check_keyword_filters self "https://site/blog/draft-1" = false
      /\ _check_keyword_filters self "https://site/blog/post-1" = true
      /\ _check_keyword_filters self "https://site/about" = false).
Proof.
  split; [|now vm_compute].
  intros self url. unfold _check_keyword_filters.
  rewrite <- !any_keyword_spec.
  destruct (existsb _ (exclude_keywords self)) eqn:Hex.
  - split; [discriminate|]. intros [Hno _]. now destruct Hno.
  - destruct (include_keywords self) as [|k ks] eqn:Hin; simpl is_nil; cbv iota beta.
    + simpl. split; [intros _|reflexivity]. split; [congruence|now left].
    + simpl negb. cbv iota.
      destruct (existsb _ (k :: ks)) eqn:Hany.
      * split; [intros _|reflexivity]. split; [congruence|now right].
      * split; [discriminate|]. intros [_ [H|H]]; congruence.
Qed.

(* ===================================================================== *)
(** * The URL normalizer *)
(* ===================================================================== *)

Section UrlFacts.

Lemma not_hash (p : ascii -> bool) c :
  p "#"%char = false -> p c = true -> Ascii.eqb c "#" = false.
Proof.
  intros Hp Hc. destruct (Ascii.eqb_spec c "#"); [subst; congruence|reflexivity].
Qed.

Lemma scheme_char_not_hash c :
  Urllib.scheme_char c = true -> Ascii.eqb c "#" = false.
Proof. now apply not_hash. Qed.

Lemma before_hash_free s : Py.mem "#" (Py.before "#" s) = false.
Proof.
  induction s as [|c s IH]; simpl; [reflexivity|].
  destruct (Ascii.eqb c "#") eqn:E; simpl; [reflexivity|]. now rewrite E.
Qed.

Lemma before_hash_lstrip s :
  Py.lstrip_by Urllib.c0_or_space (Py.before "#" s)
  = Py.before "#" (Py.lstrip_by Urllib.c0_or_space s).
Proof.
  induction s as [|c s IH]; simpl; [reflexivity|].
  destruct (Ascii.eqb c "#") eqn:E.
  - apply Ascii.eqb_eq in E. subst c. reflexivity.
  - simpl. destruct (Urllib.c0_or_space c); [exact IH|]. simpl. now rewrite E.
Qed.

Lemma before_hash_remove_unsafe s :
  Urllib.remove_unsafe (Py.before "#" s)
  = Py.before "#" (Urllib.remove_unsafe s).
Proof.
  induction s as [|c s IH]; simpl; [reflexivity|].
  destruct (Ascii.eqb c "#") eqn:E.
  - apply Ascii.eqb_eq in E. subst c. reflexivity.
  - simpl. destruct (Urllib.unsafe_byte c); [exact IH|]. simpl. now rewrite E, IH.
Qed.

(** Cutting at the first [#] leaves a scheme prefix alone. *)
Lemma before_colon_before_hash s :
  Urllib.all_chars Urllib.scheme_char (Py.before ":" s) = true ->
  Py.mem ":" s = true ->
  Py.before ":" (Py.before "#" s) = Py.before ":" s
  /\ Py.mem ":" (Py.before "#" s) = true.
Proof.
  induction s as [|c s IH]; simpl; [discriminate|].
  destruct (Ascii.eqb c ":") eqn:Ec.
  - apply Ascii.eqb_eq in Ec. subst c. intros _ _. simpl. auto.
  - simpl. intros Hall Hmem.
    apply andb_true_iff in Hall as [Hc Hall].
    rewrite (scheme_char_not_hash _ Hc). simpl. rewrite Ec.
    destruct (IH Hall Hmem) as [-> ->]. auto.
Qed.

Lemma split_scheme_before_hash s :
  fst (Urllib.split_scheme "" s) <> "" ->
  fst (Urllib.split_scheme "" (Py.before "#" s)) = fst (Urllib.split_scheme "" s).
Proof.
  unfold Urllib.split_scheme. destruct s as [|c s]; [reflexivity|].
  destruct (Py.mem ":" (String c s) && _ && _ && _) eqn:Hcond;
    [intros _ | intros H; now destruct H].
  apply andb_true_iff in Hcond as [Hcond Hall].
  apply andb_true_iff in Hcond as [Hcond Halpha].
  apply andb_true_iff in Hcond as [Hmem Hpre].
  destruct (before_colon_before_hash _ Hall Hmem) as [Hb Hm].
  assert (Hc : Ascii.eqb c "#" = false).
  { apply scheme_char_not_hash. simpl in Hall, Hpre.
    destruct (Ascii.eqb c ":"); [discriminate|].
    simpl in Hall. now apply andb_true_iff in Hall as [? _]. }
  assert (Hcut : Py.before "#" (String c s) = String c (Py.before "#" s))
    by (simpl; now rewrite Hc).
  rewrite Hcut in Hb, Hm |- *. cbv beta iota zeta.
  rewrite Hb, Hm, Hpre, Halpha, Hall. reflexivity.
Qed.

Lemma urlparse_scheme u :
  Urllib.scheme (Urllib.urlparse u)
  = fst (Urllib.split_scheme ""
           (Urllib.remove_unsafe (Py.lstrip_by Urllib.c0_or_space u))).
Proof.
  unfold Urllib.urlparse, Urllib.urlparse_default.
  change (Urllib.remove_unsafe (Py.strip_by Urllib.c0_or_space "")) with "".
  destruct (Urllib.split_scheme _ _) as [sch rest].
  destruct (Urllib.split_netloc rest). reflexivity.
Qed.

(** A URL with a scheme keeps it when cut at the first [#]. *)
Lemma urlparse_scheme_before_hash u :
  Urllib.scheme (Urllib.urlparse u) <> "" ->
  Urllib.scheme (Urllib.urlparse (Py.before "#" u))
  = Urllib.scheme (Urllib.urlparse u).
Proof.
  rewrite !urlparse_scheme, before_hash_lstrip, before_hash_remove_unsafe.
  apply split_scheme_before_hash.
Qed.

(** Without a [#] in the URL there is no fragment. *)
Lemma after_absent c s : Py.mem c s = false -> Py.after c s = "".
Proof.
  induction s as [|a s IH]; simpl; [reflexivity|].
  destruct (Ascii.eqb a c); simpl; [discriminate|exact IH].
Qed.

Lemma mem_lstrip c p s :
  Py.mem c s = false -> Py.mem c (Py.lstrip_by p s) = false.
Proof.
  induction s as [|a s IH]; simpl; [reflexivity|]. intros H.
  apply orb_false_iff in H as [Ha Hs].
  destruct (p a); [now apply IH|]. simpl. now rewrite Ha, Hs.
Qed.

Lemma mem_remove_unsafe c s :
  Py.mem c s = false -> Py.mem c (Urllib.remove_unsafe s) = false.
Proof.
  induction s as [|a s IH]; simpl; [reflexivity|]. intros H.
  apply orb_false_iff in H as [Ha Hs].
  destruct (Urllib.unsafe_byte a); [now apply IH|]. simpl. now rewrite Ha, IH.
Qed.

Lemma mem_after c d s : Py.mem c s = false -> Py.mem c (Py.after d s) = false.
Proof.
  induction s as [|a s IH]; simpl; [reflexivity|]. intros H.
  apply orb_false_iff in H as [Ha Hs].
  destruct (Ascii.eqb a d); [exact Hs|now apply IH].
Qed.

Lemma mem_span_until c p s :
  Py.mem c s = false -> Py.mem c (snd (Urllib.span_until p s)) = false.
Proof.
  induction s as [|a s IH]; simpl; [reflexivity|]. intros H.
  pose proof H as H'. apply orb_false_iff in H as [Ha Hs].
  destruct (p a); [exact H'|].
  specialize (IH Hs). destruct (Urllib.span_until p s). exact IH.
Qed.

Lemma mem_split_scheme c d s :
  Py.mem c s = false -> Py.mem c (snd (Urllib.split_scheme d s)) = false.
Proof.
  intros H. unfold Urllib.split_scheme. destruct s as [|a s]; [reflexivity|].
  destruct (_ && _); [now apply mem_after|exact H].
Qed.

Lemma mem_split_netloc c s :
  Py.mem c s = false -> Py.mem c (snd (Urllib.split_netloc s)) = false.
Proof.
  intros H. unfold Urllib.split_netloc.
  destruct s as [|a s]; [reflexivity|].
  destruct (Ascii.eqb_spec a "/") as [->|Ha].
  - destruct s as [|b s]; [exact H|].
    destruct (Ascii.eqb_spec b "/") as [->|Hb].
    + apply mem_span_until. simpl in H.
      apply orb_false_iff in H as [_ H]. now apply orb_false_iff in H as [_ H].
    + destruct b as [[] [] [] [] [] [] [] []]; try exact H. now destruct Hb.
  - destruct a as [[] [] [] [] [] [] [] []]; try exact H. now destruct Ha.
Qed.

Lemma urlparse_no_fragment u :
  Py.mem "#" u = false -> Urllib.fragment (Urllib.urlparse u) = "".
Proof.
  intros H. unfold Urllib.urlparse, Urllib.urlparse_default.
  pose proof (mem_split_scheme "#" (Urllib.remove_unsafe (Py.strip_by Urllib.c0_or_space ""))
                _ (mem_remove_unsafe _ _ (mem_lstrip _ Urllib.c0_or_space _ H))) as H1.
  destruct (Urllib.split_scheme _ _) as [sch rest]. simpl in H1.
  pose proof (mem_split_netloc "#" _ H1) as H2.
  destruct (Urllib.split_netloc rest) as [loc rest']. simpl in H2.
  simpl. now apply after_absent.
Qed.

End UrlFacts.

Lemma str_in_spec x (xs : list string) : Py.str_in x xs = true <-> x ∈ xs.
Proof.
  unfold Py.str_in. rewrite existsb_exists, list_elem_of_In. split.
  - intros (y & Hy & E). apply String.eqb_eq in E. now subst.
  - intros H. exists x. split; [exact H|apply String.eqb_refl].
Qed.

Lemma normalize_link_inv w base_url href u :
  normalize_link w base_url href = Some u ->
  let abs_url := urljoin w base_url (Py.strip href) in
  Py.str_in (Urllib.scheme (Urllib.urlparse abs_url)) ALLOWED_SCHEMES = true
  /\ u = Py.before "#" abs_url.
Proof.
  unfold normalize_link. destruct (Py.is_empty href); [discriminate|].
  destruct (Py.str_in _ ALLOWED_SCHEMES); simpl; [|discriminate].
  intros [= <-]. auto.
Qed.

(** C6. Whenever the normalizer returns a URL, the scheme of that URL is
    [http] or [https], the URL contains no [#], and parsing it gives an
    empty fragment. *)
Theorem C6_normalized_scheme_and_fragment :
  forall (w : World) (base_url href u : string),
    normalize_link w base_url href = Some u ->
    Urllib.scheme (Urllib.urlparse u) ∈ ALLOWED_SCHEMES
    /\ Py.mem "#" u = false
    /\ Urllib.fragment (Urllib.urlparse u) = "".
Proof.
  intros w base_url href u H.
  apply normalize_link_inv in H as [Hs ->].
  split; [|split].
  - apply str_in_spec.
    rewrite urlparse_scheme_before_hash; [exact Hs|].
    intros E. rewrite E in Hs. discriminate.
  - apply before_hash_free.
  - apply urlparse_no_fragment, before_hash_free.
Qed.

Lemma C6_witness :
  let w := static_world (fun _ => None) (fun _ => Build_Soup None []) in
  normalize_link w "https://x.test/a/b" "../c?x=1#part" = Some "https://x.test/c?x=1"
  /\ (Urllib.scheme (Urllib.urlparse "https://x.test/c?x=1") ∈ ALLOWED_SCHEMES
      /\ Py.mem "#" "https://x.test/c?x=1" = false
      /\ Urllib.fragment (Urllib.urlparse "https://x.test/c?x=1") = "").
Proof.
  split; [reflexivity|].
  apply (C6_normalized_scheme_and_fragment
           (static_world (fun _ => None) (fun _ => Build_Soup None []))
           "https://x.test/a/b" "../c?x=1#part").
  reflexivity.
Defined.

(** C7. An empty [href] is rejected for every base, but an [href] that is
    only a fragment is not: the test for a leading [#] guards two [pass]
    statements, so [#top] is joined to the base like any relative link and
    the base comes back without its fragment. *)
Theorem C7_fragment_href_not_rejected :
  (forall (w : World) (base_url : string), normalize_link w base_url "" = None)
  /\ (forall pages soup,
        anchor_or_foreign_scheme "#top" = true
        /\ normalize_link (static_world pages soup) "https://x.test/a" "#top"
           = Some "https://x.test/a").
Proof. split; [reflexivity|]. intros pages soup. split; reflexivity. Qed.

(* ===================================================================== *)
(** * Reasoning about the state monad *)
(* ===================================================================== *)

Section Preserves.

Context (R : State -> State -> Prop) `{!PreOrder R}.

Lemma preserves_ret {A} (a : A) : preserves R (ret a).
Proof. intros s. reflexivity. Qed.

Lemma preserves_gets {A} (f : State -> A) : preserves R (gets f).
Proof. intros s. reflexivity. Qed.

Lemma preserves_bind {A B} (m : M A) (k : A -> M B) :
  preserves R m -> (forall a, preserves R (k a)) -> preserves R (bind m k).
Proof.
  intros Hm Hk s. unfold bind. specialize (Hm s).
  destruct (m s) as [a s1]. simpl in Hm.
  etransitivity; [exact Hm|apply Hk].
Qed.

Lemma preserves_modify (f : State -> State) :
  (forall s, R s (f s)) -> preserves R (modify f).
Proof. intros H s. apply H. Qed.

End Preserves.

#[export] Instance frame_preorder : PreOrder frame.
Proof.
  split.
  - intros s. unfold frame. auto.
  - intros a b c (H1 & H2 & H3 & H4 & H5) (G1 & G2 & G3 & G4 & G5).
    unfold frame. rewrite G1, G2, G3, G4, G5. auto.
Qed.

Lemma preserves_frame R `{!FrameCompatible R} {A} (m : M A) :
  preserves frame m -> preserves R m.
Proof. intros H s. apply frame_compatible, H. Qed.

Lemma puts_snoc tr e :
  puts (tr ++ [e]) = puts tr ++ match put_url e with Some u => [u] | None => [] end.
Proof. unfold puts. rewrite omap_app. simpl. now destruct (put_url e). Qed.

(** One step through a computation, by the shape of the program. *)
Ltac preserves_step :=
  lazymatch goal with
  | |- preserves _ (ret _) => apply preserves_ret; apply _
  | |- preserves _ (gets _) => apply preserves_gets; apply _
  | |- preserves _ (bind _ _) => apply preserves_bind; [apply _| |intros ?]
  | |- preserves _ (let _ := _ in _) => cbv zeta
  | |- preserves _ (if ?b then _ else _) => destruct b
  | |- preserves _ (match ?x with Some _ => _ | None => _ end) => destruct x
  end.

Create HintDb frames.

(** Walk through the program; what is left are calls that leave the crawl
    state alone. *)
Ltac frames :=
  repeat preserves_step;
  try solve [ eauto with frames
            | apply preserves_frame; [apply _|eauto with frames] ].

Section Frames.

Variable w : World.
Variable self : Config.

Lemma frame_field (f : State -> State) :
  (forall s, seen (f s) = seen s /\ rows (f s) = rows s
             /\ url_depths (f s) = url_depths s /\ q (f s) = q s
             /\ trace (f s) = trace s) ->
  preserves frame (modify f).
Proof.
  intros H s. destruct (H s) as (H1 & H2 & H3 & H4 & H5).
  unfold frame. simpl. rewrite H1, H2, H3, H4, H5. auto.
Qed.

Lemma frame_tick : preserves frame tick.
Proof. intros s. unfold frame. simpl. auto. Qed.

Lemma frame_emit e : put_url e = None -> preserves frame (emit e).
Proof.
  intros He s. unfold frame. simpl. rewrite puts_snoc, He, app_nil_r. auto.
Qed.

Lemma frame_log log_cb msg : preserves frame (log log_cb msg).
Proof. unfold log. destruct log_cb; [now apply frame_emit|frames]. Qed.

Lemma frame_sleep t : preserves frame (sleep t).
Proof. now apply frame_emit. Qed.

Lemma frame_set_session f : preserves frame (modify (fun s => set_session (f s) s)).
Proof. apply frame_field. intros s. simpl. auto. Qed.

Lemma frame_set_current_proxy_index v :
  preserves frame (modify (set_current_proxy_index v)).
Proof. apply frame_field. intros s. simpl. auto. Qed.

Lemma frame_set_robots_parsers f :
  preserves frame (modify (fun s => set_robots_parsers (f s) s)).
Proof. apply frame_field. intros s. simpl. auto. Qed.

Lemma frame_cancel : preserves frame cancel.
Proof. apply frame_field. intros s. simpl. auto. Qed.

#[local] Hint Resolve frame_tick frame_log frame_sleep frame_set_session
  frame_set_current_proxy_index frame_set_robots_parsers frame_cancel : frames.
#[local] Hint Extern 1 (preserves frame (emit _)) =>
  apply frame_emit; reflexivity : frames.

Lemma frame_set_proxy : preserves frame (_set_proxy self).
Proof. unfold _set_proxy. frames. Qed.

Lemma frame_get_delay : preserves frame (_get_delay w self).
Proof. unfold _get_delay. frames. Qed.

Lemma frame_get_robots_parser url : preserves frame (_get_robots_parser w self url).
Proof. unfold _get_robots_parser. frames. Qed.

Lemma frame_can_fetch url : preserves frame (_can_fetch w self url).
Proof.
  unfold _can_fetch. pose proof (frame_get_robots_parser url). frames.
Qed.

Lemma frame_fetch_attempts url log_cb attempts :
  preserves frame (fetch_attempts w self url log_cb attempts).
Proof. induction attempts as [|attempt rest IH]; simpl; frames. Qed.

Lemma frame_fetch_with_retry url log_cb :
  preserves frame (_fetch_with_retry w self url log_cb).
Proof. apply frame_fetch_attempts. Qed.

Lemma frame_loop_test : preserves frame (loop_test w self).
Proof. unfold loop_test. frames. Qed.

End Frames.

#[export] Hint Resolve frame_tick frame_log frame_sleep frame_set_session
  frame_set_current_proxy_index frame_set_robots_parsers frame_cancel
  frame_set_proxy frame_get_delay frame_can_fetch frame_fetch_with_retry
  frame_loop_test : frames.
#[export] Hint Extern 1 (preserves frame (emit _)) =>
  apply frame_emit; reflexivity : frames.

(* ===================================================================== *)
(** * The depth index *)
(* ===================================================================== *)

#[export] Instance depths_grow_preorder : PreOrder depths_grow.
Proof.
  split.
  - intros s. unfold depths_grow. reflexivity.
  - intros a b c H1 H2. unfold depths_grow in *. etransitivity; eauto.
Qed.

#[export] Instance depths_grow_frame : FrameCompatible depths_grow.
Proof. intros s s' (_ & _ & H & _). unfold depths_grow. now rewrite H. Qed.

#[export] Instance rows_kept_preorder : PreOrder rows_kept.
Proof.
  split.
  - intros s. reflexivity.
  - intros a b c H1 H2. unfold rows_kept in *. congruence.
Qed.

#[export] Instance rows_kept_frame : FrameCompatible rows_kept.
Proof. intros s s' (_ & H & _). exact H. Qed.

#[export] Instance keeps_preorder P : PreOrder (keeps P).
Proof. split; unfold keeps; [intros s; auto|intros a b c; auto]. Qed.

Section DepthIndex.

Variable self : Config.

(** A stored depth is returned as it is and nothing is written. *)
Lemma get_url_depth_stored url d s :
  url_depths s !! url = Some d -> _get_url_depth self url s = (d, s).
Proof. intros H. unfold _get_url_depth, bind, gets. now rewrite H. Qed.

(** Otherwise the state is unchanged, or the computed depth is stored
    under a key that was free. *)
Lemma get_url_depth_cases url s :
  let '(d, s') := _get_url_depth self url s in
  s' = s
  \/ (url_depths s !! url = None
      /\ s' = set_url_depths (<[url := d]> (url_depths s)) s).
Proof.
  unfold _get_url_depth, bind, gets.
  destruct (url_depths s !! url) eqn:E; [now left|].
  destruct (String.eqb url (root self)); [now left|].
  destruct (negb _); [now left|]. right. auto.
Qed.

Lemma get_url_depth_grows url : preserves depths_grow (_get_url_depth self url).
Proof.
  intros s. pose proof (get_url_depth_cases url s) as H.
  destruct (_get_url_depth self url s) as [d s']. simpl.
  destruct H as [->|[Hnone ->]]; [reflexivity|].
  unfold depths_grow. simpl. now apply insert_subseteq.
Qed.

(** It touches nothing but the depth index. *)
Lemma get_url_depth_rest url s :
  let s' := snd (_get_url_depth self url s) in
  seen s' = seen s /\ rows s' = rows s /\ q s' = q s /\ trace s' = trace s.
Proof.
  pose proof (get_url_depth_cases url s) as H.
  destruct (_get_url_depth self url s) as [d s']. simpl.
  destruct H as [->|[_ ->]]; simpl; auto.
Qed.

End DepthIndex.

(* ===================================================================== *)
(** * The crawl loop, piece by piece *)
(* ===================================================================== *)

#[export] Instance enqueue_inv_frame : FrameCompatible (keeps enqueue_inv).
Proof.
  intros s s' (Hseen & _ & _ & _ & Hputs) [Hnd Hin].
  unfold enqueue_inv. rewrite Hputs, Hseen. auto.
Qed.

Lemma bind_run {A B} (m : M A) (k : A -> M B) s :
  bind m k s = k (fst (m s)) (snd (m s)).
Proof. unfold bind. now destruct (m s). Qed.

Section Pieces.

Variable w : World.
Variable self : Config.
Variable progress_cb log_cb : bool.

(** One link either changes nothing but the depth index, or marks a URL
    that was not visited, and puts it at the end of the queue. *)
Lemma queue_link_cases url href s :
  let s' := snd (queue_link w self url href s) in
  rows s' = rows s /\ url_depths s ⊆ url_depths s'
  /\ ((seen s' = seen s /\ q s' = q s /\ trace s' = trace s)
      \/ exists u d,
           (u ∉ seen s) /\ seen s' = {[u]} ∪ seen s
           /\ q s' = q s ++ [(u, d)] /\ trace s' = trace s ++ [EvPut u d]).
Proof.
  intros s'. assert (Hs' : s' = snd (queue_link w self url href s)) by reflexivity.
  clearbody s'. unfold queue_link in Hs'.
  destruct (normalize_link w url href) as [abs_url|]; [|subst s'; simpl; auto 10].
  destruct (Py.is_empty abs_url); [subst s'; simpl; auto 10|].
  destruct (negb (same_origin _ _)); [subst s'; simpl; auto 10|].
  rewrite bind_run in Hs'. unfold gets in Hs'. cbn [fst snd] in Hs'.
  case_bool_decide as Hseen; [subst s'; simpl; auto 10|].
  rewrite bind_run in Hs'.
  pose proof (get_url_depth_rest self abs_url s) as (H1 & H2 & H3 & H4).
  pose proof (get_url_depth_grows self abs_url s) as Hgrow.
  destruct (_get_url_depth self abs_url s) as [d s1]. cbn [fst snd] in *.
  destruct ((max_depth self >=? 0) && (d >? max_depth self));
    [subst s'; simpl; rewrite H1, H2, H3, H4; auto 10|].
  destruct (negb (_check_keyword_filters self abs_url));
    [subst s'; simpl; rewrite H1, H2, H3, H4; auto 10|].
  subst s'. simpl. rewrite H1, H2, H3, H4.
  split; [reflexivity|]. split; [exact Hgrow|].
  right. exists abs_url, d. auto.
Qed.

Lemma queue_link_rows url href : preserves rows_kept (queue_link w self url href).
Proof. intros s. apply (queue_link_cases url href s). Qed.

Lemma queue_link_depths url href : preserves depths_grow (queue_link w self url href).
Proof. intros s. apply (queue_link_cases url href s). Qed.

Lemma queue_link_enqueue url href :
  preserves (keeps enqueue_inv) (queue_link w self url href).
Proof.
  intros s [Hnd Hin].
  destruct (queue_link_cases url href s) as (_ & _ & [(Hs & _ & Ht)|(u & d & Hu & Hs & _ & Ht)]);
    unfold enqueue_inv; rewrite Hs, Ht; [auto|].
  rewrite puts_snoc. simpl. split.
  - apply NoDup_app. split; [exact Hnd|]. split; [|apply NoDup_singleton].
    intros x Hx Hx'. apply list_elem_of_singleton in Hx'. subst x. auto.
  - intros x Hx. apply elem_of_app in Hx as [Hx|Hx].
    + apply elem_of_union_r. auto.
    + apply list_elem_of_singleton in Hx. subst x. apply elem_of_union_l.
      now apply elem_of_singleton.
Qed.

Section Generic.

Context (R : State -> State -> Prop) `{!PreOrder R} `{!FrameCompatible R}.
Hypothesis R_link : forall url href, preserves R (queue_link w self url href).
Hypothesis R_rows : forall v s, R s (set_rows v s).
Hypothesis R_pop : forall v s, R s (set_q v s).

Lemma preserves_queue_links url hrefs :
  preserves R (queue_links w self url hrefs).
Proof. induction hrefs as [|href rest IH]; simpl; frames. Qed.

Lemma preserves_process_page url html :
  preserves R (process_page w self progress_cb url html).
Proof.
  unfold process_page. pose proof preserves_queue_links. frames.
  apply preserves_modify. intros s. apply R_rows.
Qed.

Lemma preserves_visit url depth :
  preserves R (visit w self progress_cb log_cb url depth).
Proof. unfold visit. pose proof preserves_process_page. frames. Qed.

Lemma preserves_crawl_body :
  preserves R (crawl_body w self progress_cb log_cb).
Proof.
  unfold crawl_body.
  apply preserves_bind; [apply _|frames|intros frontier].
  destruct frontier as [|[url depth] rest]; [frames|].
  pose proof preserves_visit. frames.
  apply preserves_modify. intros s. apply R_pop.
Qed.

Lemma preserves_loop_test : preserves R (loop_test w self).
Proof. frames. Qed.

(** What every piece preserves, the rounds of the loop preserve. *)
Lemma preserves_rounds n s :
  R s (crawl_rounds w self progress_cb log_cb n s).
Proof.
  revert s. induction n as [|n IH]; intros s; simpl; [reflexivity|].
  pose proof (preserves_loop_test s) as Ht.
  destruct (loop_test w self s) as [go s1]. simpl in Ht.
  destruct go; [|exact Ht].
  etransitivity; [exact Ht|].
  etransitivity; [apply preserves_crawl_body|apply IH].
Qed.

End Generic.

End Pieces.
Section Cases.

Variable w : World.
Variable self : Config.
Variable progress_cb log_cb : bool.

(** A fetched page adds exactly its record. *)
Lemma process_page_rows url html s :
  rows (snd (process_page w self progress_cb url html s))
  = rows s ++ [row_of_page w url html].
Proof.
  unfold process_page. rewrite bind_run. unfold modify at 1. cbn [fst snd].
  match goal with |- rows (snd (?m ?s1)) = _ =>
    assert (H : preserves rows_kept m); [|exact (H s1)] end.
  pose proof (preserves_queue_links w self rows_kept (queue_link_rows w self)).
  frames.
Qed.

(** A visit either leaves the crawl state alone (a gate or the fetch
    failed), or processes the fetched page. *)
Lemma visit_cases url depth s :
  let s' := snd (visit w self progress_cb log_cb url depth s) in
  frame s s'
  \/ exists html s0 s1,
       frame s s1
       /\ _fetch_with_retry w self url log_cb s0 = (Some html, s1)
       /\ s' = snd (process_page w self progress_cb url html s1).
Proof.
  intros s'.
  assert (Hs' : s' = snd (visit w self progress_cb log_cb url depth s)) by reflexivity.
  clearbody s'. unfold visit in Hs'.
  assert (Hlog : forall msg s0, frame s s0 -> frame s (snd (log log_cb msg s0))).
  { intros msg s0 H. etransitivity; [exact H|apply frame_log]. }
  destruct (_ && _); [left; subst s'; now apply Hlog|].
  rewrite bind_run in Hs'.
  pose proof (frame_can_fetch w self url s) as H1.
  destruct (_can_fetch w self url s) as [allowed s1]. cbn [fst snd] in *.
  destruct (negb allowed); [left; subst s'; now apply Hlog|].
  destruct (negb (_check_domain_allowed _ _)); [left; subst s'; now apply Hlog|].
  destruct (negb (_check_link_filter _ _)); [left; subst s'; now apply Hlog|].
  destruct (negb (_check_keyword_filters _ _)); [left; subst s'; now apply Hlog|].
  rewrite bind_run in Hs'.
  assert (H2 : frame s (snd ((if negb (is_nil (proxies self))
                              then _set_proxy self else ret tt) s1))).
  { etransitivity; [exact H1|].
    destruct (negb _); [apply frame_set_proxy|reflexivity]. }
  destruct ((if negb (is_nil (proxies self)) then _set_proxy self else ret tt) s1)
    as [[] s2]. cbn [fst snd] in *.
  rewrite bind_run in Hs'.
  pose proof (Hlog (LogGet url depth) s2 H2) as H3.
  destruct (log log_cb (LogGet url depth) s2) as [[] s3]. cbn [fst snd] in *.
  rewrite bind_run in Hs'.
  pose proof (frame_fetch_with_retry w self url log_cb s3) as H4.
  destruct (_fetch_with_retry w self url log_cb s3) as [r s4] eqn:Efetch.
  cbn [fst snd] in *.
  assert (H5 : frame s s4) by (etransitivity; eauto).
  destruct r as [html|]; [right; exists html, s3, s4; auto|left; now subst s'].
Qed.

(** The body of the loop on a non-empty queue: the entry is consumed and
    either no record is added, or the record of the entry's page is. *)
Lemma crawl_body_cases url depth rest s :
  q s = (url, depth) :: rest ->
  let s' := snd (crawl_body w self progress_cb log_cb s) in
  (rows s' = rows s /\ q s' = rest)
  \/ exists html, rows s' = rows s ++ [row_of_page w url html].
Proof.
  intros Hq s'. subst s'. unfold crawl_body.
  rewrite bind_run. unfold gets. cbn [fst snd]. rewrite Hq.
  rewrite bind_run. unfold modify. cbn [fst snd].
  destruct (visit_cases url depth (set_q rest s)) as [H|(html & s0 & s1 & H & _ & ->)].
  - left. destruct H as (_ & Hr & _ & Hq' & _). now rewrite Hr, Hq'.
  - right. exists html. rewrite process_page_rows.
    destruct H as (_ & Hr & _). now rewrite Hr.
Qed.

(** The loop test changes neither queue nor records, and lets the loop go
    on only with a non-empty queue and fewer records than the cap. *)
Lemma loop_test_spec s :
  let '(go, s1) := loop_test w self s in
  frame s s1
  /\ (go = true -> q s1 <> [] /\ Py.len (rows s1) < max_pages self).
Proof.
  unfold loop_test, bind, tick, cancel, modify, gets, ret.
  destruct (cancel_called w (clock s)); simpl.
  all: split; [unfold frame; simpl; auto|].
  all: intros Hgo; apply andb_true_iff in Hgo as [Hgo _].
  all: apply andb_true_iff in Hgo as [Hq Hrows].
  all: split; [intros E; rewrite E in Hq; discriminate | lia].
Qed.

(** The loop itself always ends: a round takes an entry from the queue
    without adding one, or adds a record. This is a fact about the loop
    where every call returns, as calls do in this model. *)
Lemma crawl_loop_terminates s :
  exists fuel s', crawl_loop w self progress_cb log_cb fuel s = Some s'.
Proof.
  remember (Z.to_nat (max_pages self - Py.len (rows s))) as k eqn:Hk.
  remember (length (q s)) as n eqn:Hn.
  assert (Hk' : (Z.to_nat (max_pages self - Py.len (rows s)) <= k)%nat) by lia.
  assert (Hn' : (length (q s) <= n)%nat) by lia.
  clear Hk Hn. revert n s Hk' Hn'.
  induction k as [|k IHk]; intros n; induction n as [|n IHn]; intros s Hk Hn.
  all: pose proof (loop_test_spec s) as Ht.
  all: destruct (loop_test w self s) as [go s1] eqn:Etest.
  all: destruct Ht as [(_ & Hrows & _ & Hq & _) Hgo].
  all: destruct go; [destruct (Hgo eq_refl) as [Hne Hlt]|
                     exists O, s1; simpl; now rewrite Etest].
  all: rewrite Hrows in Hlt; try (exfalso; lia).
  all: assert (Hlen : length (q s1) = length (q s)) by now rewrite Hq.
  all: clear Hq; destruct (q s1) as [|[url depth] rest] eqn:Eq1; [now destruct Hne|].
  all: simpl in Hlen; try (exfalso; lia).
  destruct (crawl_body_cases url depth rest s1 Eq1) as [[Hr Hq']|[html Hr]].
  - destruct (IHn (snd (crawl_body w self progress_cb log_cb s1))) as (fuel & s' & H).
    + rewrite Hr, Hrows. exact Hk.
    + rewrite Hq'. lia.
    + exists (S fuel), s'. simpl. now rewrite Etest.
  - destruct (IHk (length (q (snd (crawl_body w self progress_cb log_cb s1))))
                (snd (crawl_body w self progress_cb log_cb s1))) as (fuel & s' & H).
    + rewrite Hr, Hrows. unfold Py.len in *. rewrite length_app. simpl. lia.
    + lia.
    + exists (S fuel), s'. simpl. now rewrite Etest.
Qed.

(** A run that ends is at one of the points [crawl_rounds] goes through. *)
Lemma crawl_loop_rounds fuel s s' :
  crawl_loop w self progress_cb log_cb fuel s = Some s' ->
  s' = crawl_rounds w self progress_cb log_cb (S fuel) s.
Proof.
  revert s. induction fuel as [|fuel IH]; intros s; simpl.
  - destruct (loop_test w self s) as [[] s1]; [discriminate|congruence].
  - destruct (loop_test w self s) as [[] s1]; [|congruence].
    intros H. apply IH in H. exact H.
Qed.

End Cases.
(* ===================================================================== *)
(** * Properties of a crawl run *)
(* ===================================================================== *)

Section Run.

Variable w : World.
Variable self : Config.
Variable progress_cb log_cb : bool.

Local Notation "'rounds'" := (crawl_rounds w self progress_cb log_cb).
Local Notation "'seed'" := (fun s => snd (crawl_seed self s)).

Lemma seed_fields s :
  q (seed s) = [(root self, 0)]
  /\ seen (seed s) = {[root self]} ∪ seen s
  /\ url_depths (seed s) = <[root self := 0]> (url_depths s)
  /\ rows (seed s) = rows s
  /\ trace (seed s) = trace s ++ [EvPut (root self) 0].
Proof. simpl. auto. Qed.

Lemma enqueue_inv_seed s : trace s = [] -> enqueue_inv (seed s).
Proof.
  intros Ht. destruct (seed_fields s) as (_ & Hs & _ & _ & Htr).
  unfold enqueue_inv. rewrite Htr, Hs, Ht. simpl. split.
  - apply NoDup_singleton.
  - intros u Hu. apply list_elem_of_singleton in Hu. subst u.
    apply elem_of_union_l. now apply elem_of_singleton.
Qed.

Lemma enqueue_inv_rounds n s :
  enqueue_inv s -> enqueue_inv (rounds n s).
Proof.
  apply (preserves_rounds w self progress_cb log_cb (keeps enqueue_inv)).
  - apply queue_link_enqueue.
  - intros v s0 H. exact H.
  - intros v s0 H. exact H.
Qed.

Lemma depths_grow_rounds n s : depths_grow s (rounds n s).
Proof.
  apply (preserves_rounds w self progress_cb log_cb depths_grow).
  - apply queue_link_depths.
  - intros v s0. unfold depths_grow. reflexivity.
  - intros v s0. unfold depths_grow. reflexivity.
Qed.

Lemma depths_grow_more n m s : depths_grow (rounds n s) (rounds (n + m) s).
Proof.
  revert s. induction n as [|n IH]; intros s; [apply depths_grow_rounds|].
  simpl. destruct (loop_test w self s) as [[] s1]; [apply IH|reflexivity].
Qed.

(** The cap holds after every round. *)
Lemma rows_capped_rounds n s :
  Py.len (rows s) <= max_pages self ->
  Py.len (rows (rounds n s)) <= max_pages self.
Proof.
  revert s. induction n as [|n IH]; intros s Hs; simpl; [exact Hs|].
  pose proof (loop_test_spec w self s) as Ht.
  destruct (loop_test w self s) as [go s1].
  destruct Ht as [(_ & Hrows & _) Hgo].
  destruct go; [|now rewrite Hrows].
  destruct (Hgo eq_refl) as [Hne Hlt]. apply IH.
  destruct (q s1) as [|[url depth] rest] eqn:Eq1; [now destruct Hne|].
  destruct (crawl_body_cases w self progress_cb log_cb url depth rest s1 Eq1)
    as [[Hr _]|[html Hr]]; rewrite Hr.
  - lia.
  - unfold Py.len in *. rewrite length_app. simpl. lia.
Qed.

Lemma root_first_rounds n s : root_first self s -> root_first self (rounds n s).
Proof.
  revert s. induction n as [|n IH]; intros s Hs; simpl; [exact Hs|].
  pose proof (loop_test_spec w self s) as Ht.
  destruct (loop_test w self s) as [go s1].
  destruct Ht as [(_ & Hrows & _ & Hq & _) Hgo].
  assert (Hs1 : root_first self s1) by (unfold root_first; now rewrite Hrows, Hq).
  destruct go; [|exact Hs1].
  destruct (Hgo eq_refl) as [Hne _]. apply IH.
  destruct (q s1) as [|[url depth] rest] eqn:Eq1; [now destruct Hne|].
  destruct (crawl_body_cases w self progress_cb log_cb url depth rest s1 Eq1)
    as [[Hr Hq']|[html Hr]]; unfold root_first in *; rewrite Hr; [rewrite Hq'|].
  - destruct (rows s1); [|exact Hs1]. rewrite Eq1 in Hs1.
    destruct Hs1 as [|[= _ _ ->]]; [discriminate|now left].
  - destruct (rows s1); simpl; [|exact Hs1]. rewrite Eq1 in Hs1.
    destruct Hs1 as [|[= -> _ _]]; [discriminate|reflexivity].
Qed.

Lemma crawl_body_one_row s :
  let s' := snd (crawl_body w self progress_cb log_cb s) in
  rows s' = rows s \/ exists r, rows s' = rows s ++ [r].
Proof.
  destruct (q s) as [|[url depth] rest] eqn:Eq.
  - left. unfold crawl_body. rewrite bind_run. unfold gets. cbn [fst snd].
    now rewrite Eq.
  - destruct (crawl_body_cases w self progress_cb log_cb url depth rest s Eq)
      as [[Hr _]|[html Hr]]; [now left|right; eauto].
Qed.

End Run.

(** C1. In a run observed from its start, after any number of rounds of the
    loop (so also when the run has ended) no URL was put into the queue
    twice and every URL put is in the visited set. A link is put only when
    it is not in the visited set, and it is added to the set with the put;
    the root is put and marked when the run is seeded. *)
Theorem C1_enqueued_at_most_once :
  forall (w : World) (self : Config) (progress_cb log_cb : bool) (s : State),
    trace s = [] ->
    (forall n,
       let s' := crawl_rounds w self progress_cb log_cb n (snd (crawl_seed self s)) in
       NoDup (puts (trace s')) /\ (forall u, u ∈ puts (trace s') -> u ∈ seen s'))
    /\ (forall fuel s',
          crawl w self progress_cb log_cb fuel s = Some s' ->
          NoDup (puts (trace s')) /\ (forall u, u ∈ puts (trace s') -> u ∈ seen s'))
    /\ (puts (trace (snd (crawl_seed self s))) = [root self]
        /\ root self ∈ seen (snd (crawl_seed self s)))
    /\ (forall url href s0,
          let s1 := snd (queue_link w self url href s0) in
          puts (trace s1) = puts (trace s0) /\ seen s1 = seen s0
          \/ exists u, (u ∉ seen s0) /\ seen s1 = {[u]} ∪ seen s0
                       /\ puts (trace s1) = puts (trace s0) ++ [u]).
Proof.
  intros w self progress_cb log_cb s Ht.
  assert (Hseed : enqueue_inv (snd (crawl_seed self s))) by now apply enqueue_inv_seed.
  split; [|split; [|split]].
  - intros n. now apply enqueue_inv_rounds.
  - intros fuel s' H. unfold crawl in H. apply crawl_loop_rounds in H. subst s'.
    now apply enqueue_inv_rounds.
  - destruct (seed_fields self s) as (_ & Hs & _ & _ & Htr).
    rewrite Htr, Hs, Ht. split; [reflexivity|].
    apply elem_of_union_l. now apply elem_of_singleton.
  - intros url href s0.
    destruct (queue_link_cases w self url href s0)
      as (_ & _ & [(Hs & _ & Htr)|(u & d & Hu & Hs & _ & Htr)]).
    + left. cbv zeta. now rewrite Htr, Hs.
    + right. exists u. cbv zeta. rewrite Htr, Hs, puts_snoc. auto.
Qed.

Lemma C1_witness :
  let self := capped_config endless_site "https://x.test/" 5 in
  trace (new_state self) = []
  /\ NoDup (puts (trace (crawl_rounds endless_site self true true 4
                           (snd (crawl_seed self (new_state self)))))).
Proof.
  split; [reflexivity|].
  apply (C1_enqueued_at_most_once endless_site
           (capped_config endless_site "https://x.test/" 5) true true
           (new_state (capped_config endless_site "https://x.test/" 5))
           eq_refl).
Defined.

(** C2. With a page cap at least the number of records present at the
    start, the number of records is at most the cap after every round of
    the loop; the loop test lets a round start only with fewer records than
    the cap, and a round adds at most one record; and a run that ends, ends
    with at most the cap of records. With a cap of 5 on a site where every
    page links to new pages the run ends with exactly 5 records, not
    cancelled, the queue still non-empty. *)
Theorem C2_page_cap :
  (forall (w : World) (self : Config) (progress_cb log_cb : bool) (s : State),
     Py.len (rows s) <= max_pages self ->
     (forall n,
        Py.len (rows (crawl_rounds w self progress_cb log_cb n
                        (snd (crawl_seed self s)))) <= max_pages self)
     /\ (forall s0,
           fst (loop_test w self s0) = true -> Py.len (rows s0) < max_pages self)
     /\ (forall s0,
           let s1 := snd (crawl_body w self progress_cb log_cb s0) in
           rows s1 = rows s0 \/ exists r, rows s1 = rows s0 ++ [r])
     /\ (forall fuel s',
           crawl w self progress_cb log_cb fuel s = Some s' ->
           Py.len (rows s') <= max_pages self))
  /\ (let self := capped_config endless_site "https://x.test/" 5 in
      exists fuel s',
        crawl endless_site self true true fuel (new_state self) = Some s'
        /\ Py.len (rows s') = 5 /\ cancelled s' = false /\ q s' <> []).
Proof.
  split.
  - intros w self progress_cb log_cb s Hs.
    assert (Hseed : Py.len (rows (snd (crawl_seed self s))) <= max_pages self)
      by exact Hs.
    split; [|split; [|split]].
    + intros n. now apply rows_capped_rounds.
    + intros s0 Hgo. pose proof (loop_test_spec w self s0) as Ht.
      destruct (loop_test w self s0) as [go s1]. simpl in Hgo. subst go.
      destruct Ht as [(_ & Hrows & _) Hlt]. rewrite <- Hrows. now apply Hlt.
    + intros s0. apply crawl_body_one_row.
    + intros fuel s' H. unfold crawl in H.
      apply crawl_loop_rounds in H. subst s'. now apply rows_capped_rounds.
  - eexists 5%nat, _. split; [vm_compute; reflexivity|].
    split; [reflexivity|]. split; [reflexivity|discriminate].
Qed.

Lemma C2_witness :
  let self := capped_config endless_site "https://x.test/" 5 in
  Py.len (rows (new_state self)) <= max_pages self
  /\ Py.len (rows (crawl_rounds endless_site self true true 7
                     (snd (crawl_seed self (new_state self))))) <= max_pages self.
Proof.
  split; [vm_compute; discriminate|].
  apply (proj1 C2_page_cap endless_site
           (capped_config endless_site "https://x.test/" 5) true true
           (new_state (capped_config endless_site "https://x.test/" 5))).
  vm_compute. discriminate.
Defined.
(** C5. Once the run is seeded the depth stored for the root is 0, after
    every round of the loop; a depth that is stored for a URL is what the
    depth computation returns, and the computation then changes nothing; the
    computation never overwrites a stored depth; and a depth stored at some
    round is still stored, unchanged, at every later round. *)
Theorem C5_depth_memoized :
  forall (w : World) (self : Config) (progress_cb log_cb : bool) (s : State),
    (forall n,
       url_depths (crawl_rounds w self progress_cb log_cb n (snd (crawl_seed self s)))
         !! root self = Some 0)
    /\ (forall n,
          _get_url_depth self (root self)
            (crawl_rounds w self progress_cb log_cb n (snd (crawl_seed self s)))
          = (0, crawl_rounds w self progress_cb log_cb n (snd (crawl_seed self s))))
    /\ (forall url d s0,
          url_depths s0 !! url = Some d -> _get_url_depth self url s0 = (d, s0))
    /\ (forall url url' d s0,
          url_depths s0 !! url' = Some d ->
          url_depths (snd (_get_url_depth self url s0)) !! url' = Some d)
    /\ (forall n m url d,
          url_depths (crawl_rounds w self progress_cb log_cb n (snd (crawl_seed self s)))
            !! url = Some d ->
          url_depths (crawl_rounds w self progress_cb log_cb (n + m) (snd (crawl_seed self s)))
            !! url = Some d).
Proof.
  intros w self progress_cb log_cb s.
  assert (Hroot : forall n,
    url_depths (crawl_rounds w self progress_cb log_cb n (snd (crawl_seed self s)))
      !! root self = Some 0).
  { intros n.
    pose proof (depths_grow_rounds w self progress_cb log_cb n (snd (crawl_seed self s))) as H.
    unfold depths_grow in H. eapply lookup_weaken; [|exact H].
    destruct (seed_fields self s) as (_ & _ & -> & _). apply lookup_insert_eq. }
  split; [exact Hroot|]. split; [|split; [|split]].
  - intros n. apply get_url_depth_stored, Hroot.
  - intros url d s0. apply get_url_depth_stored.
  - intros url url' d s0 H.
    pose proof (get_url_depth_grows self url s0) as Hg.
    unfold depths_grow in Hg. eapply lookup_weaken; eauto.
  - intros n m url d H.
    pose proof (depths_grow_more w self progress_cb log_cb n m (snd (crawl_seed self s))) as Hg.
    unfold depths_grow in Hg. eapply lookup_weaken; eauto.
Qed.

Lemma C5_witness :
  let self := capped_config endless_site "https://x.test/" 5 in
  let s := crawl_rounds endless_site self true true 2
             (snd (crawl_seed self (new_state self))) in
  url_depths s !! "https://x.test/a/" = Some 1
  /\ _get_url_depth self "https://x.test/a/" s = (1, s).
Proof.
  split; [vm_compute; reflexivity|].
  apply (C5_depth_memoized endless_site
           (capped_config endless_site "https://x.test/" 5) true true
           (new_state (capped_config endless_site "https://x.test/" 5))).
  vm_compute. reflexivity.
Defined.

Lemma rstrip_no_trailing c s :
  Py.endswith (String c "") (Py.rstrip c s) = false.
Proof.
  unfold Py.rstrip. induction s as [|a s IH]; [reflexivity|]. simpl.
  destruct (Py.is_empty _ && Ascii.eqb c a) eqn:E; [reflexivity|].
  simpl. rewrite IH, orb_false_r.
  destruct (Ascii.eqb c a) eqn:Eca; [|reflexivity].
  rewrite andb_true_r in E. destruct (Py.rstrip_by _ s); [discriminate|].
  simpl. destruct s0; reflexivity.
Qed.

(** C10. The constructor stores the root with every trailing [/] removed.
    The stored root is what the run is seeded with (the queue entry, the
    visited set, the depth index), what the depth computation compares
    with, and the URL of the first record whenever the run, started without
    records, produces one. A crawl started from [https://x.test/] records
    the root as [https://x.test]; from the root [https://x.test/docs/] the
    URL [https://x.test/docs/a/b] has depth 2. *)
Theorem C10_root_stripped :
  (forall w time0 root_url max_pages delay user_agent randomize_ua respect_robots
          max_depth allowed_domains link_filters max_retries retry_backoff proxies
          randomize_delay delay_min delay_max include_keywords exclude_keywords,
     let self := init_config w time0 root_url max_pages delay user_agent
                   randomize_ua respect_robots max_depth allowed_domains
                   link_filters max_retries retry_backoff proxies randomize_delay
                   delay_min delay_max include_keywords exclude_keywords in
     root self = Py.rstrip "/" root_url
     /\ Py.endswith "/" (root self) = false)
  /\ (forall (w : World) (self : Config) (progress_cb log_cb : bool) (s : State),
        q (snd (crawl_seed self s)) = [(root self, 0)]
        /\ seen (snd (crawl_seed self s)) = {[root self]} ∪ seen s
        /\ url_depths (snd (crawl_seed self s)) = <[root self := 0]> (url_depths s)
        /\ (url_depths s !! root self = None ->
            fst (_get_url_depth self (root self) s) = 0)
        /\ (rows s = [] ->
            forall n,
              match rows (crawl_rounds w self progress_cb log_cb n
                            (snd (crawl_seed self s))) with
              | [] => True
              | r :: _ => Row.url r = root self
              end))
  /\ (let self := capped_config one_page_site "https://x.test/" MAX_PAGES in
      exists fuel s',
        crawl one_page_site self true true fuel (new_state self) = Some s'
        /\ rows s' = [Row.mk "Home" "" "https://x.test"]
        /\ puts (trace s') = ["https://x.test"]
        /\ url_depths s' !! "https://x.test" = Some 0
        /\ fst (_get_url_depth (capped_config one_page_site "https://x.test/docs/" MAX_PAGES)
                  "https://x.test/docs/a/b" s') = 2).
Proof.
  split; [|split].
  - intros. subst self. simpl. split; [reflexivity|apply rstrip_no_trailing].
  - intros w self progress_cb log_cb s.
    destruct (seed_fields self s) as (Hq & Hs & Hd & Hr & _).
    split; [exact Hq|]. split; [exact Hs|]. split; [exact Hd|]. split.
    + intros Hnone. unfold _get_url_depth, bind, gets. rewrite Hnone.
      now rewrite String.eqb_refl.
    + intros Hrows n.
      pose proof (root_first_rounds w self progress_cb log_cb n (snd (crawl_seed self s))) as H.
      unfold root_first in H at 2.
      destruct (rows (crawl_rounds _ _ _ _ _ _)); [exact I|]. apply H.
      unfold root_first. rewrite Hr, Hrows. now right.
  - eexists 3%nat, _. split; [vm_compute; reflexivity|].
    split; [reflexivity|]. split; [reflexivity|].
    split; vm_compute; reflexivity.
Qed.

Lemma C10_witness :
  let self := capped_config one_page_site "https://x.test/" MAX_PAGES in
  rows (new_state self) = []
  /\ match rows (crawl_rounds one_page_site self true true 2
                   (snd (crawl_seed self (new_state self)))) with
     | [] => True
     | r :: _ => Row.url r = "https://x.test"
     end.
Proof.
  split; [reflexivity|].
  apply (proj1 (proj2 C10_root_stripped) one_page_site
           (capped_config one_page_site "https://x.test/" MAX_PAGES) true true
           (new_state (capped_config one_page_site "https://x.test/" MAX_PAGES))).
  reflexivity.
Defined.
(* ===================================================================== *)
(** * The record of a fetched page *)
(* ===================================================================== *)

Section Category.

Lemma hd_split c s : hd "" (Py.split c s) = Py.before c s.
Proof.
  induction s as [|a s IH]; simpl; [reflexivity|].
  destruct (Ascii.eqb a c); [reflexivity|].
  destruct (Py.split c s); simpl in *; now rewrite <- IH.
Qed.

Lemma split_cons_nonsep c a s :
  Ascii.eqb a c = false ->
  exists t, Py.split c (String a s) = String a (Py.before c s) :: t.
Proof.
  intros H. simpl. rewrite H. pose proof (hd_split c s) as Hh.
  destruct (Py.split c s) as [|h t]; simpl in Hh; rewrite <- Hh; eauto.
Qed.

Lemma filter_split_lstrip c s :
  List.filter nonempty (Py.split c (Py.lstrip_by (Ascii.eqb c) s))
  = List.filter nonempty (Py.split c s).
Proof.
  induction s as [|a s IH]; [reflexivity|].
  simpl Py.lstrip_by. rewrite (Ascii.eqb_sym c a).
  destruct (Ascii.eqb a c) eqn:E; [|reflexivity].
  rewrite IH. simpl. now rewrite E.
Qed.

Lemma lstrip_head p s a t : Py.lstrip_by p s = String a t -> p a = false.
Proof.
  induction s as [|b s IH]; simpl; [discriminate|].
  destruct (p b) eqn:E; [exact IH|]. intros [= <- _]. exact E.
Qed.

Lemma before_rstrip c s :
  Py.before c (Py.rstrip_by (Ascii.eqb c) s) = Py.before c s.
Proof.
  induction s as [|a s IH]; [reflexivity|]. simpl.
  rewrite (Ascii.eqb_sym c a).
  destruct (Ascii.eqb a c) eqn:E.
  - destruct (Py.is_empty _); simpl; [reflexivity|now rewrite E].
  - rewrite andb_false_r. simpl. now rewrite E, IH.
Qed.

Lemma strip_first_segment c path :
  (let p := Py.strip_char c path in
   if Py.is_empty p then "" else hd "" (Py.split c p))
  = hd "" (List.filter nonempty (Py.split c path)).
Proof.
  cbv zeta. unfold Py.strip_char, Py.strip_by.
  rewrite <- filter_split_lstrip.
  destruct (Py.lstrip_by (Ascii.eqb c) path) as [|a t] eqn:E; [reflexivity|].
  apply lstrip_head in E. rewrite Ascii.eqb_sym in E.
  destruct (split_cons_nonsep c a t E) as [tl ->].
  rewrite hd_split, before_rstrip. simpl. rewrite E.
  rewrite (Ascii.eqb_sym c a), E, andb_false_r.
  reflexivity.
Qed.

(** The category heuristic picks the first non-empty segment. *)
Lemma category_first_segment url :
  page_category url = first_segment (Urllib.path (Urllib.urlparse url)).
Proof. apply strip_first_segment. Qed.

End Category.

(** Against C9 as worded: the title of [blank_title_soup] is empty once
    trimmed, yet the record's title is the empty string, not the URL. *)
Lemma C9_counterexample :
  soup_title blank_title_soup = Some (Some "   ")
  /\ Py.strip "   " = ""
  /\ page_title blank_title_soup "https://x.test/p" = ""
  /\ page_title blank_title_soup "https://x.test/p" <> "https://x.test/p".
Proof. repeat split; try reflexivity. discriminate. Qed.

(** C9. A fetched page adds exactly one record, whose URL is the page's.
    Its title is the text of the title element, trimmed, when the document
    has a title element with a non-empty text (a text of blanks only gives
    the empty title); it is the URL when the title element or its text is
    absent or the text is empty. Its category is the first non-empty segment
    of the URL's path, the empty string when there is none. *)
Theorem C9_record_of_page :
  forall (w : World) (self : Config) (progress_cb : bool) (url html : string) (s : State),
    let soup := BeautifulSoup w html in
    let r := row_of_page w url html in
    rows (snd (process_page w self progress_cb url html s)) = rows s ++ [r]
    /\ Row.url r = url
    /\ (forall text, soup_title soup = Some (Some text) -> text <> "" ->
                     Row.title r = Py.strip text)
    /\ (soup_title soup = None \/ soup_title soup = Some None
        \/ soup_title soup = Some (Some "") -> Row.title r = url)
    /\ Row.category r = first_segment (Urllib.path (Urllib.urlparse url)).
Proof.
  intros w self progress_cb url html s soup r.
  split; [apply process_page_rows|]. split; [reflexivity|].
  subst r. unfold row_of_page. simpl. fold soup. unfold page_title.
  split; [|split].
  - intros text -> Hne. destruct text; [now destruct Hne|reflexivity].
  - intros [->|[->| ->]]; reflexivity.
  - apply category_first_segment.
Qed.

Lemma C9_witness :
  let w := one_page_site in
  let self := capped_config w "https://x.test/" MAX_PAGES in
  soup_title (BeautifulSoup w "<title>Home</title>") = Some (Some "Home")
  /\ "Home" <> ""
  /\ Row.title (row_of_page w "https://x.test/docs/intro" "<title>Home</title>")
     = Py.strip "Home".
Proof.
  split; [reflexivity|]. split; [discriminate|].
  apply (C9_record_of_page one_page_site
           (capped_config one_page_site "https://x.test/" MAX_PAGES) true
           "https://x.test/docs/intro" "<title>Home</title>"
           (new_state (capped_config one_page_site "https://x.test/" MAX_PAGES))).
  - reflexivity.
  - discriminate.
Defined.
(* ===================================================================== *)
(** * The order of the gates *)
(* ===================================================================== *)

(** Against C3 as worded: in the specification's order the entry fails the
    domain gate first, so the visit would log the domain reason without
    consulting robots.txt; the code reads robots.txt and logs that reason. *)
Lemma C3_counterexample :
  let s := new_state elsewhere_config in
  let url := "https://x.test" in
  List.find (gate_fails forbidding_site elsewhere_config url 0 s) spec_order
  = Some GateDomain
  /\ robots_consulted spec_order GateDomain = false
  /\ trace (snd (log true (gate_reason elsewhere_config url 0 GateDomain) s))
     = [EvLog (LogDomain url)]
  /\ trace (snd (visit forbidding_site elsewhere_config true true url 0 s))
     = [EvRobotsRead "https://x.test/robots.txt"; EvLog (LogRobots url)]
  /\ ~ gates_applied_in spec_order.
Proof.
  repeat split; try reflexivity.
  intros H.
  destruct (H forbidding_site elsewhere_config true true "https://x.test" 0
              (new_state elsewhere_config) GateDomain eq_refl) as [H1 _].
  apply (f_equal trace) in H1. vm_compute in H1. discriminate.
Qed.

Lemma requests_snoc tr e :
  requests (tr ++ [e]) = requests tr ++ match get_url e with Some u => [u] | None => [] end.
Proof. unfold requests. rewrite omap_app. simpl. now destruct (get_url e). Qed.

Lemma requests_log log_cb msg s :
  requests (trace (snd (log log_cb msg s))) = requests (trace s).
Proof.
  unfold log. destruct log_cb; simpl; [|reflexivity].
  now rewrite requests_snoc, app_nil_r.
Qed.

Lemma requests_can_fetch w self url s :
  requests (trace (snd (_can_fetch w self url s))) = requests (trace s).
Proof.
  unfold _can_fetch, _get_robots_parser.
  destruct (negb (respect_robots self)); [reflexivity|].
  rewrite !bind_run. unfold gets. cbn [fst snd].
  destruct (robots_parsers s !! _); [reflexivity|].
  unfold bind, tick, emit, modify, ret. simpl.
  destruct (robots_read w (clock s) _); simpl; now rewrite requests_snoc, app_nil_r.
Qed.

(** C3. The gates are tried in the order depth, robots.txt, domain
    allow-list, path/extension filter, keyword filter: when one of them
    fails, the visit consists of the robots.txt check (unless the depth gate
    failed) followed by the log of the first failing gate's reason, and no
    request is made. *)
Theorem C3_gate_order : gates_applied_in code_order.
Proof.
  intros w self progress_cb log_cb url depth s g Hfind s'. subst s'.
  unfold code_order in Hfind. simpl in Hfind. unfold visit.
  destruct ((max_depth self >=? 0) && (depth >? max_depth self)) eqn:Edepth.
  { injection Hfind as <-. simpl. split; [reflexivity|apply requests_log]. }
  rewrite bind_run.
  pose proof (requests_can_fetch w self url s) as Hreq.
  destruct (_can_fetch w self url s) as [allowed s1]. cbn [fst snd] in *.
  assert (Hlog : forall msg,
    requests (trace (snd (log log_cb msg s1))) = requests (trace s))
    by (intros msg; now rewrite requests_log).
  destruct (negb allowed); [injection Hfind as <-; simpl; auto|].
  destruct (negb (_check_domain_allowed self url));
    [injection Hfind as <-; simpl; auto|].
  destruct (negb (_check_link_filter self url));
    [injection Hfind as <-; simpl; auto|].
  destruct (negb (_check_keyword_filters self url));
    [injection Hfind as <-; simpl; auto|].
  discriminate.
Qed.

Lemma C3_witness :
  let s := new_state elsewhere_config in
  List.find (gate_fails forbidding_site elsewhere_config "https://x.test" 0 s) code_order
  = Some GateRobots
  /\ trace (snd (visit forbidding_site elsewhere_config true true "https://x.test" 0 s))
     = [EvRobotsRead "https://x.test/robots.txt"; EvLog (LogRobots "https://x.test")].
Proof.
  split; [reflexivity|].
  destruct (C3_gate_order forbidding_site elsewhere_config true true
              "https://x.test" 0 (new_state elsewhere_config) GateRobots eq_refl)
    as [H _].
  rewrite H. reflexivity.
Defined.
(* ===================================================================== *)
(** * Fetching with retries *)
(* ===================================================================== *)

Section Retry.

Variable w : World.
Variable self : Config.






Lemma fetch_attempts_cons url log_cb attempt rest :
  fetch_attempts w self url log_cb (attempt :: rest)
  = ((if randomize_ua self && (attempt >? 0) then
        t <- tick ;;
        modify (fun s => set_session
          (Session.mk (<["User-Agent" := random_user_agent w t]>
                         (Session.headers (session s)))
                      (Session.cookies (session s)) (Session.proxies (session s))) s)
      else ret tt) ;;
     (if attempt >? 0 then log log_cb (LogRetry attempt (max_retries self) url)
      else ret tt) ;;
     t <- tick ;;
     emit (EvGet url) ;;
     match session_get w t url with
     | Some r => ret (Some r)
     | None =>
         if attempt <? max_retries self then
           let wait_time := (retry_backoff self * pow2 attempt)%Q in
           log log_cb (LogRetrying wait_time) ;;
           sleep wait_time ;;
           fetch_attempts w self url log_cb rest
         else
           log log_cb (LogFailed (max_retries self)) ;;
           ret None
     end).
Proof. reflexivity. Qed.


End Retry.

Section RetryFacts.


Lemma requests_cons e tr :
  requests (e :: tr)
  = match get_url e with Some u => u :: requests tr | None => requests tr end.
Proof. reflexivity. Qed.








End RetryFacts.




(* ===================================================================== *)
(** * Further properties *)
(* ===================================================================== *)

(** ** What is queued and what is recorded *)

#[export] Instance extends_preorder self : PreOrder (extends self).
Proof.
  split.
  - intros s. split; [reflexivity|]. exists []. rewrite !app_nil_r. auto.
  - intros a b c (Hr1 & n1 & Hq1 & Hp1 & Hf1) (Hr2 & n2 & Hq2 & Hp2 & Hf2).
    split; [congruence|]. exists (n1 ++ n2).
    rewrite Hq2, Hq1, Hp2, Hp1, map_app, <- !app_assoc.
    split; [reflexivity|]. split; [reflexivity|]. now apply Forall_app.
Qed.

#[export] Instance extends_frame self : FrameCompatible (extends self).
Proof.
  intros s s' (_ & Hr & _ & Hq & Hp). split; [exact Hr|].
  exists []. rewrite Hq, Hp, !app_nil_r. auto.
Qed.

Section Scope.

Variable w : World.
Variable self : Config.
Variable progress_cb log_cb : bool.

Lemma normalize_link_http base_url href u :
  normalize_link w base_url href = Some u ->
  Urllib.scheme (Urllib.urlparse u) ∈ ALLOWED_SCHEMES /\ Py.mem "#" u = false.
Proof.
  intros H. apply normalize_link_inv in H as [Hs ->]. split.
  - apply str_in_spec. rewrite urlparse_scheme_before_hash; [exact Hs|].
    intros E. rewrite E in Hs. discriminate.
  - apply before_hash_free.
Qed.

Lemma queue_link_extends url href :
  preserves (extends self) (queue_link w self url href).
Proof.
  intros s. set (s' := snd (queue_link w self url href s)).
  assert (Hs' : s' = snd (queue_link w self url href s)) by reflexivity.
  clearbody s'. unfold queue_link in Hs'.
  destruct (normalize_link w url href) as [abs_url|] eqn:Hnorm; [|subst s'; reflexivity].
  destruct (Py.is_empty abs_url); [subst s'; reflexivity|].
  destruct (negb (same_origin _ _)) eqn:Horigin; [subst s'; reflexivity|].
  rewrite bind_run in Hs'. unfold gets in Hs'. cbn [fst snd] in Hs'.
  case_bool_decide as Hseen; [subst s'; reflexivity|].
  rewrite bind_run in Hs'.
  pose proof (get_url_depth_rest self abs_url s) as (H1 & H2 & H3 & H4).
  destruct (_get_url_depth self abs_url s) as [d s1]. cbn [fst snd] in *.
  assert (Hsame : extends self s s1).
  { split; [exact H2|]. exists []. rewrite H3, H4, !app_nil_r. auto. }
  destruct ((max_depth self >=? 0) && (d >? max_depth self)) eqn:Hdepth;
    [subst s'; exact Hsame|].
  destruct (negb (_check_keyword_filters self abs_url)) eqn:Hkw;
    [subst s'; exact Hsame|].
  subst s'. split; [simpl; exact H2|]. exists [(abs_url, d)].
  simpl. rewrite H3, H4, puts_snoc. simpl.
  split; [reflexivity|]. split; [reflexivity|].
  constructor; [|constructor]. split; [|exact Hdepth].
  destruct (normalize_link_http _ _ _ Hnorm) as [Hhttp Hfrag].
  apply negb_false_iff in Horigin, Hkw. repeat split; auto.
Qed.

(** A fetched page adds its record and extends the queue. *)
Lemma process_page_extends url html s :
  let s' := snd (process_page w self progress_cb url html s) in
  rows s' = rows s ++ [row_of_page w url html]
  /\ exists new,
       q s' = q s ++ new
       /\ puts (trace s') = puts (trace s) ++ map fst new
       /\ Forall (entry_ok self) new.
Proof.
  cbv zeta. unfold process_page. rewrite bind_run. unfold modify at 1. cbn [fst snd].
  match goal with |- context [snd (?m ?s1)] =>
    assert (H : preserves (extends self) m); [|exact (H s1)] end.
  pose proof (preserves_queue_links w self (extends self) queue_link_extends).
  frames.
Qed.

(** A visit that fetches its page has passed every gate. *)
Lemma visit_gated url depth s :
  let s' := snd (visit w self progress_cb log_cb url depth s) in
  frame s s'
  \/ exists html s1,
       frame s s1
       /\ s' = snd (process_page w self progress_cb url html s1)
       /\ depth_within self depth
       /\ fst (_can_fetch w self url s) = true
       /\ passes_filters self url.
Proof.
  intros s'.
  assert (Hs' : s' = snd (visit w self progress_cb log_cb url depth s)) by reflexivity.
  clearbody s'. unfold visit in Hs'.
  assert (Hlog : forall msg s0, frame s s0 -> frame s (snd (log log_cb msg s0))).
  { intros msg s0 H. etransitivity; [exact H|apply frame_log]. }
  destruct ((max_depth self >=? 0) && (depth >? max_depth self)) eqn:Hdepth;
    [left; subst s'; now apply Hlog|].
  rewrite bind_run in Hs'.
  pose proof (frame_can_fetch w self url s) as H1.
  destruct (_can_fetch w self url s) as [allowed s1]. cbn [fst snd] in *.
  destruct allowed; [|left; subst s'; now apply Hlog]. cbn [negb] in Hs'.
  destruct (_check_domain_allowed self url) eqn:Hdom;
    [|left; subst s'; now apply Hlog]. cbn [negb] in Hs'.
  destruct (_check_link_filter self url) eqn:Hlink;
    [|left; subst s'; now apply Hlog]. cbn [negb] in Hs'.
  destruct (_check_keyword_filters self url) eqn:Hkw;
    [|left; subst s'; now apply Hlog]. cbn [negb] in Hs'.
  match type of Hs' with _ = snd (bind ?m ?k s1) =>
    assert (H2 : preserves frame m) by frames;
    rewrite (bind_run m k s1) in Hs'; specialize (H2 s1);
    destruct (m s1) as [[] s2] end.
  cbn [fst snd] in *.
  match type of Hs' with _ = snd (bind ?m ?k s2) =>
    assert (H3 : preserves frame m) by frames;
    rewrite (bind_run m k s2) in Hs'; specialize (H3 s2);
    destruct (m s2) as [[] s3] end.
  cbn [fst snd] in *.
  rewrite bind_run in Hs'.
  pose proof (frame_fetch_with_retry w self url log_cb s3) as H4.
  destruct (_fetch_with_retry w self url log_cb s3) as [r s4]. cbn [fst snd] in *.
  assert (H5 : frame s s4) by (repeat (etransitivity; [eassumption|]); reflexivity).
  destruct r as [html|]; [|left; now subst s'].
  right. exists html, s4. unfold passes_filters. auto 10.
Qed.

(** One round of the loop on the entry [(url, depth)]: the entry leaves the
    queue; either nothing else changes, or the page has passed the gates,
    its record is added and the queue grows by checked entries. *)
Lemma crawl_body_step url depth rest s :
  q s = (url, depth) :: rest ->
  let s' := snd (crawl_body w self progress_cb log_cb s) in
  (rows s' = rows s /\ q s' = rest /\ puts (trace s') = puts (trace s)
   /\ seen s' = seen s /\ url_depths s' = url_depths s)
  \/ (exists html new,
        rows s' = rows s ++ [row_of_page w url html]
        /\ q s' = rest ++ new
        /\ puts (trace s') = puts (trace s) ++ map fst new
        /\ Forall (entry_ok self) new
        /\ depth_within self depth
        /\ passes_filters self url).
Proof.
  intros Hq s'. subst s'. unfold crawl_body.
  rewrite bind_run. unfold gets. cbn [fst snd]. rewrite Hq.
  rewrite bind_run. unfold modify. cbn [fst snd].
  destruct (visit_gated url depth (set_q rest s))
    as [H|(html & s1 & H & -> & Hd & _ & Hf)].
  - left. destruct H as (H1 & H2 & H3 & H4 & H5).
    rewrite H1, H2, H3, H4, H5. simpl. auto.
  - right. destruct H as (_ & Hr & _ & Hq1 & Hp).
    destruct (process_page_extends url html s1) as (Hrows & new & Hq' & Hp' & Hnew).
    exists html, new. rewrite Hrows, Hq', Hp', Hr, Hq1, Hp. simpl. auto 10.
Qed.

Lemma crawl_inv_seed s :
  trace s = [] -> rows s = [] -> crawl_inv self (snd (crawl_seed self s)).
Proof.
  intros Ht Hr. destruct (seed_fields self s) as (Hq & _ & _ & Hrows & Htr).
  unfold crawl_inv. rewrite Hq, Hrows, Htr, Hr, Ht. simpl.
  split; [reflexivity|]. split; [|split].
  - constructor; [|constructor]. unfold depth_within. simpl.
    destruct (max_depth self >=? 0) eqn:E; [|reflexivity].
    apply Z.geb_le in E. simpl. rewrite Z.gtb_ltb. apply Z.ltb_ge. lia.
  - constructor.
  - constructor; [now left|constructor].
Qed.

Lemma crawl_inv_body s :
  crawl_inv self s -> crawl_inv self (snd (crawl_body w self progress_cb log_cb s)).
Proof.
  intros (Hsub & Hq & Hrows & Hputs).
  destruct (q s) as [|[url depth] rest] eqn:Eq.
  { unfold crawl_body. rewrite bind_run. unfold gets. cbn [fst snd]. rewrite Eq.
    unfold crawl_inv. simpl. rewrite Eq. auto. }
  destruct (crawl_body_step url depth rest s Eq)
    as [(Hr & Hq' & Hp & _)|(html & new & Hr & Hq' & Hp & Hnew & Hd & Hf)];
    unfold crawl_inv; rewrite Hr, Hq', Hp.
  - apply Forall_cons in Hq as [_ Hq]. split; [|auto].
    etransitivity; [|exact Hsub]. apply sublist_app; [reflexivity|].
    simpl. now constructor.
  - apply Forall_cons in Hq as [_ Hq]. rewrite !map_app. simpl.
    split; [|split; [|split]].
    + replace ((map Row.url (rows s) ++ [url]) ++ map fst rest ++ map fst new)
        with ((map Row.url (rows s) ++ url :: map fst rest) ++ map fst new)
        by (rewrite <- !app_assoc; reflexivity).
      apply sublist_app; [exact Hsub|reflexivity].
    + apply Forall_app. split; [exact Hq|].
      eapply Forall_impl; [exact Hnew|]. intros e [_ He]. exact He.
    + apply Forall_app. split; [exact Hrows|]. constructor; [exact Hf|constructor].
    + apply Forall_app. split; [exact Hputs|]. apply Forall_map.
      eapply Forall_impl; [exact Hnew|]. intros e [He _]. now right.
Qed.

Lemma crawl_inv_rounds n s :
  crawl_inv self s -> crawl_inv self (crawl_rounds w self progress_cb log_cb n s).
Proof.
  revert s. induction n as [|n IH]; intros s Hs; simpl; [exact Hs|].
  pose proof (loop_test_spec w self s) as Ht.
  destruct (loop_test w self s) as [go s1].
  destruct Ht as [(_ & Hr & _ & Hq & Hp) _].
  assert (Hs1 : crawl_inv self s1) by (unfold crawl_inv; now rewrite Hr, Hq, Hp).
  destruct go; [|exact Hs1]. now apply IH, crawl_inv_body.
Qed.

End Scope.

Section ScopeRun.

Variable w : World.
Variable self : Config.
Variable progress_cb log_cb : bool.

Lemma depth_within_rounds n s :
  Forall (fun e => depth_within self (snd e)) (q s) ->
  Forall (fun e => depth_within self (snd e))
         (q (crawl_rounds w self progress_cb log_cb n s)).
Proof.
  revert s. induction n as [|n IH]; intros s Hs; simpl; [exact Hs|].
  pose proof (loop_test_spec w self s) as Ht.
  destruct (loop_test w self s) as [go s1].
  destruct Ht as [(_ & _ & _ & Hq & _) _]. rewrite <- Hq in Hs.
  destruct go; [|exact Hs]. apply IH.
  destruct (q s1) as [|[url depth] rest] eqn:Eq.
  { unfold crawl_body. rewrite bind_run. unfold gets. cbn [fst snd]. rewrite Eq.
    simpl. now rewrite Eq. }
  apply Forall_cons in Hs as [_ Hs].
  destruct (crawl_body_step w self progress_cb log_cb url depth rest s1 Eq)
    as [(_ & Hq' & _)|(html & new & _ & Hq' & _ & Hnew & _)]; rewrite Hq'; [exact Hs|].
  apply Forall_app. split; [exact Hs|].
  eapply Forall_impl; [exact Hnew|]. intros e [_ He]. exact He.
Qed.

End ScopeRun.

(** X1. In a run observed from its start and started without records, at
    every round the URLs of the records followed by the URLs waiting in the
    queue are a subsequence of the URLs put so far: pages are recorded in
    the order they were discovered. No URL is recorded twice, none is in the
    queue twice, and no recorded URL is still in the queue. *)
Theorem X1_records_in_discovery_order :
  forall (w : World) (self : Config) (progress_cb log_cb : bool) (s : State),
    trace s = [] -> rows s = [] ->
    forall n,
      let s' := crawl_rounds w self progress_cb log_cb n (snd (crawl_seed self s)) in
      map Row.url (rows s') ++ map fst (q s') `sublist_of` puts (trace s')
      /\ NoDup (map Row.url (rows s') ++ map fst (q s'))
      /\ (forall u, u ∈ map Row.url (rows s') -> u ∈ seen s' /\ u ∉ map fst (q s')).
Proof.
  intros w self progress_cb log_cb s Ht Hr n s'.
  destruct (crawl_inv_rounds w self progress_cb log_cb n _ (crawl_inv_seed self s Ht Hr))
    as (Hsub & _).
  destruct (enqueue_inv_rounds w self progress_cb log_cb n _ (enqueue_inv_seed self s Ht))
    as (Hnd & Hseen).
  fold s' in Hsub, Hnd, Hseen.
  assert (Hnd' : NoDup (map Row.url (rows s') ++ map fst (q s')))
    by (eapply sublist_NoDup; eauto).
  split; [exact Hsub|]. split; [exact Hnd'|].
  intros u Hu. split.
  - apply Hseen. eapply elem_of_sublist; [|exact Hsub]. apply elem_of_app. now left.
  - apply NoDup_app in Hnd' as (_ & Hdisj & _). now apply Hdisj.
Qed.

Lemma X1_witness :
  let self := capped_config endless_site "https://x.test/" 5 in
  let s' := crawl_rounds endless_site self true true 3
              (snd (crawl_seed self (new_state self))) in
  trace (new_state self) = [] /\ rows (new_state self) = []
  /\ NoDup (map Row.url (rows s') ++ map fst (q s')).
Proof.
  split; [reflexivity|]. split; [reflexivity|].
  apply (X1_records_in_discovery_order endless_site
           (capped_config endless_site "https://x.test/" 5) true true
           (new_state (capped_config endless_site "https://x.test/" 5))
           eq_refl eq_refl 3).
Defined.

(** X2. In such a run every URL put into the queue, the root apart, is of
    the root's origin, has scheme http or https and no fragment, and passes
    the keyword filters; so has every record's URL, and every record's URL
    has passed the domain allow-list, the path/extension filter and the
    keyword filters. *)
Theorem X2_records_in_scope :
  forall (w : World) (self : Config) (progress_cb log_cb : bool) (s : State),
    trace s = [] -> rows s = [] ->
    forall n,
      let s' := crawl_rounds w self progress_cb log_cb n (snd (crawl_seed self s)) in
      (forall u, u ∈ puts (trace s') -> u = root self \/ link_in_scope self u)
      /\ (forall r, r ∈ rows s' ->
            passes_filters self (Row.url r)
            /\ (Row.url r = root self \/ link_in_scope self (Row.url r))).
Proof.
  intros w self progress_cb log_cb s Ht Hr n s'.
  destruct (crawl_inv_rounds w self progress_cb log_cb n _ (crawl_inv_seed self s Ht Hr))
    as (Hsub & _ & Hrows & Hputs).
  fold s' in Hsub, Hrows, Hputs.
  rewrite Forall_forall in Hputs. rewrite Forall_forall in Hrows.
  split; [exact Hputs|]. intros r Hin. split; [now apply Hrows|].
  apply Hputs. eapply elem_of_sublist; [|exact Hsub].
  apply elem_of_app. left. now apply (list_elem_of_fmap_2 Row.url).
Qed.

Lemma X2_witness :
  let self := capped_config endless_site "https://x.test/" 5 in
  let s' := crawl_rounds endless_site self true true 3
              (snd (crawl_seed self (new_state self))) in
  trace (new_state self) = [] /\ rows (new_state self) = []
  /\ (forall u, u ∈ puts (trace s') -> u = root self \/ link_in_scope self u).
Proof.
  split; [reflexivity|]. split; [reflexivity|].
  apply (X2_records_in_scope endless_site
           (capped_config endless_site "https://x.test/" 5) true true
           (new_state (capped_config endless_site "https://x.test/" 5))
           eq_refl eq_refl 3).
Defined.

(** X3. Whatever the state the run starts from, every entry in the queue,
    at every round, passes the depth check: links beyond the depth limit
    are never put, so the depth check on a dequeued entry never skips it. *)
Theorem X3_depth_check_never_skips :
  forall (w : World) (self : Config) (progress_cb log_cb : bool) (s : State) (n : nat)
         (url : string) (depth : Z),
    (url, depth) ∈ q (crawl_rounds w self progress_cb log_cb n (snd (crawl_seed self s))) ->
    (max_depth self >=? 0) && (depth >? max_depth self) = false.
Proof.
  intros w self progress_cb log_cb s n url depth Hin.
  assert (H : Forall (fun e => depth_within self (snd e))
                (q (crawl_rounds w self progress_cb log_cb n (snd (crawl_seed self s))))).
  { apply depth_within_rounds. destruct (seed_fields self s) as (-> & _).
    constructor; [|constructor]. unfold depth_within. simpl.
    destruct (max_depth self >=? 0) eqn:E; [|reflexivity].
    apply Z.geb_le in E. simpl. rewrite Z.gtb_ltb. apply Z.ltb_ge. lia. }
  rewrite Forall_forall in H. exact (H _ Hin).
Qed.

Lemma X3_witness :
  let self := capped_config endless_site "https://x.test/" 5 in
  ("https://x.test/b/", 1)
    ∈ q (crawl_rounds endless_site self true true 2 (snd (crawl_seed self (new_state self))))
  /\ (max_depth self >=? 0) && (1 >? max_depth self) = false.
Proof.
  assert (H : ("https://x.test/b/", 1)
    ∈ q (crawl_rounds endless_site (capped_config endless_site "https://x.test/" 5)
           true true 2
           (snd (crawl_seed (capped_config endless_site "https://x.test/" 5)
                   (new_state (capped_config endless_site "https://x.test/" 5)))))).
  { vm_compute. apply list_elem_of_here. }
  split; [exact H|].
  exact (X3_depth_check_never_skips endless_site
           (capped_config endless_site "https://x.test/" 5) true true
           (new_state (capped_config endless_site "https://x.test/" 5)) 2
           "https://x.test/b/" 1 H).
Defined.

(** ** What is requested *)

#[export] Instance grows_preorder P : PreOrder (grows P).
Proof.
  split.
  - intros s. exists []. rewrite app_nil_r. auto.
  - intros a b c (t1 & H1 & F1) (t2 & H2 & F2). exists (t1 ++ t2).
    rewrite H2, H1, <- app_assoc. split; [reflexivity|now apply Forall_app].
Qed.

#[export] Instance cache_from_preorder w : PreOrder (cache_from w).
Proof.
  split.
  - intros s k rp H. now left.
  - intros a b c H1 H2 k rp H. destruct (H2 k rp H) as [H'|H']; [auto|now right].
Qed.

Lemma grows_weaken (P Q : Event -> Prop) s s' :
  (forall e, P e -> Q e) -> grows P s s' -> grows Q s s'.
Proof.
  intros HPQ (tr & Ht & HF). exists tr. split; [exact Ht|].
  eapply Forall_impl; eauto.
Qed.

Lemma requests_app t1 t2 : requests (t1 ++ t2) = requests t1 ++ requests t2.
Proof. unfold requests. apply omap_app. Qed.

Lemma requests_quiet tr : Forall not_request tr -> requests tr = [].
Proof.
  induction 1 as [|e tr He _ IH]; [reflexivity|].
  rewrite requests_cons, He. exact IH.
Qed.

Lemma requests_of tr url u :
  Forall (request_of url) tr -> u ∈ requests tr -> u = url.
Proof.
  induction 1 as [|e tr He _ IH]; [intros H; inversion H|].
  rewrite requests_cons. destruct He as [He| ->].
  - rewrite He. exact IH.
  - simpl. intros H. apply elem_of_cons in H as [H|H]; [exact H|auto].
Qed.

Lemma grows_quiet s s' :
  grows not_request s s' -> requests (trace s') = requests (trace s).
Proof.
  intros (tr & -> & HF). now rewrite requests_app, (requests_quiet tr HF), app_nil_r.
Qed.

(** Walk through a computation with the rules of [preserves]; the calls
    that are left are closed from the context or by [leaf]. *)
Ltac walk leaf :=
  repeat (first [preserves_step | progress unfold log, sleep, cancel, q_put]);
  try solve [eauto | leaf].

Section TraceShape.

Variable w : World.
Variable self : Config.
Variable progress_cb log_cb : bool.

Lemma grows_kept P (f : State -> State) :
  (forall s, trace (f s) = trace s) -> preserves (grows P) (modify f).
Proof. intros H s. exists []. simpl. rewrite H, app_nil_r. auto. Qed.

Lemma grows_tick P : preserves (grows P) tick.
Proof. intros s. exists []. simpl. rewrite app_nil_r. auto. Qed.

Lemma grows_emit (P : Event -> Prop) e : P e -> preserves (grows P) (emit e).
Proof. intros H s. exists [e]. simpl. auto. Qed.

Ltac grows_leaf :=
  first [ apply grows_tick
        | apply grows_emit; first [reflexivity | left; reflexivity | right; reflexivity]
        | apply grows_kept; intros; reflexivity ].

Lemma grows_set_proxy P : preserves (grows P) (_set_proxy self).
Proof. unfold _set_proxy. walk grows_leaf. Qed.

Lemma grows_get_delay P : preserves (grows P) (_get_delay w self).
Proof. unfold _get_delay. walk grows_leaf. Qed.

Lemma grows_can_fetch url : preserves (grows not_request) (_can_fetch w self url).
Proof. unfold _can_fetch, _get_robots_parser. walk grows_leaf. Qed.

Lemma grows_fetch_attempts url attempts :
  preserves (grows (request_of url)) (fetch_attempts w self url log_cb attempts).
Proof. induction attempts as [|attempt rest IH]; simpl; walk grows_leaf. Qed.

Lemma grows_queue_links url hrefs :
  preserves (grows not_request) (queue_links w self url hrefs).
Proof.
  induction hrefs as [|href rest IH]; simpl; [walk grows_leaf|].
  unfold queue_link, _get_url_depth. walk grows_leaf.
Qed.

Lemma grows_process_page url html :
  preserves (grows not_request) (process_page w self progress_cb url html).
Proof.
  unfold process_page.
  pose proof (grows_queue_links url). pose proof (grows_get_delay not_request).
  walk grows_leaf.
Qed.

Lemma grows_loop_test : preserves (grows not_request) (loop_test w self).
Proof. unfold loop_test. walk grows_leaf. Qed.

(** A visit requests nothing but its own URL, and requests it only after
    the depth check and the three filters have passed. *)
Lemma visit_requests url depth s :
  let s' := snd (visit w self progress_cb log_cb url depth s) in
  grows not_request s s'
  \/ (grows (request_of url) s s' /\ passes_filters self url).
Proof.
  intros s'.
  assert (Hs' : s' = snd (visit w self progress_cb log_cb url depth s)) by reflexivity.
  clearbody s'. unfold visit in Hs'.
  assert (Hlog : forall msg s0,
    grows not_request s s0 -> grows not_request s (snd (log log_cb msg s0))).
  { intros msg s0 H. etransitivity; [exact H|].
    assert (Hl : preserves (grows not_request) (log log_cb msg)) by walk grows_leaf.
    apply Hl. }
  destruct ((max_depth self >=? 0) && (depth >? max_depth self));
    [left; subst s'; now apply Hlog|].
  rewrite bind_run in Hs'.
  pose proof (grows_can_fetch url s) as H1.
  destruct (_can_fetch w self url s) as [allowed s1]. cbn [fst snd] in *.
  destruct allowed; [|left; subst s'; now apply Hlog]. cbn [negb] in Hs'.
  destruct (_check_domain_allowed self url) eqn:Hdom;
    [|left; subst s'; now apply Hlog]. cbn [negb] in Hs'.
  destruct (_check_link_filter self url) eqn:Hlink;
    [|left; subst s'; now apply Hlog]. cbn [negb] in Hs'.
  destruct (_check_keyword_filters self url) eqn:Hkw;
    [|left; subst s'; now apply Hlog]. cbn [negb] in Hs'.
  right. split; [|unfold passes_filters; auto].
  etransitivity; [eapply grows_weaken; [|exact H1]; intros e He; now left|].
  subst s'.
  match goal with |- grows _ s1 (snd (?m s1)) =>
    assert (H : preserves (grows (request_of url)) m); [|exact (H s1)] end.
  pose proof (grows_set_proxy (request_of url)).
  pose proof (grows_fetch_attempts url (Py.range (max_retries self + 1))).
  assert (Hp : forall html, preserves (grows (request_of url))
                              (process_page w self progress_cb url html)).
  { intros html s0. eapply grows_weaken; [|apply grows_process_page].
    intros e He. now left. }
  unfold _fetch_with_retry. walk grows_leaf.
Qed.

End TraceShape.

Lemma puts_app t1 t2 : puts (t1 ++ t2) = puts t1 ++ puts t2.
Proof. unfold puts. apply omap_app. Qed.

Section RequestsRun.

Variable w : World.
Variable self : Config.
Variable progress_cb log_cb : bool.

Lemma requests_inv_body s :
  crawl_inv self s -> requests_inv self s ->
  requests_inv self (snd (crawl_body w self progress_cb log_cb s)).
Proof.
  intros (Hsub & _ & _ & Hputs) Hreq.
  destruct (q s) as [|[url depth] rest] eqn:Eq.
  { unfold crawl_body. rewrite bind_run. unfold gets. cbn [fst snd]. now rewrite Eq. }
  unfold crawl_body. rewrite bind_run. unfold gets. cbn [fst snd]. rewrite Eq.
  rewrite bind_run. unfold modify. cbn [fst snd].
  assert (Hurl : url ∈ puts (trace s)).
  { eapply elem_of_sublist; [|exact Hsub]. apply elem_of_app. right.
    simpl. apply list_elem_of_here. }
  assert (Hscope : url = root self \/ link_in_scope self url).
  { rewrite Forall_forall in Hputs. now apply Hputs. }
  assert (Hvisit :
    exists tr, trace (snd (visit w self progress_cb log_cb url depth (set_q rest s)))
               = trace s ++ tr
               /\ Forall (request_of url) tr
               /\ (requests tr = [] \/ passes_filters self url)).
  { destruct (visit_requests w self progress_cb log_cb url depth (set_q rest s))
      as [(tr & Ht & HF)|[(tr & Ht & HF) Hpass]]; exists tr.
    - split; [exact Ht|]. split; [|left; now apply requests_quiet].
      eapply Forall_impl; [exact HF|]. intros e He. now left.
    - split; [exact Ht|]. split; [exact HF|now right]. }
  destruct Hvisit as (tr & Ht & HF & Hcase). intros u.
  rewrite Ht, requests_app, puts_app, !elem_of_app. intros [Hu|Hu].
  - destruct (Hreq u Hu) as [H1 H2]. auto.
  - assert (u = url) by (eapply requests_of; eauto). subst u.
    split; [|now left]. destruct Hcase as [Hnil|Hpass].
    + rewrite Hnil in Hu. inversion Hu.
    + split; assumption.
Qed.

Lemma requests_inv_rounds n s :
  crawl_inv self s -> requests_inv self s ->
  requests_inv self (crawl_rounds w self progress_cb log_cb n s).
Proof.
  revert s. induction n as [|n IH]; intros s Hc Hs; simpl; [exact Hs|].
  pose proof (loop_test_spec w self s) as Ht.
  pose proof (grows_loop_test w self s) as Hg.
  destruct (loop_test w self s) as [go s1]. simpl in Hg.
  destruct Ht as [(_ & Hr & _ & Hq & Hp) _].
  assert (Hc1 : crawl_inv self s1) by (unfold crawl_inv; now rewrite Hr, Hq, Hp).
  assert (Hs1 : requests_inv self s1).
  { intros u. rewrite (grows_quiet _ _ Hg), Hp. apply Hs. }
  destruct go; [|exact Hs1].
  apply IH; [now apply crawl_inv_body|now apply requests_inv_body].
Qed.

End RequestsRun.

(** X4. In a run observed from its start and started without records, every
    URL that is requested was put into the queue before, has passed the
    domain allow-list, the path/extension filter and the keyword filters,
    and is the root or a link of the root's origin with scheme http or
    https and no fragment. *)
Theorem X4_requests_in_scope :
  forall (w : World) (self : Config) (progress_cb log_cb : bool) (s : State),
    trace s = [] -> rows s = [] ->
    forall n u,
      let s' := crawl_rounds w self progress_cb log_cb n (snd (crawl_seed self s)) in
      u ∈ requests (trace s') ->
      u ∈ puts (trace s')
      /\ passes_filters self u
      /\ (u = root self \/ link_in_scope self u).
Proof.
  intros w self progress_cb log_cb s Ht Hr n u s' Hu.
  assert (Hreq : requests_inv self (snd (crawl_seed self s))).
  { intros x. destruct (seed_fields self s) as (_ & _ & _ & _ & ->).
    rewrite Ht. simpl. intros Hx. inversion Hx. }
  destruct (requests_inv_rounds w self progress_cb log_cb n _
              (crawl_inv_seed self s Ht Hr) Hreq u Hu) as [[Hf Hsc] Hp].
  auto.
Qed.

Lemma X4_witness :
  let self := capped_config endless_site "https://x.test/" 5 in
  let s' := crawl_rounds endless_site self true true 3
              (snd (crawl_seed self (new_state self))) in
  trace (new_state self) = [] /\ rows (new_state self) = []
  /\ "https://x.test/a/" ∈ requests (trace s')
  /\ passes_filters self "https://x.test/a/".
Proof.
  assert (H : "https://x.test/a/" ∈ requests (trace
    (crawl_rounds endless_site (capped_config endless_site "https://x.test/" 5) true true 3
       (snd (crawl_seed (capped_config endless_site "https://x.test/" 5)
               (new_state (capped_config endless_site "https://x.test/" 5))))))).
  { vm_compute. apply list_elem_of_further, list_elem_of_here. }
  split; [reflexivity|]. split; [reflexivity|]. split; [exact H|].
  apply (X4_requests_in_scope endless_site
           (capped_config endless_site "https://x.test/" 5) true true
           (new_state (capped_config endless_site "https://x.test/" 5))
           eq_refl eq_refl 3 "https://x.test/a/" H).
Defined.

(** ** The robots.txt cache *)

Section RobotsCache.

Variable w : World.
Variable self : Config.
Variable progress_cb log_cb : bool.

Lemma cache_kept (f : State -> State) :
  (forall s, robots_parsers (f s) = robots_parsers s) ->
  preserves (cache_from w) (modify f).
Proof. intros H s k rp. simpl. rewrite H. auto. Qed.

Lemma cache_tick : preserves (cache_from w) tick.
Proof. intros s k rp. simpl. auto. Qed.

Ltac cache_leaf :=
  first [ apply cache_tick | apply cache_kept; intros; reflexivity ].

Lemma cache_get_robots_parser url :
  preserves (cache_from w) (_get_robots_parser w self url).
Proof.
  unfold _get_robots_parser. intros s k rp.
  destruct (negb (respect_robots self)); [simpl; auto|]. cbv zeta.
  fold (robots_url_of url). rewrite bind_run. unfold gets. cbn [fst snd].
  destruct (robots_parsers s !! robots_url_of url); [simpl; auto|].
  rewrite !bind_run. unfold tick at 1. cbn [fst snd]. rewrite ?bind_run. cbn [fst snd].
  destruct (robots_read w (clock s) (robots_url_of url)) as [rp'|] eqn:E;
    [|simpl; auto].
  rewrite ?bind_run. simpl.
  destruct (decide (k = robots_url_of url)) as [->|Hk].
  - rewrite lookup_insert_eq. intros [= <-]. right. eauto.
  - rewrite lookup_insert_ne by congruence. auto.
Qed.

Lemma cache_can_fetch url : preserves (cache_from w) (_can_fetch w self url).
Proof.
  unfold _can_fetch. pose proof (cache_get_robots_parser url). walk cache_leaf.
Qed.

Lemma cache_visit url depth :
  preserves (cache_from w) (visit w self progress_cb log_cb url depth).
Proof.
  assert (Hq : forall u hrefs, preserves (cache_from w) (queue_links w self u hrefs)).
  { intros u hrefs. induction hrefs as [|href rest IH]; simpl; [walk cache_leaf|].
    unfold queue_link, _get_url_depth. walk cache_leaf. }
  assert (Hf : forall attempts,
    preserves (cache_from w) (fetch_attempts w self url log_cb attempts)).
  { induction attempts as [|attempt rest IH]; simpl; walk cache_leaf. }
  pose proof (cache_can_fetch url).
  unfold visit, _fetch_with_retry, process_page, _set_proxy, _get_delay.
  walk cache_leaf.
Qed.

Lemma cache_crawl_body : preserves (cache_from w) (crawl_body w self progress_cb log_cb).
Proof.
  intros s. unfold crawl_body. rewrite bind_run. unfold gets. cbn [fst snd].
  destruct (q s) as [|[url depth] rest]; [reflexivity|].
  rewrite bind_run. unfold modify. cbn [fst snd].
  exact (cache_visit url depth (set_q rest s)).
Qed.

Lemma cache_loop_test : preserves (cache_from w) (loop_test w self).
Proof. unfold loop_test. walk cache_leaf. Qed.

(** A robots.txt that forbids [url] at every read keeps the cache
    forbidding it. *)
Lemma cache_forbids_from url s s' :
  forbids w self url -> cache_from w s s' ->
  cache_forbids self url s -> cache_forbids self url s'.
Proof.
  intros Hw Hc Hs rp Hrp. destruct (Hc _ _ Hrp) as [H|[t H]]; [now apply Hs|].
  destruct (Hw t) as (rp' & H1 & H2). congruence.
Qed.

Lemma can_fetch_forbidden url s :
  respect_robots self = true -> forbids w self url -> cache_forbids self url s ->
  fst (_can_fetch w self url s) = false.
Proof.
  intros Hr Hw Hs. unfold _can_fetch, _get_robots_parser. rewrite Hr. cbn [negb].
  rewrite !bind_run. unfold gets. cbn [fst snd].
  fold (robots_url_of url).
  destruct (robots_parsers s !! robots_url_of url) as [rp|] eqn:E.
  - simpl. now apply Hs.
  - rewrite !bind_run. unfold tick at 1. cbn [fst snd].
    destruct (Hw (clock s)) as (rp & H1 & H2).
    rewrite ?bind_run. cbn [fst snd]. rewrite H1. rewrite ?bind_run. simpl. exact H2.
Qed.

Lemma visit_forbidden url depth s :
  respect_robots self = true -> forbids w self url -> cache_forbids self url s ->
  grows not_request s (snd (visit w self progress_cb log_cb url depth s)).
Proof.
  intros Hr Hw Hs.
  assert (Hlog : forall msg s0,
    grows not_request s s0 -> grows not_request s (snd (log log_cb msg s0))).
  { intros msg s0 H. etransitivity; [exact H|].
    destruct log_cb; simpl; [|reflexivity].
    exists [EvLog msg]. split; [reflexivity|]. repeat constructor. }
  unfold visit.
  destruct ((max_depth self >=? 0) && (depth >? max_depth self));
    [apply Hlog; reflexivity|].
  rewrite bind_run.
  pose proof (can_fetch_forbidden url s Hr Hw Hs) as Hb.
  pose proof (grows_can_fetch w self url s) as Hg.
  destruct (_can_fetch w self url s) as [b s1]. cbn [fst snd] in *. subst b.
  cbn [negb]. now apply Hlog.
Qed.

Lemma forbidden_inv_body url s :
  respect_robots self = true -> forbids w self url ->
  forbidden_inv self url s ->
  forbidden_inv self url (snd (crawl_body w self progress_cb log_cb s)).
Proof.
  intros Hr Hw [Hc Hn]. split.
  { eapply cache_forbids_from; [exact Hw|apply cache_crawl_body|exact Hc]. }
  unfold crawl_body. rewrite bind_run. unfold gets. cbn [fst snd].
  destruct (q s) as [|[url' depth] rest]; [exact Hn|].
  rewrite bind_run. unfold modify. cbn [fst snd].
  destruct (decide (url' = url)) as [->|Hne].
  - rewrite (grows_quiet _ _ (visit_forbidden url depth (set_q rest s) Hr Hw Hc)).
    exact Hn.
  - assert (Hg : grows (request_of url') (set_q rest s)
                   (snd (visit w self progress_cb log_cb url' depth (set_q rest s)))).
    { destruct (visit_requests w self progress_cb log_cb url' depth (set_q rest s))
        as [H|[H _]]; [|exact H].
      eapply grows_weaken; [|exact H]. intros e He. now left. }
    destruct Hg as (tr & -> & HF). simpl. rewrite requests_app, elem_of_app.
    intros [H|H]; [now apply Hn|]. apply Hne. symmetry. eapply requests_of; eauto.
Qed.

Lemma forbidden_inv_rounds url n s :
  respect_robots self = true -> forbids w self url ->
  forbidden_inv self url s ->
  forbidden_inv self url (crawl_rounds w self progress_cb log_cb n s).
Proof.
  intros Hr Hw. revert s. induction n as [|n IH]; intros s Hs; simpl; [exact Hs|].
  pose proof (cache_loop_test s) as Hc.
  pose proof (grows_loop_test w self s) as Hg.
  destruct (loop_test w self s) as [go s1]. cbn [fst snd] in *.
  assert (Hs1 : forbidden_inv self url s1).
  { destruct Hs as [H1 H2]. split.
    - eapply cache_forbids_from; eauto.
    - now rewrite (grows_quiet _ _ Hg). }
  destruct go; [|exact Hs1]. now apply IH, forbidden_inv_body.
Qed.

End RobotsCache.

(** X5. With [respect_robots] on, a URL that the robots.txt of its origin
    forbids to the crawler's user agent, at every read and in whatever is
    cached before the run, is never requested, however often it is linked. *)
Theorem X5_robots_forbidden_never_requested :
  forall (w : World) (self : Config) (progress_cb log_cb : bool) (s : State)
         (url : string),
    respect_robots self = true ->
    forbids w self url ->
    cache_forbids self url s ->
    url ∉ requests (trace s) ->
    forall n,
      url ∉ requests (trace (crawl_rounds w self progress_cb log_cb n
                               (snd (crawl_seed self s)))).
Proof.
  intros w self progress_cb log_cb s url Hr Hw Hc Hn n.
  apply (forbidden_inv_rounds w self progress_cb log_cb url n _ Hr Hw).
  destruct (seed_fields self s) as (_ & _ & _ & _ & Ht).
  split.
  - intros rp. unfold crawl_seed, q_put, emit, modify, bind. simpl. apply Hc.
  - rewrite Ht, requests_app, elem_of_app. simpl. intros [H|H]; [auto|inversion H].
Qed.

Lemma X5_witness :
  let self := capped_config private_site "https://x.test/" 5 in
  let url := "https://x.test/private" in
  let s' := crawl_rounds private_site self true true 4
              (snd (crawl_seed self (new_state self))) in
  url ∈ puts (trace s')
  /\ "https://x.test/public" ∈ requests (trace s')
  /\ url ∉ requests (trace s').
Proof.
  split; [vm_compute; apply list_elem_of_further, list_elem_of_here|].
  split; [vm_compute; apply list_elem_of_further, list_elem_of_here|].
  apply (X5_robots_forbidden_never_requested private_site
           (capped_config private_site "https://x.test/" 5) true true
           (new_state (capped_config private_site "https://x.test/" 5))
           "https://x.test/private" eq_refl).
  - intros t. eexists. split; reflexivity.
  - intros rp H. vm_compute in H. discriminate H.
  - vm_compute. intros H. inversion H.
Defined.

Lemma can_fetch_cached w self url s (rp : RobotFileParser) :
  respect_robots self = true ->
  robots_parsers s !! robots_url_of url = Some rp ->
  _can_fetch w self url s = (rp (user_agent self) url, s).
Proof.
  intros Hr Hc. unfold robots_url_of in Hc.
  unfold _can_fetch, _get_robots_parser, bind, gets. rewrite Hr. cbn [negb].
  cbv beta iota zeta. rewrite Hc. reflexivity.
Qed.

Lemma can_fetch_read w self url s :
  respect_robots self = true ->
  robots_parsers s !! robots_url_of url = None ->
  _can_fetch w self url s
  = match robots_read w (clock s) (robots_url_of url) with
    | Some rp =>
        (rp (user_agent self) url,
         set_robots_parsers (<[robots_url_of url := rp]> (robots_parsers s))
           (set_trace (trace s ++ [EvRobotsRead (robots_url_of url)])
              (set_clock (S (clock s)) s)))
    | None =>
        (true, set_trace (trace s ++ [EvRobotsRead (robots_url_of url)])
                 (set_clock (S (clock s)) s))
    end.
Proof.
  intros Hr Hc. unfold robots_url_of in *.
  unfold _can_fetch, _get_robots_parser, bind, gets, tick, emit, modify. rewrite Hr.
  cbn [negb]. cbv beta iota zeta. rewrite Hc. cbn [clock set_clock].
  destruct (robots_read w (clock s) _); reflexivity.
Qed.

(** X6. The robots.txt cache, call by call. With [respect_robots] off
    [_can_fetch] allows every URL and leaves the object alone. With it on:
    a parser cached for the origin answers, with no read and no other
    change; with none cached, robots.txt is read once, and when the read
    fails the URL is allowed and nothing is cached, so that the next call
    finds no parser either and reads again; when the read succeeds its
    parser answers and is cached, and every further call for a URL of the
    same origin is answered by it with no read and no change. *)
Theorem X6_robots_cache :
  forall (w : World) (self : Config) (url : string) (s : State),
    (respect_robots self = false -> _can_fetch w self url s = (true, s))
    /\ (respect_robots self = true ->
        (forall rp : RobotFileParser,
           robots_parsers s !! robots_url_of url = Some rp ->
           _can_fetch w self url s = (rp (user_agent self) url, s))
        /\ (robots_parsers s !! robots_url_of url = None ->
            robots_read w (clock s) (robots_url_of url) = None ->
            fst (_can_fetch w self url s) = true
            /\ robots_parsers (snd (_can_fetch w self url s)) = robots_parsers s
            /\ robots_parsers (snd (_can_fetch w self url s)) !! robots_url_of url = None
            /\ trace (snd (_can_fetch w self url s))
               = trace s ++ [EvRobotsRead (robots_url_of url)])
        /\ (forall rp : RobotFileParser,
            robots_parsers s !! robots_url_of url = None ->
            robots_read w (clock s) (robots_url_of url) = Some rp ->
            fst (_can_fetch w self url s) = rp (user_agent self) url
            /\ robots_parsers (snd (_can_fetch w self url s))
               = <[robots_url_of url := rp]> (robots_parsers s)
            /\ trace (snd (_can_fetch w self url s))
               = trace s ++ [EvRobotsRead (robots_url_of url)]
            /\ forall url',
                 robots_url_of url' = robots_url_of url ->
                 _can_fetch w self url' (snd (_can_fetch w self url s))
                 = (rp (user_agent self) url', snd (_can_fetch w self url s)))).
Proof.
  intros w self url s. split; intros Hr.
  { unfold _can_fetch. now rewrite Hr. }
  split; [|split].
  - intros rp E. now apply can_fetch_cached.
  - intros E Eread. rewrite (can_fetch_read w self url s Hr E).
    unfold RobotFileParser in *. rewrite Eread. cbn. rewrite E. auto.
  - intros rp E Eread. rewrite (can_fetch_read w self url s Hr E).
    unfold RobotFileParser in *. rewrite Eread. cbn [fst snd].
    split; [reflexivity|]. split; [reflexivity|]. split; [reflexivity|].
    intros url' Hu. apply can_fetch_cached; [exact Hr|].
    rewrite Hu. cbn. apply lookup_insert_eq.
Qed.

(** ** Proxy rotation *)

Section Proxies.

Variable self : Config.

Lemma set_proxy_step s :
  proxies self <> [] ->
  let s' := snd (_set_proxy self s) in
  proxies_are (proxy_url (nth (Z.to_nat (current_proxy_index s)) (proxies self) "")) s'
  /\ current_proxy_index s' = (current_proxy_index s + 1) mod Py.len (proxies self).
Proof.
  intros Hne. unfold _set_proxy.
  destruct (proxies self) as [|p ps] eqn:E; [congruence|].
  cbn [is_nil]. split; reflexivity.
Qed.

Lemma len_pos : proxies self <> [] -> 0 < Py.len (proxies self).
Proof. unfold Py.len. destruct (proxies self); [congruence|simpl; lia]. Qed.

Lemma set_proxy_index_ok : preserves (keeps (index_ok self)) (_set_proxy self).
Proof.
  intros s Hs. destruct (proxies self) as [|p ps] eqn:E.
  - unfold _set_proxy. rewrite E. exact Hs.
  - assert (Hne : proxies self <> []) by congruence.
    destruct (set_proxy_step s Hne) as [_ Hi]. unfold index_ok. rewrite Hi.
    apply Z.mod_pos_bound. now apply len_pos.
Qed.

Lemma set_proxy_times_index n s :
  proxies self <> [] ->
  current_proxy_index (set_proxy_times self n s)
  = if Nat.eqb n 0 then current_proxy_index s
    else (current_proxy_index s + Z.of_nat n) mod Py.len (proxies self).
Proof.
  intros Hne. pose proof (len_pos Hne) as Hlen.
  induction n as [|n IH]; [reflexivity|].
  unfold set_proxy_times in *. rewrite Nat.iter_succ. cbn [Nat.eqb].
  destruct (set_proxy_step (Nat.iter n (fun s => snd (_set_proxy self s)) s) Hne)
    as [_ ->].
  rewrite IH. destruct n as [|n]; cbn [Nat.eqb].
  - reflexivity.
  - rewrite Zplus_mod_idemp_l. f_equal. lia.
Qed.

End Proxies.

Section ProxiesRun.

Variable w : World.
Variable self : Config.
Variable progress_cb log_cb : bool.

Lemma index_kept (f : State -> State) :
  (forall s, current_proxy_index (f s) = current_proxy_index s) ->
  preserves (keeps (index_ok self)) (modify f).
Proof. intros H s Hs. unfold index_ok. simpl. rewrite H. exact Hs. Qed.

Lemma index_tick : preserves (keeps (index_ok self)) tick.
Proof. intros s Hs. exact Hs. Qed.

Ltac index_leaf :=
  first [ apply index_tick | apply index_kept; intros; reflexivity ].

Lemma index_visit url depth :
  preserves (keeps (index_ok self)) (visit w self progress_cb log_cb url depth).
Proof.
  assert (Hq : forall u hrefs,
    preserves (keeps (index_ok self)) (queue_links w self u hrefs)).
  { intros u hrefs. induction hrefs as [|href rest IH]; simpl; [walk index_leaf|].
    unfold queue_link, _get_url_depth. walk index_leaf. }
  assert (Hf : forall attempts,
    preserves (keeps (index_ok self)) (fetch_attempts w self url log_cb attempts)).
  { induction attempts as [|attempt rest IH]; simpl; walk index_leaf. }
  pose proof (set_proxy_index_ok self).
  unfold visit, _fetch_with_retry, process_page, _can_fetch, _get_robots_parser,
    _get_delay.
  walk index_leaf.
Qed.

Lemma index_rounds n s :
  index_ok self s -> index_ok self (crawl_rounds w self progress_cb log_cb n s).
Proof.
  revert s. induction n as [|n IH]; intros s Hs; simpl; [exact Hs|].
  assert (Ht : preserves (keeps (index_ok self)) (loop_test w self))
    by (unfold loop_test; walk index_leaf).
  specialize (Ht s Hs). destruct (loop_test w self s) as [go s1]. cbn [snd] in Ht.
  destruct go; [|exact Ht]. apply IH.
  unfold crawl_body. rewrite bind_run. unfold gets. cbn [fst snd].
  destruct (q s1) as [|[url depth] rest]; [exact Ht|].
  rewrite bind_run. unfold modify. cbn [fst snd].
  now apply (index_visit url depth (set_q rest s1)).
Qed.

End ProxiesRun.

(** X7. Proxy rotation. With a non-empty proxy list and the index inside
    the list, [n + 1] calls of [_set_proxy] in a row leave the session with
    the same proxy for http and https, made of entry number
    [(index + n) mod len] of the list, with [http://] put before it unless it
    starts with [http://] or [https://]; the index is then
    [(index + n + 1) mod len], inside the list again. *)
Theorem X7_proxy_rotation :
  forall (self : Config) (s : State) (n : nat),
    proxies self <> [] ->
    0 <= current_proxy_index s < Py.len (proxies self) ->
    let len := Py.len (proxies self) in
    let s' := set_proxy_times self (S n) s in
    (exists proxy,
        proxies self !! Z.to_nat ((current_proxy_index s + Z.of_nat n) mod len)
        = Some proxy
        /\ proxies_are (proxy_url proxy) s'
        /\ (Py.startswith "http://" (proxy_url proxy)
            || Py.startswith "https://" (proxy_url proxy) = true))
    /\ current_proxy_index s' = (current_proxy_index s + Z.of_nat n + 1) mod len
    /\ 0 <= current_proxy_index s' < len.
Proof.
  intros self s n Hne Hi len s'. subst s'.
  pose proof (len_pos self Hne) as Hlen. fold len in Hlen.
  assert (Hidx : current_proxy_index (set_proxy_times self n s)
                 = (current_proxy_index s + Z.of_nat n) mod len).
  { rewrite set_proxy_times_index by exact Hne. destruct n; cbn [Nat.eqb]; [|reflexivity].
    rewrite Z.add_0_r. symmetry. apply Z.mod_small. exact Hi. }
  change (set_proxy_times self (S n) s)
    with (snd (_set_proxy self (set_proxy_times self n s))).
  destruct (set_proxy_step self (set_proxy_times self n s) Hne) as [Hp Hnext].
  rewrite Hidx in Hp, Hnext. fold len in Hnext.
  pose proof (Z.mod_pos_bound (current_proxy_index s + Z.of_nat n) len Hlen) as Hb.
  split; [|split].
  - assert (Hlt : (Z.to_nat ((current_proxy_index s + Z.of_nat n) mod len)
                   < length (proxies self))%nat).
    { unfold len, Py.len in Hb |- *. lia. }
    destruct (lookup_lt_is_Some_2 _ _ Hlt) as [proxy Hproxy].
    exists proxy. split; [exact Hproxy|].
    rewrite (nth_lookup_Some _ _ "" _ Hproxy) in Hp. split; [exact Hp|].
    unfold proxy_url.
    destruct (Py.startswith "http://" proxy || Py.startswith "https://" proxy) eqn:E;
      [exact E|].
    rewrite (startswith_app "http://" proxy). reflexivity.
  - rewrite Hnext. rewrite Zplus_mod_idemp_l. reflexivity.
  - rewrite Hnext. apply Z.mod_pos_bound. exact Hlen.
Qed.

Lemma X7_witness :
  let self := proxy_config endless_site in
  let s' := set_proxy_times self 5 (new_state self) in
  proxies_are "http://p3:3128" s' /\ current_proxy_index s' = 0.
Proof.
  destruct (X7_proxy_rotation (proxy_config endless_site)
              (new_state (proxy_config endless_site)) 4)
    as [(proxy & Hp & Hare & _) [Hi _]].
  - discriminate.
  - vm_compute. split; [intros H; discriminate H|reflexivity].
  - vm_compute in Hp. injection Hp as <-. split; [exact Hare|exact Hi].
Defined.

(** X8. From a new [Spider] with a non-empty proxy list on, at every point
    of a run the proxy index names an entry of the list: the lookup
    [self.proxies[self.current_proxy_index]] never leaves the list. *)
Theorem X8_proxy_index_in_range :
  forall (w : World) (time0 : nat) (self : Config)
         (custom_headers cookies : option (gmap string string))
         (progress_cb log_cb : bool) (n : nat),
    proxies self <> [] ->
    let s := crawl_rounds w self progress_cb log_cb n
               (snd (crawl_seed self (init_state self time0 custom_headers cookies))) in
    0 <= current_proxy_index s < Py.len (proxies self)
    /\ is_Some (proxies self !! Z.to_nat (current_proxy_index s)).
Proof.
  intros w time0 self custom_headers cookies progress_cb log_cb n Hne s.
  assert (Hs : index_ok self s).
  { subst s. apply index_rounds.
    assert (H0 : index_ok self (init_state self time0 custom_headers cookies)).
    { unfold init_state. destruct (proxies self) as [|p ps] eqn:E; [congruence|].
      cbn [is_nil]. apply set_proxy_index_ok.
      unfold index_ok. simpl. split; [lia|]. apply len_pos. congruence. }
    revert H0. generalize (init_state self time0 custom_headers cookies). intros s0 H0.
    exact H0. }
  split; [exact Hs|]. apply lookup_lt_is_Some_2. unfold index_ok, Py.len in Hs. lia.
Qed.

Lemma X8_witness :
  let self := proxy_config endless_site in
  let s := crawl_rounds endless_site self true true 4
             (snd (crawl_seed self (init_state self 0 None None))) in
  proxies self !! Z.to_nat (current_proxy_index s) = Some "p3:3128".
Proof.
  cbv zeta.
  destruct (X8_proxy_index_in_range endless_site 0 (proxy_config endless_site)
              None None true true 4) as [_ [p Hp]].
  - discriminate.
  - rewrite Hp. vm_compute in Hp. symmetry. exact Hp.
Defined.

(** ** A refused root *)

Section Ends.

Variable w : World.
Variable self : Config.
Variable progress_cb log_cb : bool.



Lemma loop_test_stopped s :
  cancelled s = true \/ max_pages self <= Py.len (rows s) ->
  fst (loop_test w self s) = false.
Proof.
  intros H. unfold loop_test, bind, tick, cancel, modify, gets, ret.
  destruct (cancel_called w (clock s)); simpl.
  - apply andb_false_r.
  - destruct H as [-> | H]; [apply andb_false_r|].
    apply Z.ltb_ge in H. rewrite H. now rewrite andb_false_r.
Qed.

Lemma rows_grow_rounds n s :
  rows s `prefix_of` rows (crawl_rounds w self progress_cb log_cb n s).
Proof.
  revert s. induction n as [|n IH]; intros s; simpl; [reflexivity|].
  pose proof (loop_test_spec w self s) as Ht.
  destruct (loop_test w self s) as [go s1]. destruct Ht as [(_ & Hr & _) _].
  destruct go; [|now rewrite Hr].
  etransitivity; [|apply IH]. rewrite <- Hr.
  destruct (crawl_body_one_row w self progress_cb log_cb s1) as [->|[r ->]];
    [reflexivity|now apply prefix_app_r].
Qed.

(** Once the loop has ended, further rounds change nothing. *)
Lemma crawl_rounds_stable fuel s s' :
  crawl_loop w self progress_cb log_cb fuel s = Some s' ->
  forall n, (fuel < n)%nat -> crawl_rounds w self progress_cb log_cb n s = s'.
Proof.
  revert s. induction fuel as [|fuel IH]; intros s H n Hn;
    (destruct n as [|n]; [lia|]); simpl in *;
    destruct (loop_test w self s) as [[] s1]; try congruence.
  apply IH; [exact H|lia].
Qed.

End Ends.

Section Refused.

Variable w : World.
Variable self : Config.
Variable progress_cb log_cb : bool.


End Refused.



(** ** Finished objects and cancellation *)

(** X10. [crawl] resets neither the cancel flag nor the records. On an
    object that was cancelled, or that already holds [max_pages] records or
    more, it puts the root into its queue and returns at once, whatever the
    fuel: no request is made and no record is added. *)
Theorem X10_crawl_on_finished_object :
  forall (w : World) (self : Config) (progress_cb log_cb : bool) (s : State)
         (fuel : nat),
    cancelled s = true \/ max_pages self <= Py.len (rows s) ->
    exists s',
      crawl w self progress_cb log_cb fuel s = Some s'
      /\ rows s' = rows s
      /\ requests (trace s') = requests (trace s)
      /\ puts (trace s') = puts (trace s) ++ [root self].
Proof.
  intros w self progress_cb log_cb s fuel H.
  destruct (seed_fields self s) as (_ & _ & _ & Hr0 & Ht0).
  set (s0 := snd (crawl_seed self s)) in *.
  assert (H0 : cancelled s0 = true \/ max_pages self <= Py.len (rows s0)).
  { destruct H as [H|H]; [left; exact H|right; now rewrite Hr0]. }
  pose proof (loop_test_stopped w self s0 H0) as Hstop.
  pose proof (loop_test_spec w self s0) as Ht.
  pose proof (grows_loop_test w self s0) as Hg.
  unfold crawl. fold s0.
  assert (Hrun : crawl_loop w self progress_cb log_cb fuel s0
                 = Some (snd (loop_test w self s0))).
  { destruct fuel; simpl; destruct (loop_test w self s0) as [go s1];
      cbn [fst snd] in *; now subst go. }
  destruct (loop_test w self s0) as [go s1]. cbn [fst snd] in *.
  destruct Ht as [(_ & Hr1 & _ & _ & Hp1) _].
  exists s1. split; [exact Hrun|]. split; [congruence|]. split.
  - rewrite (grows_quiet _ _ Hg), Ht0, requests_app. simpl. apply app_nil_r.
  - rewrite Hp1, Ht0, puts_app. reflexivity.
Qed.

Lemma X10_witness :
  let self := capped_config endless_site "https://x.test/" 5 in
  let s := set_cancelled true (new_state self) in
  exists s', crawl endless_site self true true 0 s = Some s'
             /\ rows s' = [] /\ requests (trace s') = [].
Proof.
  cbv zeta.
  destruct (X10_crawl_on_finished_object endless_site
              (capped_config endless_site "https://x.test/" 5) true true
              (set_cancelled true
                 (new_state (capped_config endless_site "https://x.test/" 5))) 0)
    as (s' & Hrun & Hrows & Hreq & _).
  - left. reflexivity.
  - exists s'. split; [exact Hrun|]. split; [exact Hrows|exact Hreq].
Defined.

Section Cancel.

Variable w : World.
Variable self : Config.
Variable progress_cb log_cb : bool.

Lemma crawl_body_with_cancel c s :
  crawl_body (with_cancel c w) self progress_cb log_cb s
  = crawl_body w self progress_cb log_cb s.
Proof. reflexivity. Qed.

Lemma loop_test_with_cancel c s :
  loop_test (with_cancel c w) self s
  = let s1 := set_clock (S (clock s)) s in
    if c (clock s)
    then (false, set_cancelled true s1)
    else (negb (is_nil (q s)) && (Py.len (rows s) <? max_pages self)
          && negb (cancelled s), s1).
Proof.
  unfold loop_test, bind, tick, cancel, modify, gets, ret. cbn [cancel_called with_cancel].
  destruct (c (clock s)); cbn; [|reflexivity].
  now rewrite andb_false_r.
Qed.

(** A [cancel()] that arrives earlier leaves a prefix of the records. *)
Lemma cancel_prefix_rounds (c c' : nat -> bool) :
  (forall t, c t = true -> c' t = true) ->
  forall n m s,
    (n <= m)%nat ->
    rows (crawl_rounds (with_cancel c' w) self progress_cb log_cb n s)
    `prefix_of` rows (crawl_rounds (with_cancel c w) self progress_cb log_cb m s).
Proof.
  intros Hcc n. induction n as [|n IH]; intros m s Hm.
  { apply rows_grow_rounds. }
  destruct m as [|m]; [lia|]. cbn [crawl_rounds].
  rewrite !loop_test_with_cancel. cbv zeta.
  destruct (c' (clock s)) eqn:Ec'; destruct (c (clock s)) eqn:Ec.
  - reflexivity.
  - destruct (_ && _).
    + etransitivity; [|apply rows_grow_rounds].
      rewrite crawl_body_with_cancel.
      destruct (crawl_body_one_row w self progress_cb log_cb
                  (set_clock (S (clock s)) s)) as [->|[r ->]];
        [reflexivity|now apply prefix_app_r].
    + reflexivity.
  - rewrite (Hcc _ Ec) in Ec'. discriminate.
  - destruct (_ && _); [|reflexivity].
    rewrite !crawl_body_with_cancel. apply IH. lia.
Qed.

End Cancel.

(** X11. Cancelling earlier only cuts the result short. Of two runs of the
    same crawl in the same world, one of which sees [cancel()] whenever the
    other does and possibly sooner, the records of the run cancelled
    sooner are a prefix of the records of the other. *)
Theorem X11_cancel_prefix :
  forall (w : World) (self : Config) (progress_cb log_cb : bool)
         (c c' : nat -> bool) (s s1 s2 : State) (fuel fuel' : nat),
    (forall t, c t = true -> c' t = true) ->
    crawl (with_cancel c' w) self progress_cb log_cb fuel' s = Some s1 ->
    crawl (with_cancel c w) self progress_cb log_cb fuel s = Some s2 ->
    rows s1 `prefix_of` rows s2.
Proof.
  intros w self progress_cb log_cb c c' s s1 s2 fuel fuel' Hcc H1 H2.
  unfold crawl in *.
  pose proof (crawl_rounds_stable _ _ _ _ _ _ _ H1 (S (fuel + fuel'))) as E1.
  pose proof (crawl_rounds_stable _ _ _ _ _ _ _ H2 (S (fuel + fuel'))) as E2.
  rewrite <- E1, <- E2 by lia.
  now apply cancel_prefix_rounds.
Qed.

Lemma X11_witness :
  let self := capped_config endless_site "https://x.test/" 5 in
  let early := with_cancel (fun t => Nat.leb 4 t) endless_site in
  let late := with_cancel (fun _ => false) endless_site in
  exists s1 s2,
    crawl early self true true 9 (new_state self) = Some s1
    /\ crawl late self true true 9 (new_state self) = Some s2
    /\ rows s1 `prefix_of` rows s2
    /\ (length (rows s1) < length (rows s2))%nat.
Proof.
  cbv zeta.
  destruct (crawl (with_cancel (fun t => Nat.leb 4 t) endless_site)
              (capped_config endless_site "https://x.test/" 5) true true 9
              (new_state (capped_config endless_site "https://x.test/" 5)))
    as [s1|] eqn:E1; [|vm_compute in E1; discriminate E1].
  destruct (crawl (with_cancel (fun _ => false) endless_site)
              (capped_config endless_site "https://x.test/" 5) true true 9
              (new_state (capped_config endless_site "https://x.test/" 5)))
    as [s2|] eqn:E2; [|vm_compute in E2; discriminate E2].
  exists s1, s2. split; [reflexivity|]. split; [reflexivity|]. split.
  - apply (X11_cancel_prefix endless_site
             (capped_config endless_site "https://x.test/" 5) true true
             (fun _ => false) (fun t => Nat.leb 4 t)
             (new_state (capped_config endless_site "https://x.test/" 5))
             s1 s2 9 9); [intros t H; discriminate H|exact E1|exact E2].
  - vm_compute in E1. vm_compute in E2.
    injection E1 as <-. injection E2 as <-. vm_compute. lia.
Defined.

(** ** The delay between pages *)

#[export] Instance paced_preorder self : PreOrder (paced self).
Proof.
  split.
  - intros s. exists [], []. rewrite !app_nil_r. repeat split. reflexivity.
  - intros s1 s2 s3 (r1 & t1 & Hr1 & Ht1 & H1) (r2 & t2 & Hr2 & Ht2 & H2).
    exists (r1 ++ r2), (t1 ++ t2).
    rewrite Hr2, Hr1, Ht2, Ht1, <- !app_assoc. repeat split.
    rewrite length_app, replicate_add. now apply sublist_app.
Qed.

#[export] Instance still_preorder : PreOrder still.
Proof.
  split.
  - intros s. split; reflexivity.
  - intros s1 s2 s3 [H1 H2] [H3 H4]. split; congruence.
Qed.

Lemma sleeps_app t1 t2 : sleeps (t1 ++ t2) = sleeps t1 ++ sleeps t2.
Proof. unfold sleeps. apply omap_app. Qed.

Lemma still_paced self s s' : still s s' -> paced self s s'.
Proof.
  intros [Hr Ht]. exists [], []. rewrite Hr, Ht, !app_nil_r. repeat split. reflexivity.
Qed.

Section Pace.

Variable w : World.
Variable self : Config.
Variable progress_cb log_cb : bool.

Lemma still_kept (f : State -> State) :
  (forall s, rows (f s) = rows s /\ trace (f s) = trace s) ->
  preserves still (modify f).
Proof. intros H s. destruct (H s) as [H1 H2]. split; simpl; congruence. Qed.

Lemma still_tick : preserves still tick.
Proof. intros s. split; reflexivity. Qed.

Lemma still_emit e : sleep_seconds e = None -> preserves still (emit e).
Proof.
  intros H s. split; [reflexivity|]. simpl. rewrite sleeps_app. simpl. rewrite H.
  apply app_nil_r.
Qed.

Ltac still_leaf :=
  first [ apply still_tick
        | apply still_emit; reflexivity
        | apply still_kept; intros; split; reflexivity ].

Lemma still_queue_links url hrefs : preserves still (queue_links w self url hrefs).
Proof.
  induction hrefs as [|href rest IH]; simpl; [walk still_leaf|].
  unfold queue_link, _get_url_depth. walk still_leaf.
Qed.

Lemma paced_kept (f : State -> State) :
  (forall s, rows (f s) = rows s /\ trace (f s) = trace s) ->
  preserves (paced self) (modify f).
Proof. intros H s. apply still_paced. now apply still_kept. Qed.

Lemma paced_tick : preserves (paced self) tick.
Proof. intros s. apply still_paced. apply still_tick. Qed.

Lemma paced_emit e : preserves (paced self) (emit e).
Proof.
  intros s. exists [], (sleeps [e]). simpl. rewrite sleeps_app, app_nil_r.
  repeat split. apply sublist_nil_l.
Qed.

Ltac paced_leaf :=
  first [ apply paced_tick | apply paced_emit
        | apply paced_kept; intros; split; reflexivity ].

(** A fetched page: one record, and one sleep of [self.delay] at the end. *)
Lemma paced_process_page url html :
  randomize_delay self = false ->
  preserves (paced self) (process_page w self progress_cb url html).
Proof.
  intros Hr s. unfold process_page. cbv zeta.
  rewrite bind_run. unfold modify at 1. cbn [fst snd].
  set (r := Row.mk _ _ url).
  assert (H1 : rows (set_rows (rows s ++ [r]) s) = rows s ++ [r]
               /\ trace (set_rows (rows s ++ [r]) s) = trace s) by (split; reflexivity).
  generalize dependent (set_rows (rows s ++ [r]) s). intros s1 [Hr1 Ht1].
  match goal with |- paced _ _ (snd (bind ?m ?k s1)) =>
    rewrite (bind_run m k s1);
    assert (H2 : still s1 (snd (m s1)))
      by (destruct progress_cb; [apply still_emit|]; reflexivity);
    generalize dependent (snd (m s1)); intros s2 [Hr2 Ht2] end.
  match goal with |- paced _ _ (snd (bind ?m ?k s2)) =>
    rewrite (bind_run m k s2);
    pose proof (still_queue_links url (soup_hrefs (BeautifulSoup w html)) s2) as H3;
    generalize dependent (snd (m s2)); intros s3 [Hr3 Ht3] end.
  unfold _get_delay. rewrite Hr. rewrite bind_run. cbn [ret fst snd].
  exists [r], [delay self]. unfold sleep, emit, modify. cbn [fst snd rows trace set_trace].
  rewrite sleeps_app, Hr3, Ht3, Hr2, Ht2, Hr1, Ht1.
  split; [reflexivity|]. split; reflexivity.
Qed.

Lemma paced_visit url depth :
  randomize_delay self = false ->
  preserves (paced self) (visit w self progress_cb log_cb url depth).
Proof.
  intros Hr.
  assert (Hf : forall attempts,
    preserves (paced self) (fetch_attempts w self url log_cb attempts)).
  { induction attempts as [|attempt rest IH]; simpl; walk paced_leaf. }
  pose proof (paced_process_page url) as Hp. specialize (fun html => Hp html Hr).
  unfold visit, _fetch_with_retry, _can_fetch, _get_robots_parser, _set_proxy.
  walk paced_leaf.
Qed.

Lemma paced_rounds n s :
  randomize_delay self = false ->
  paced self s (crawl_rounds w self progress_cb log_cb n s).
Proof.
  intros Hr. revert s. induction n as [|n IH]; intros s; simpl; [reflexivity|].
  assert (Ht : preserves (paced self) (loop_test w self))
    by (unfold loop_test; walk paced_leaf).
  specialize (Ht s). destruct (loop_test w self s) as [go s1]. cbn [snd] in Ht.
  destruct go; [|exact Ht].
  etransitivity; [exact Ht|]. etransitivity; [|apply IH].
  unfold crawl_body. rewrite bind_run. unfold gets. cbn [fst snd].
  destruct (q s1) as [|[url depth] rest]; [reflexivity|].
  rewrite bind_run. unfold modify. cbn [fst snd].
  etransitivity; [|apply (paced_visit url depth Hr)].
  apply still_paced. split; reflexivity.
Qed.

End Pace.

(** X12. The delay between pages. With [randomize_delay] off, in a run
    observed from its start and started without records, the sleeps made so
    far contain one sleep of [self.delay] seconds for every record, in
    order, among the backoff sleeps of the retries. *)
Theorem X12_one_delay_per_page :
  forall (w : World) (self : Config) (progress_cb log_cb : bool) (s : State),
    randomize_delay self = false ->
    trace s = [] -> rows s = [] ->
    forall n,
      let s' := crawl_rounds w self progress_cb log_cb n (snd (crawl_seed self s)) in
      replicate (length (rows s')) (delay self) `sublist_of` sleeps (trace s').
Proof.
  intros w self progress_cb log_cb s Hr Ht Hrows n s'.
  destruct (paced_rounds w self progress_cb log_cb n (snd (crawl_seed self s)) Hr)
    as (new_rows & new_sleeps & H1 & H2 & H3).
  destruct (seed_fields self s) as (_ & _ & _ & Hr0 & Ht0).
  subst s'. rewrite H1, H2, Hr0, Ht0, Hrows, Ht. exact H3.
Qed.

Lemma X12_witness :
  let self := retry_config flaky_site "https://x.test/" in
  let s' := crawl_rounds flaky_site self true true 4
              (snd (crawl_seed self (new_state self))) in
  sleeps (trace s') = [3 # 10; 1; 2; 3 # 10]%Q
  /\ replicate (length (rows s')) (delay self) `sublist_of` sleeps (trace s').
Proof.
  split; [vm_compute; reflexivity|].
  apply (X12_one_delay_per_page flaky_site (retry_config flaky_site "https://x.test/")
           true true (new_state (retry_config flaky_site "https://x.test/"))
           eq_refl eq_refl eq_refl 4).
Defined.

(** ** Path depth *)

Section PathDepth.

Variable w : World.
Variable self : Config.
Variable progress_cb log_cb : bool.

Lemma path_depth_nonneg url : 0 <= path_depth self url.
Proof. unfold path_depth. destruct (String.eqb _ _); lia. Qed.

Lemma get_url_depth_value url s :
  same_origin (root self) url = true ->
  depths_inv self s ->
  fst (_get_url_depth self url s) = path_depth self url
  /\ depths_inv self (snd (_get_url_depth self url s)).
Proof.
  intros Ho [Hd Hq]. unfold same_origin in Ho. apply andb_true_iff in Ho as [_ Hn].
  unfold _get_url_depth. rewrite bind_run. unfold gets. cbn [fst snd].
  destruct (url_depths s !! url) as [d|] eqn:E.
  { simpl. split; [now apply Hd|now split]. }
  unfold path_depth at 1. destruct (String.eqb url (root self)) eqn:Er.
  { simpl. split; [reflexivity|now split]. }
  cbv zeta. rewrite Hn. cbn [negb]. rewrite bind_run. cbn [fst snd modify ret].
  split; [reflexivity|]. split; [|exact Hq].
  intros u d. cbn [url_depths set_url_depths].
  destruct (decide (u = url)) as [->|Hne].
  - rewrite lookup_insert_eq. intros [= <-]. unfold path_depth. now rewrite Er.
  - rewrite lookup_insert_ne by congruence. apply Hd.
Qed.

Lemma depths_kept (f : State -> State) :
  (forall s, url_depths (f s) = url_depths s /\ q (f s) = q s) ->
  preserves (keeps (depths_inv self)) (modify f).
Proof.
  intros H s [Hd Hq]. destruct (H s) as [H1 H2]. unfold depths_inv. simpl.
  rewrite H1, H2. now split.
Qed.

Lemma depths_tick : preserves (keeps (depths_inv self)) tick.
Proof. intros s H. exact H. Qed.

Ltac depths_leaf :=
  first [ apply depths_tick | apply depths_kept; intros; split; reflexivity ].

Lemma depths_queue_link url href :
  preserves (keeps (depths_inv self)) (queue_link w self url href).
Proof.
  intros s Hs. unfold queue_link.
  destruct (normalize_link w url href) as [abs_url|]; [|exact Hs].
  destruct (Py.is_empty abs_url); [exact Hs|].
  destruct (same_origin (root self) abs_url) eqn:Ho; [|exact Hs]. cbn [negb].
  rewrite bind_run. unfold gets. cbn [fst snd].
  case_bool_decide; [exact Hs|].
  rewrite bind_run.
  destruct (get_url_depth_value abs_url s Ho Hs) as [Hv Hs1].
  destruct (_get_url_depth self abs_url s) as [d s1]. cbn [fst snd] in *. subst d.
  destruct (_ && _); [exact Hs1|].
  destruct (negb _); [exact Hs1|].
  destruct Hs1 as [Hd Hq]. split; [exact Hd|].
  cbn. apply Forall_app. split; [exact Hq|]. now constructor.
Qed.

Lemma depths_visit url depth :
  preserves (keeps (depths_inv self)) (visit w self progress_cb log_cb url depth).
Proof.
  assert (Hq : forall u hrefs,
    preserves (keeps (depths_inv self)) (queue_links w self u hrefs)).
  { intros u hrefs. induction hrefs as [|href rest IH]; simpl; [walk depths_leaf|].
    pose proof (depths_queue_link u href). walk depths_leaf. }
  assert (Hf : forall attempts,
    preserves (keeps (depths_inv self)) (fetch_attempts w self url log_cb attempts)).
  { induction attempts as [|attempt rest IH]; simpl; walk depths_leaf. }
  unfold visit, _fetch_with_retry, process_page, _can_fetch, _get_robots_parser,
    _set_proxy, _get_delay.
  walk depths_leaf.
Qed.

Lemma depths_body s :
  depths_inv self s -> depths_inv self (snd (crawl_body w self progress_cb log_cb s)).
Proof.
  intros Hs. unfold crawl_body. rewrite bind_run. unfold gets. cbn [fst snd].
  destruct (q s) as [|[url depth] rest] eqn:Eq; [exact Hs|].
  rewrite bind_run. unfold modify. cbn [fst snd].
  apply (depths_visit url depth (set_q rest s)).
  destruct Hs as [Hd Hq]. split; [exact Hd|]. cbn. rewrite Eq in Hq.
  now apply Forall_cons in Hq as [_ Hq].
Qed.

Lemma depths_rounds n s :
  depths_inv self s -> depths_inv self (crawl_rounds w self progress_cb log_cb n s).
Proof.
  revert s. induction n as [|n IH]; intros s Hs; simpl; [exact Hs|].
  assert (Ht : preserves (keeps (depths_inv self)) (loop_test w self))
    by (unfold loop_test; walk depths_leaf).
  specialize (Ht s Hs). destruct (loop_test w self s) as [go s1]. cbn [snd] in Ht.
  destruct go; [|exact Ht]. now apply IH, depths_body.
Qed.

End PathDepth.

(** X13. What depth means. On an object whose depth index holds path
    depths only (a new object's is empty), every entry of the queue at every
    point of a run carries the path depth of its URL: the number of path
    segments it has more than the root, 0 when it has fewer, whatever the
    number of links that led to it. The depth is never negative: the value
    -1 for a foreign host is not queued. *)
Theorem X13_depth_is_path_depth :
  forall (w : World) (self : Config) (progress_cb log_cb : bool) (s : State),
    (forall u d, url_depths s !! u = Some d -> d = path_depth self u) ->
    forall n url depth,
      (url, depth) ∈ q (crawl_rounds w self progress_cb log_cb n
                          (snd (crawl_seed self s))) ->
      depth = path_depth self url /\ 0 <= depth.
Proof.
  intros w self progress_cb log_cb s Hd n url depth Hin.
  assert (H0 : depths_inv self (snd (crawl_seed self s))).
  { destruct (seed_fields self s) as (Hq & _ & Hdep & _). split.
    - intros u d. rewrite Hdep. destruct (decide (u = root self)) as [->|Hne].
      + rewrite lookup_insert_eq. intros [= <-]. unfold path_depth.
        now rewrite String.eqb_refl.
      + rewrite lookup_insert_ne by congruence. apply Hd.
    - rewrite Hq. constructor; [|constructor]. simpl. unfold path_depth.
      now rewrite String.eqb_refl. }
  destruct (depths_rounds w self progress_cb log_cb n _ H0) as [_ Hq].
  rewrite Forall_forall in Hq. specialize (Hq _ Hin). simpl in Hq.
  split; [exact Hq|]. rewrite Hq. apply path_depth_nonneg.
Qed.

Lemma X13_witness :
  let self := capped_config deep_link_site "https://x.test/" 5 in
  let s' := crawl_rounds deep_link_site self true true 1
              (snd (crawl_seed self (new_state self))) in
  q s' = [("https://x.test/a/b/c", 3); ("https://x.test/", 0)]
  /\ path_depth self "https://x.test/a/b/c" = 3.
Proof.
  assert (Hq : q (crawl_rounds deep_link_site
                    (capped_config deep_link_site "https://x.test/" 5) true true 1
                    (snd (crawl_seed (capped_config deep_link_site "https://x.test/" 5)
                            (new_state (capped_config deep_link_site "https://x.test/" 5)))))
               = [("https://x.test/a/b/c", 3); ("https://x.test/", 0)])
    by (vm_compute; reflexivity).
  split; [exact Hq|].
  assert (H0 : forall u d,
    url_depths (new_state (capped_config deep_link_site "https://x.test/" 5)) !! u
      = Some d ->
    d = path_depth (capped_config deep_link_site "https://x.test/" 5) u).
  { intros u d H.
    change (url_depths (new_state (capped_config deep_link_site "https://x.test/" 5)))
      with (∅ : gmap string Z) in H.
    rewrite lookup_empty in H. discriminate H. }
  destruct (X13_depth_is_path_depth deep_link_site
              (capped_config deep_link_site "https://x.test/" 5) true true
              (new_state (capped_config deep_link_site "https://x.test/" 5))
              H0 1 "https://x.test/a/b/c" 3) as [H _].
  - rewrite Hq. apply list_elem_of_here.
  - symmetry. exact H.
Defined.

(** ** The domain and extension filters *)

Section Suffixes.


(** [s.endswith(p)] holds exactly when [s] is [pre + p]. *)
Lemma endswith_spec p s :
  Py.endswith p s = true <-> exists pre, s = pre +:+ p.
Proof.
  split.
  - induction s as [|c s IH]; simpl; intros H.
    + rewrite orb_false_r in H. apply String.eqb_eq in H. subst p. now exists "".
    + apply orb_true_iff in H as [H|H].
      * apply String.eqb_eq in H. subst p. now exists "".
      * destruct (IH H) as [pre ->]. now exists (String c pre).
  - intros [pre ->]. induction pre as [|c pre IH].
    + change ("" +:+ p) with p.
      destruct p; cbn [Py.endswith]; now rewrite String.eqb_refl.
    + change (String c pre +:+ p) with (String c (pre +:+ p)).
      cbn [Py.endswith]. rewrite IH. apply orb_true_r.
Qed.

Lemma startswith_dot a :
  Py.startswith "." a = true -> a = "." +:+ tail_str a.
Proof.
  destruct a as [|c a]; [discriminate|].
  cbn [Py.startswith tail_str]. rewrite andb_true_r. intros H.
  apply Ascii.eqb_eq in H. now subst c.
Qed.

Lemma existsb_elem_of {A} (f : A -> bool) (l : list A) :
  existsb f l = true <-> exists x, x ∈ l /\ f x = true.
Proof.
  rewrite existsb_exists. split; intros (x & Hx & Hf); exists x; split; auto;
    now apply list_elem_of_In.
Qed.

End Suffixes.

(** X14. The domain allow-list. A URL is allowed exactly when the list is
    empty or the lowercased netloc of the URL is one of the listed domains
    or a subdomain of one, each entry being lowercased and stripped first.
    A leading dot on an entry makes no difference: [.example.com] and
    [example.com] allow the same URLs. The netloc is compared as a whole,
    port and user information included. *)
Theorem X14_domain_allow_list :
  forall (self : Config) (url : string),
    _check_domain_allowed self url = true
    <-> (allowed_domains self = []
         \/ exists allowed,
              allowed ∈ allowed_domains self
              /\ host_matches (bare_domain allowed)
                   (Py.lower (Urllib.netloc (Urllib.urlparse url)))).
Proof.
  intros self url. unfold _check_domain_allowed.
  destruct (allowed_domains self) as [|a0 l] eqn:E; [cbn; split; auto|].
  cbn [is_nil]. cbv zeta. rewrite existsb_elem_of.
  set (domain := Py.lower (Urllib.netloc (Urllib.urlparse url))).
  assert (Hentry : forall a,
    (if Py.startswith "." (Py.strip (Py.lower a))
     then Py.endswith (Py.strip (Py.lower a)) domain
          || String.eqb domain (tail_str (Py.strip (Py.lower a)))
     else String.eqb domain (Py.strip (Py.lower a))
          || Py.endswith ("." +:+ Py.strip (Py.lower a)) domain) = true
    <-> host_matches (bare_domain a) domain).
  { intros a. unfold bare_domain, host_matches. cbv zeta.
    destruct (Py.startswith "." (Py.strip (Py.lower a))) eqn:Hdot.
    - rewrite orb_true_iff, String.eqb_eq, endswith_spec.
      pose proof (startswith_dot _ Hdot) as Ha.
      set (t := tail_str (Py.strip (Py.lower a))) in *. clearbody t.
      rewrite Ha. clear. tauto.
    - rewrite orb_true_iff, String.eqb_eq, endswith_spec. tauto. }
  split.
  - intros (a & Ha & H). right. exists a. split; [exact Ha|]. now apply Hentry.
  - intros [H|(a & Ha & H)]; [discriminate|]. exists a. split; [exact Ha|].
    now apply Hentry.
Qed.

(** X15. The path/extension filter. A URL passes exactly when the list is
    empty or the lowercased path of the URL ends with one of the listed
    extensions, or with the extension and a slash; each entry is lowercased
    and stripped first and gets a leading dot when it has none. The query
    string and the fragment play no part. *)
Theorem X15_link_filter :
  forall (self : Config) (url : string),
    _check_link_filter self url = true
    <-> (link_filters self = []
         \/ exists filter_ext pre,
              filter_ext ∈ link_filters self
              /\ (Py.lower (Urllib.path (Urllib.urlparse url))
                  = pre +:+ dotted_ext filter_ext
                  \/ Py.lower (Urllib.path (Urllib.urlparse url))
                     = pre +:+ dotted_ext filter_ext +:+ "/")).
Proof.
  intros self url. unfold _check_link_filter.
  destruct (link_filters self) as [|f0 l] eqn:E.
  { cbn. split; auto. }
  cbn [is_nil]. cbv zeta. rewrite existsb_elem_of.
  set (path := Py.lower (Urllib.path (Urllib.urlparse url))).
  assert (Hentry : forall f,
    Py.endswith
      (if negb (Py.startswith "." (Py.strip (Py.lower f)))
       then "." +:+ Py.strip (Py.lower f) else Py.strip (Py.lower f)) path
    || Py.endswith
         ((if negb (Py.startswith "." (Py.strip (Py.lower f)))
           then "." +:+ Py.strip (Py.lower f) else Py.strip (Py.lower f)) +:+ "/")
         path = true
    <-> exists pre, path = pre +:+ dotted_ext f \/ path = pre +:+ dotted_ext f +:+ "/").
  { intros f. unfold dotted_ext. cbv zeta.
    destruct (Py.startswith "." (Py.strip (Py.lower f))); cbn [negb];
      rewrite orb_true_iff, !endswith_spec; split.
    all: try (intros [[pre H]|[pre H]]; exists pre; auto).
    all: intros [pre [H|H]]; [left|right]; now exists pre. }
  split.
  - intros (f & Hf & H). right. apply Hentry in H as [pre H]. now exists f, pre.
  - intros [H|(f & pre & Hf & H)]; [discriminate|]. exists f. split; [exact Hf|].
    apply Hentry. now exists pre.
Qed.

(** ** Links of other schemes *)

Section ForeignSchemes.

Lemma urlparse_default_scheme d url :
  Urllib.scheme (Urllib.urlparse url) <> "" ->
  Urllib.scheme (Urllib.urlparse_default d url) = Urllib.scheme (Urllib.urlparse url).
Proof.
  unfold Urllib.urlparse, Urllib.urlparse_default.
  change (Urllib.remove_unsafe (Py.strip_by Urllib.c0_or_space "")) with "".
  generalize (Urllib.remove_unsafe (Py.strip_by Urllib.c0_or_space d)).
  generalize (Urllib.remove_unsafe (Py.lstrip_by Urllib.c0_or_space url)).
  intros u d'. unfold Urllib.split_scheme.
  destruct u as [|c0 u'].
  { cbn. intros H. now destruct H. }
  destruct (Py.mem ":" (String c0 u') && _ && _ && _).
  - destruct (Urllib.split_netloc _). reflexivity.
  - destruct (Urllib.split_netloc _). cbn. intros H. now destruct H.
Qed.

(** A URL with a scheme of its own, other than the base's, is not joined. *)
Lemma urljoin_foreign base url :
  Urllib.scheme (Urllib.urlparse url) <> "" ->
  Urllib.scheme (Urllib.urlparse url) <> Urllib.scheme (Urllib.urlparse base) ->
  Urllib.urljoin base url = url.
Proof.
  intros Hs Hne. unfold Urllib.urljoin.
  destruct (Py.is_empty base); [reflexivity|].
  destruct url as [|c url']; [now destruct Hs|]. cbn [Py.is_empty]. cbv zeta.
  rewrite (urlparse_default_scheme _ _ Hs).
  destruct (String.eqb_spec (Urllib.scheme (Urllib.urlparse (String c url')))
              (Urllib.scheme (Urllib.urlparse base))) as [E|_]; [contradiction|].
  reflexivity.
Qed.

End ForeignSchemes.

(** X16. Links of other schemes are dropped. With [urljoin] the library's
    and a base URL of scheme [http] or [https], an [href] that, stripped,
    has a scheme of its own other than [http] and [https] ([mailto:],
    [javascript:], [tel:], [ftp:], ...) is normalized to [None]. *)
Theorem X16_foreign_scheme_dropped :
  forall (w : World) (base_url href : string),
    urljoin w = Urllib.urljoin ->
    Urllib.scheme (Urllib.urlparse base_url) ∈ ALLOWED_SCHEMES ->
    Urllib.scheme (Urllib.urlparse (Py.strip href)) <> "" ->
    Urllib.scheme (Urllib.urlparse (Py.strip href)) ∉ ALLOWED_SCHEMES ->
    normalize_link w base_url href = None.
Proof.
  intros w base_url href Hw Hb Hs Hn. unfold normalize_link.
  destruct (Py.is_empty href); [reflexivity|]. cbv zeta. rewrite Hw.
  rewrite urljoin_foreign; [|exact Hs|intros E; now rewrite E in Hn].
  destruct (Py.str_in _ ALLOWED_SCHEMES) eqn:E; [|reflexivity].
  apply str_in_spec in E. contradiction.
Qed.

Lemma X16_witness :
  normalize_link endless_site "https://x.test/contact" " mailto:someone@x.test" = None.
Proof.
  assert (Eb : Urllib.scheme (Urllib.urlparse "https://x.test/contact") = "https")
    by reflexivity.
  assert (Eh : Urllib.scheme (Urllib.urlparse (Py.strip " mailto:someone@x.test"))
               = "mailto") by reflexivity.
  apply X16_foreign_scheme_dropped.
  - reflexivity.
  - rewrite Eb. apply list_elem_of_further, list_elem_of_here.
  - rewrite Eh. discriminate.
  - rewrite Eh. intros H.
    apply elem_of_cons in H as [H|H]; [discriminate H|].
    apply elem_of_cons in H as [H|H]; [discriminate H|]. inversion H.
Defined.

(** ** The name of a saved page *)

Section FileNames.











End FileNames.


(** ** The lists of the settings dialog *)

Section Lines.

Variable p : ascii -> bool.

Lemma rstrip_by_idem s : Py.rstrip_by p (Py.rstrip_by p s) = Py.rstrip_by p s.
Proof.
  induction s as [|c s IH]; [reflexivity|]. cbn [Py.rstrip_by]. cbv zeta.
  destruct (Py.is_empty (Py.rstrip_by p s) && p c) eqn:E; [reflexivity|].
  cbn [Py.rstrip_by]. cbv zeta. now rewrite IH, E.
Qed.

Lemma rstrip_by_head c s :
  p c = false -> Py.rstrip_by p (String c s) = String c (Py.rstrip_by p s).
Proof. intros H. cbn [Py.rstrip_by]. cbv zeta. now rewrite H, andb_false_r. Qed.

Lemma rstrip_by_app a b :
  Py.rstrip_by p b <> "" -> Py.rstrip_by p (a +:+ b) = a +:+ Py.rstrip_by p b.
Proof.
  intros Hb. induction a as [|c a IH]; [reflexivity|].
  change (String c a +:+ b) with (String c (a +:+ b)).
  cbn [Py.rstrip_by]. cbv zeta. rewrite IH.
  change (String c a +:+ Py.rstrip_by p b) with (String c (a +:+ Py.rstrip_by p b)).
  destruct (a +:+ Py.rstrip_by p b) eqn:E; [|reflexivity].
  destruct a; [|discriminate E]. now destruct Hb.
Qed.

(** What [strip] returns is empty or begins and ends with a character that
    is not stripped. *)
Lemma strip_by_shape s :
  match Py.strip_by p s with
  | EmptyString => True
  | String c _ => p c = false
  end
  /\ Py.rstrip_by p (Py.strip_by p s) = Py.strip_by p s.
Proof.
  unfold Py.strip_by. split; [|apply rstrip_by_idem].
  destruct (Py.lstrip_by p s) as [|c t] eqn:E; [exact I|].
  pose proof (lstrip_head p s c t E) as Hc.
  now rewrite (rstrip_by_head c t Hc).
Qed.

Lemma strip_by_fixed s :
  match s with EmptyString => True | String c _ => p c = false end ->
  Py.rstrip_by p s = s -> Py.strip_by p s = s.
Proof.
  intros Hh Hr. unfold Py.strip_by. destruct s as [|c s]; [reflexivity|].
  cbn [Py.lstrip_by]. now rewrite Hh.
Qed.

Lemma mem_rstrip_by c s : Py.mem c s = false -> Py.mem c (Py.rstrip_by p s) = false.
Proof.
  induction s as [|a s IH]; [reflexivity|]. cbn [Py.mem Py.rstrip_by]. cbv zeta.
  intros H. apply orb_false_iff in H as [Ha Hs].
  destruct (_ && _); [reflexivity|]. cbn [Py.mem]. now rewrite Ha, IH.
Qed.

End Lines.

Section Split.

Variable c : ascii.

Lemma split_no_sep s : Forall (fun x => Py.mem c x = false) (Py.split c s).
Proof.
  induction s as [|a s IH]; [repeat constructor|]. cbn [Py.split].
  destruct (Ascii.eqb a c) eqn:E; [constructor; [reflexivity|exact IH]|].
  destruct (Py.split c s) as [|h t]; [repeat constructor; cbn; now rewrite E|].
  apply Forall_cons in IH as [Hh Ht]. constructor; [|exact Ht].
  cbn [Py.mem]. now rewrite E, Hh.
Qed.

Lemma split_one x : Py.mem c x = false -> Py.split c x = [x].
Proof.
  induction x as [|a x IH]; [reflexivity|]. cbn [Py.mem Py.split]. intros H.
  apply orb_false_iff in H as [Ha Hx]. now rewrite Ha, (IH Hx).
Qed.

Lemma split_app x rest :
  Py.mem c x = false ->
  Py.split c (x +:+ String c rest) = x :: Py.split c rest.
Proof.
  induction x as [|a x IH]; intros H.
  - change ("" +:+ String c rest) with (String c rest). cbn [Py.split].
    now rewrite Ascii.eqb_refl.
  - cbn [Py.mem] in H. apply orb_false_iff in H as [Ha Hx].
    change (String a x +:+ String c rest) with (String a (x +:+ String c rest)).
    cbn [Py.split]. now rewrite Ha, (IH Hx).
Qed.

End Split.

Section Settings.

Lemma join_lines_cons x y rest :
  join_lines (x :: y :: rest) = x +:+ String LF (join_lines (y :: rest)).
Proof. reflexivity. Qed.

Lemma split_join_lines l :
  l <> [] -> Forall (fun x => Py.mem LF x = false) l ->
  Py.split LF (join_lines l) = l.
Proof.
  induction l as [|x [|y rest] IH]; intros Hne Hl; [contradiction| |].
  - apply Forall_cons in Hl as [Hx _]. now apply split_one.
  - apply Forall_cons in Hl as [Hx Hl]. rewrite join_lines_cons.
    rewrite split_app by exact Hx. f_equal. now apply IH.
Qed.

Lemma join_lines_head x rest :
  match x with EmptyString => False | String c _ => Py.isspace c = false end ->
  match join_lines (x :: rest) with
  | EmptyString => False
  | String c _ => Py.isspace c = false
  end.
Proof.
  destruct rest as [|y rest]; [auto|]. rewrite join_lines_cons.
  destruct x as [|c x]; [contradiction|]. auto.
Qed.

Lemma join_lines_rstrip l :
  l <> [] -> Forall clean_entry l ->
  Py.rstrip_by Py.isspace (join_lines l) = join_lines l /\ join_lines l <> "".
Proof.
  induction l as [|x [|y rest] IH]; intros Hne Hl; [contradiction| |].
  - apply Forall_cons in Hl as [(Hh & Hr & _) _]. split; [exact Hr|].
    destruct x; [contradiction|discriminate].
  - apply Forall_cons in Hl as [(Hh & Hr & _) Hl]. rewrite join_lines_cons.
    destruct (IH ltac:(discriminate) Hl) as [Hj Hn].
    assert (Hlf : Py.rstrip_by Py.isspace (String LF (join_lines (y :: rest)))
                  = String LF (join_lines (y :: rest))).
    { cbn [Py.rstrip_by]. cbv zeta. rewrite Hj.
      destruct (join_lines (y :: rest)); [now destruct Hn|reflexivity]. }
    split.
    + rewrite rstrip_by_app; rewrite Hlf; [reflexivity|discriminate].
    + destruct x; [contradiction|discriminate].
Qed.

Lemma clean_entry_fixed x : clean_entry x -> Py.strip x = x /\ Py.is_empty x = false.
Proof.
  intros (Hh & Hr & _). split.
  - apply strip_by_fixed; [destruct x; auto|exact Hr].
  - destruct x; [contradiction|reflexivity].
Qed.

Lemma parse_lines_clean text : Forall clean_entry (parse_lines text).
Proof.
  unfold parse_lines. apply Forall_map.
  pose proof (split_no_sep LF (Py.strip text)) as Hs.
  induction Hs as [|d l Hd _ IH]; [constructor|]. cbn [List.filter].
  destruct (Py.is_empty (Py.strip d)) eqn:E; cbn [negb]; [exact IH|].
  constructor; [|exact IH].
  destruct (strip_by_shape Py.isspace d) as [Hh Hr]. fold (Py.strip d) in Hh, Hr.
  split; [|split].
  - destruct (Py.strip d); [discriminate E|exact Hh].
  - exact Hr.
  - unfold Py.strip, Py.strip_by. now apply mem_rstrip_by, mem_lstrip.
Qed.

Lemma parse_join_lines l : Forall clean_entry l -> parse_lines (join_lines l) = l.
Proof.
  intros Hl. destruct l as [|x rest]; [reflexivity|].
  assert (Hne : x :: rest <> []) by discriminate.
  destruct (join_lines_rstrip _ Hne Hl) as [Hr _].
  assert (Hstrip : Py.strip (join_lines (x :: rest)) = join_lines (x :: rest)).
  { apply strip_by_fixed; [|exact Hr].
    pose proof (join_lines_head x rest) as Hh.
    apply Forall_cons in Hl as [(Hx & _) _]. specialize (Hh Hx).
    destruct (join_lines (x :: rest)); [contradiction|exact Hh]. }
  unfold parse_lines. rewrite Hstrip, split_join_lines; [|exact Hne|].
  2:{ eapply Forall_impl; [exact Hl|]. intros y (_ & _ & Hy). exact Hy. }
  clear Hne Hr Hstrip. induction Hl as [|y l Hy _ IH]; [reflexivity|].
  destruct (clean_entry_fixed y Hy) as [Hs He].
  cbn [List.filter]. rewrite Hs, He. cbn [negb map]. now rewrite Hs, IH.
Qed.

End Settings.

(** X18. Opening the settings and saving them again changes no list. The
    entries [save_settings] stores for any text are not empty, have no
    blank at either end and hold no line feed; and a list of such entries
    shown one a line by [on_settings] is read back as the same list. So
    reading back what was stored gives what was stored. *)
Theorem X18_settings_lines_round_trip :
  forall (text : string),
    Forall clean_entry (parse_lines text)
    /\ parse_lines (join_lines (parse_lines text)) = parse_lines text
    /\ forall entries,
         Forall clean_entry entries -> parse_lines (join_lines entries) = entries.
Proof.
  intros text. split; [apply parse_lines_clean|]. split.
  - apply parse_join_lines, parse_lines_clean.
  - apply parse_join_lines.
Qed.

(** ** Requests per URL *)

Section RequestCount.

Variable w : World.
Variable self : Config.
Variable progress_cb log_cb : bool.

Lemma fetch_attempts_count url attempts s :
  (length (requests (trace (snd (fetch_attempts w self url log_cb attempts s))))
   <= length (requests (trace s)) + length attempts)%nat.
Proof.
  revert s. induction attempts as [|attempt rest IH]; intros s; [simpl; lia|].
  rewrite fetch_attempts_cons, !bind_run.
  match goal with |- context [snd (?m s)] =>
    assert (H1 : requests (trace (snd (m s))) = requests (trace s))
      by (destruct (_ && _); reflexivity);
    generalize dependent (snd (m s)); intros s1 H1 end.
  match goal with |- context [snd (?m s1)] =>
    assert (H2 : requests (trace (snd (m s1))) = requests (trace s1))
      by (destruct (_ >? _); [apply requests_log|reflexivity]);
    generalize dependent (snd (m s1)); intros s2 H2 end.
  unfold tick at 1 2. cbn [fst snd].
  set (s3 := snd (emit (EvGet url) (set_clock (S (clock s2)) s2))).
  assert (H3 : requests (trace s3) = requests (trace s2) ++ [url])
    by (subst s3; simpl; now rewrite requests_snoc).
  clearbody s3.
  assert (Hlen : length (requests (trace s3)) = S (length (requests (trace s)))).
  { rewrite H3, length_app, H2, H1. simpl. lia. }
  cbn [length].
  destruct (session_get w (clock s2) url); [cbn [ret snd]; lia|].
  destruct (attempt <? max_retries self); cbv zeta.
  - rewrite !bind_run.
    match goal with |- context [fetch_attempts w self url log_cb rest ?s4] =>
      specialize (IH s4);
      assert (H4 : requests (trace s4) = requests (trace s3))
        by (unfold sleep; cbn [emit modify snd trace set_trace];
            rewrite requests_snoc, app_nil_r; apply requests_log)
    end.
    rewrite H4 in IH. lia.
  - rewrite bind_run. cbn [ret snd]. rewrite requests_log. lia.
Qed.

(** A visit makes requests for its own URL only, and no more of them than
    the limit. *)
Lemma visit_request_count url depth s :
  exists tr,
    trace (snd (visit w self progress_cb log_cb url depth s)) = trace s ++ tr
    /\ Forall (request_of url) tr
    /\ (length (requests tr) <= request_limit self)%nat.
Proof.
  assert (Hg : grows (request_of url) s (snd (visit w self progress_cb log_cb url depth s))).
  { destruct (visit_requests w self progress_cb log_cb url depth s) as [H|[H _]];
      [|exact H]. eapply grows_weaken; [|exact H]. intros e He. now left. }
  destruct Hg as (tr & Ht & HF). exists tr. split; [exact Ht|]. split; [exact HF|].
  assert (Hn : (length (requests (trace (snd (visit w self progress_cb log_cb url depth s))))
                <= length (requests (trace s)) + request_limit self)%nat).
  { clear tr Ht HF. unfold visit.
    assert (Hlog : forall msg s0,
      requests (trace s0) = requests (trace s) ->
      (length (requests (trace (snd (log log_cb msg s0))))
       <= length (requests (trace s)) + request_limit self)%nat).
    { intros msg s0 H. rewrite requests_log, H. lia. }
    destruct (_ && _); [now apply Hlog|].
    rewrite bind_run. pose proof (requests_can_fetch w self url s) as H1.
    destruct (_can_fetch w self url s) as [allowed s1]. cbn [fst snd] in *.
    destruct (negb allowed); [now apply Hlog|].
    destruct (negb (_check_domain_allowed _ _)); [now apply Hlog|].
    destruct (negb (_check_link_filter _ _)); [now apply Hlog|].
    destruct (negb (_check_keyword_filters _ _)); [now apply Hlog|].
    rewrite bind_run.
    match goal with |- context [snd (?m s1)] =>
      assert (H2 : requests (trace (snd (m s1))) = requests (trace s1))
        by (apply grows_quiet; destruct (negb _);
            [apply grows_set_proxy|reflexivity]);
      generalize dependent (snd (m s1)); intros s2 H2 end.
    rewrite bind_run.
    pose proof (requests_log log_cb (LogGet url depth) s2) as H3.
    generalize dependent (snd (log log_cb (LogGet url depth) s2)). intros s3 H3.
    rewrite bind_run. unfold _fetch_with_retry.
    pose proof (fetch_attempts_count url (Py.range (max_retries self + 1)) s3) as H4.
    assert (Hr : length (Py.range (max_retries self + 1)) = request_limit self)
      by (unfold Py.range, request_limit; now rewrite length_map, length_seq).
    rewrite Hr, H3, H2, H1 in H4.
    destruct (fetch_attempts w self url log_cb _ s3) as [[html|] s4];
      cbn [fst snd] in *; [|exact H4].
    now rewrite (grows_quiet _ _ (grows_process_page w self progress_cb url html s4)). }
  rewrite Ht, requests_app, length_app in Hn. lia.
Qed.

Lemma times_requested_app u s s' tr :
  trace s' = trace s ++ tr ->
  times_requested u s'
  = (times_requested u s + count_occ String.string_dec (requests tr) u)%nat.
Proof.
  intros H. unfold times_requested. now rewrite H, requests_app, count_occ_app.
Qed.

Lemma requests_bounded_body s :
  enqueue_inv s -> crawl_inv self s -> requests_inv self s ->
  requests_bounded self s ->
  requests_bounded self (snd (crawl_body w self progress_cb log_cb s)).
Proof.
  intros He Hc Hr Hb.
  assert (He' : enqueue_inv (snd (crawl_body w self progress_cb log_cb s))).
  { apply (preserves_crawl_body w self progress_cb log_cb (keeps enqueue_inv));
      [apply queue_link_enqueue|intros v s0 H; exact H|intros v s0 H; exact H|exact He]. }
  destruct He as [Hnd _], He' as [Hnd' _]. destruct Hc as (Hsub & _).
  destruct (q s) as [|[url depth] rest] eqn:Eq.
  { unfold crawl_body. rewrite bind_run. unfold gets. cbn [fst snd]. rewrite Eq.
    cbn [ret snd]. intros u. destruct (Hb u) as [H1 _]. split; [exact H1|].
    rewrite Eq. intros Hin. inversion Hin. }
  assert (Hstep : exists new,
    q (snd (crawl_body w self progress_cb log_cb s)) = rest ++ new
    /\ puts (trace (snd (crawl_body w self progress_cb log_cb s)))
       = puts (trace s) ++ map fst new).
  { destruct (crawl_body_step w self progress_cb log_cb url depth rest s Eq)
      as [(_ & Hq' & Hp & _)|(html & new & _ & Hq' & Hp & _)].
    - exists []. rewrite Hq', Hp, !app_nil_r. auto.
    - exists new. auto. }
  destruct Hstep as (new & Hq' & Hp').
  assert (Hbody : snd (crawl_body w self progress_cb log_cb s)
                  = snd (visit w self progress_cb log_cb url depth (set_q rest s))).
  { unfold crawl_body. rewrite bind_run. unfold gets. cbn [fst snd].
    rewrite Eq. rewrite bind_run. reflexivity. }
  destruct (visit_request_count url depth (set_q rest s)) as (tr & Ht & HF & Hlen).
  rewrite <- Hbody in Ht. cbn [trace set_q] in Ht.
  assert (Hurl : url ∈ puts (trace s)).
  { eapply elem_of_sublist; [|exact Hsub]. apply elem_of_app. right.
    simpl. apply list_elem_of_here. }
  assert (Hndq : NoDup (url :: map fst rest)).
  { pose proof (sublist_NoDup _ _ Hnd Hsub) as H0.
    apply NoDup_app in H0 as (_ & _ & H). exact H. }
  apply NoDup_cons in Hndq as [Hurl_rest _].
  assert (Hother : forall u, u <> url -> u ∉ requests tr).
  { intros u Hu Hin. apply Hu. eapply requests_of; eauto. }
  rewrite Hp' in Hnd'. apply NoDup_app in Hnd' as (_ & Hnew & _).
  intros u. split.
  - rewrite (times_requested_app u _ _ tr Ht).
    destruct (decide (u = url)) as [->|Hne].
    + destruct (Hb url) as [_ Hq]. rewrite Eq in Hq.
      specialize (Hq (list_elem_of_here _ _)).
      unfold times_requested. rewrite (proj1 (count_occ_not_In _ _ _)).
      * pose proof (count_occ_bound String.string_dec url (requests tr)). lia.
      * intros Hin. apply Hq. now apply list_elem_of_In.
    + rewrite (proj1 (count_occ_not_In _ (requests tr) u)).
      * destruct (Hb u) as [H _]. lia.
      * intros Hin. apply (Hother u Hne). now apply list_elem_of_In.
  - rewrite Hq', map_app, Ht, requests_app, !elem_of_app.
    intros [Hin|Hin] [Hreq|Hreq].
    + destruct (Hb u) as [_ Hq]. apply Hq; [|exact Hreq]. rewrite Eq. simpl.
      now apply list_elem_of_further.
    + apply (Hother u); [|exact Hreq]. intros ->. contradiction.
    + apply (Hnew u); [|exact Hin]. now apply Hr.
    + apply (Hother u); [|exact Hreq]. intros ->. apply (Hnew url); assumption.
Qed.

Lemma requests_bounded_rounds n s :
  enqueue_inv s -> crawl_inv self s -> requests_inv self s ->
  requests_bounded self s ->
  requests_bounded self (crawl_rounds w self progress_cb log_cb n s).
Proof.
  revert s. induction n as [|n IH]; intros s He Hc Hr Hb; simpl; [exact Hb|].
  pose proof (loop_test_spec w self s) as Ht.
  pose proof (grows_loop_test w self s) as Hg.
  destruct (loop_test w self s) as [go s1]. cbn [fst snd] in *.
  destruct Ht as [(Hseen & Hrows & _ & Hq & Hp) _].
  pose proof (grows_quiet _ _ Hg) as Hreq.
  assert (He1 : enqueue_inv s1) by (unfold enqueue_inv; now rewrite Hp, Hseen).
  assert (Hc1 : crawl_inv self s1) by (unfold crawl_inv; now rewrite Hrows, Hq, Hp).
  assert (Hr1 : requests_inv self s1).
  { intros u. rewrite Hreq, Hp. apply Hr. }
  assert (Hb1 : requests_bounded self s1).
  { intros u. unfold times_requested. rewrite Hreq, Hq. apply Hb. }
  destruct go; [|exact Hb1]. apply IH.
  - apply (preserves_crawl_body w self progress_cb log_cb (keeps enqueue_inv));
      [apply queue_link_enqueue|intros v s0 H; exact H|intros v s0 H; exact H|exact He1].
  - now apply crawl_inv_body.
  - now apply requests_inv_body.
  - now apply requests_bounded_body.
Qed.

End RequestCount.

(** X19. In a run observed from its start and started without records, no
    URL is requested more than [max_retries + 1] times, retries included:
    each URL is fetched by one call of [_fetch_with_retry] at most. *)
Theorem X19_requests_per_url :
  forall (w : World) (self : Config) (progress_cb log_cb : bool) (s : State),
    trace s = [] -> rows s = [] ->
    forall n u,
      (times_requested u
         (crawl_rounds w self progress_cb log_cb n (snd (crawl_seed self s)))
       <= Z.to_nat (max_retries self + 1))%nat.
Proof.
  intros w self progress_cb log_cb s Ht Hrows n u.
  apply (requests_bounded_rounds w self progress_cb log_cb n (snd (crawl_seed self s))).
  - now apply enqueue_inv_seed.
  - now apply crawl_inv_seed.
  - intros x. destruct (seed_fields self s) as (_ & _ & _ & _ & ->).
    rewrite Ht. simpl. intros Hx. inversion Hx.
  - intros x. destruct (seed_fields self s) as (_ & _ & _ & _ & Hts).
    unfold times_requested. rewrite Hts, Ht. simpl. split; [lia|].
    intros _ Hx. inversion Hx.
Qed.

Lemma X19_witness :
  let self := retry_config flaky_site "https://x.test/" in
  let s' := crawl_rounds flaky_site self true true 4
              (snd (crawl_seed self (new_state self))) in
  times_requested "https://x.test/bad" s' = 3%nat
  /\ (times_requested "https://x.test/bad" s' <= Z.to_nat (max_retries self + 1))%nat.
Proof.
  split; [vm_compute; reflexivity|].
  apply (X19_requests_per_url flaky_site (retry_config flaky_site "https://x.test/")
           true true (new_state (retry_config flaky_site "https://x.test/"))
           eq_refl eq_refl 4 "https://x.test/bad").
Defined.

(** ** The session *)

#[export] Instance session_kept_preorder self : PreOrder (session_kept self).
Proof.
  split.
  - intros s. repeat split; auto.
  - intros s1 s2 s3 (Hk1 & Hu1 & Hr1) (Hk2 & Hu2 & Hr2).
    split; [|split].
    + intros k Hk. rewrite Hk2, Hk1; auto.
    + destruct Hu2 as [Hu2|Hu2]; [|now right]. rewrite Hu2. exact Hu1.
    + intros H. rewrite Hr2, Hr1; auto.
Qed.

Section SessionKept.

Variable w : World.
Variable self : Config.
Variable progress_cb log_cb : bool.

Lemma session_kept_modify (f : State -> State) :
  (forall s, Session.headers (session (f s)) = Session.headers (session s)) ->
  preserves (session_kept self) (modify f).
Proof.
  intros H s. unfold session_kept. simpl. rewrite H. repeat split; auto.
Qed.

Lemma session_kept_tick : preserves (session_kept self) tick.
Proof. intros s. unfold session_kept. simpl. repeat split; auto. Qed.

Lemma random_user_agent_listed t : random_user_agent w t ∈ USER_AGENTS.
Proof.
  unfold random_user_agent. apply list_elem_of_In, nth_In.
  apply Nat.mod_upper_bound. discriminate.
Qed.

Lemma session_kept_user_agent t :
  randomize_ua self = true ->
  preserves (session_kept self)
    (modify (fun s => set_session
       (Session.mk (<["User-Agent" := random_user_agent w t]>
                      (Session.headers (session s)))
                   (Session.cookies (session s)) (Session.proxies (session s))) s)).
Proof.
  intros Hua s. unfold session_kept. simpl. split; [|split].
  - intros k Hk. rewrite lookup_insert_ne; [reflexivity|].
    intros <-. now apply Hk.
  - right. exists (random_user_agent w t). split; [apply random_user_agent_listed|].
    apply lookup_insert_eq.
  - congruence.
Qed.

Ltac session_leaf :=
  first [ apply session_kept_tick
        | apply session_kept_modify; intros; reflexivity ].

Lemma session_kept_fetch_attempts url attempts :
  preserves (session_kept self) (fetch_attempts w self url log_cb attempts).
Proof.
  induction attempts as [|attempt rest IH]; [simpl; walk session_leaf|].
  rewrite fetch_attempts_cons.
  apply preserves_bind; [apply _| |intros _].
  - destruct (randomize_ua self) eqn:Hua; cbn [andb]; [|walk session_leaf].
    destruct (attempt >? 0); [|walk session_leaf].
    apply preserves_bind; [apply _|apply session_kept_tick|intros t].
    now apply session_kept_user_agent.
  - walk session_leaf.
Qed.

Lemma session_kept_visit url depth :
  preserves (session_kept self) (visit w self progress_cb log_cb url depth).
Proof.
  assert (Hq : forall u hrefs,
    preserves (session_kept self) (queue_links w self u hrefs)).
  { intros u hrefs. induction hrefs as [|href rest IH]; simpl; [walk session_leaf|].
    unfold queue_link, _get_url_depth. walk session_leaf. }
  pose proof (session_kept_fetch_attempts url) as Hf.
  unfold visit, _fetch_with_retry, process_page, _can_fetch, _get_robots_parser,
    _set_proxy, _get_delay.
  walk session_leaf.
Qed.

Lemma session_kept_rounds n s :
  session_kept self s (crawl_rounds w self progress_cb log_cb n s).
Proof.
  revert s. induction n as [|n IH]; intros s; simpl; [reflexivity|].
  assert (Ht : preserves (session_kept self) (loop_test w self))
    by (unfold loop_test; walk session_leaf).
  specialize (Ht s). destruct (loop_test w self s) as [go s1]. cbn [snd] in Ht.
  destruct go; [|exact Ht].
  etransitivity; [exact Ht|]. etransitivity; [|apply IH].
  unfold crawl_body. rewrite bind_run. unfold gets. cbn [fst snd].
  destruct (q s1) as [|[url depth] rest]; [reflexivity|].
  rewrite bind_run. unfold modify. cbn [fst snd].
  etransitivity; [|apply (session_kept_visit url depth)].
  repeat split; auto.
Qed.

End SessionKept.

(** X20. The headers a run sends. At every point of a run, every header
    of the session whose name differs from [User-Agent], also when case is
    ignored, has the value it started with. The [User-Agent] header is the
    one the run started with or one of [USER_AGENTS], and with
    [randomize_ua] off no header changes at all. *)
Theorem X20_session_headers_kept :
  forall (w : World) (self : Config) (progress_cb log_cb : bool) (s : State)
         (n : nat),
    let s' := crawl_rounds w self progress_cb log_cb n (snd (crawl_seed self s)) in
    (forall k, Py.lower k <> "user-agent" ->
       Session.headers (session s') !! k = Session.headers (session s) !! k)
    /\ (Session.headers (session s') !! "User-Agent"
        = Session.headers (session s) !! "User-Agent"
        \/ exists ua, ua ∈ USER_AGENTS
             /\ Session.headers (session s') !! "User-Agent" = Some ua)
    /\ (randomize_ua self = false ->
        Session.headers (session s') = Session.headers (session s)).
Proof.
  intros w self progress_cb log_cb s n s'.
  exact (session_kept_rounds w self progress_cb log_cb n (snd (crawl_seed self s))).
Qed.

(** ** The progress callback *)

#[export] Instance reported_preorder w : PreOrder (reported w).
Proof.
  split.
  - intros s. exists [], []. rewrite !app_nil_r. repeat split. constructor.
  - intros s1 s2 s3 (r1 & c1 & Hr1 & Hc1 & H1) (r2 & c2 & Hr2 & Hc2 & H2).
    exists (r1 ++ r2), (c1 ++ c2).
    rewrite Hr2, Hr1, Hc2, Hc1, <- !app_assoc. repeat split.
    now apply Forall2_app.
Qed.

#[export] Instance unreported_preorder : PreOrder unreported.
Proof.
  split.
  - intros s. split; reflexivity.
  - intros s1 s2 s3 [H1 H2] [H3 H4]. split; congruence.
Qed.

Lemma progress_calls_app t1 t2 :
  progress_calls (t1 ++ t2) = progress_calls t1 ++ progress_calls t2.
Proof. unfold progress_calls. apply omap_app. Qed.

Lemma unreported_reported w s s' : unreported s s' -> reported w s s'.
Proof.
  intros [Hr Ht]. exists [], []. rewrite Hr, Ht, !app_nil_r. repeat split. constructor.
Qed.

Section Progress.

Variable w : World.
Variable self : Config.
Variable log_cb : bool.

Lemma unreported_kept (f : State -> State) :
  (forall s, rows (f s) = rows s /\ trace (f s) = trace s) ->
  preserves unreported (modify f).
Proof. intros H s. destruct (H s) as [H1 H2]. split; simpl; congruence. Qed.

Lemma unreported_tick : preserves unreported tick.
Proof. intros s. split; reflexivity. Qed.

Lemma unreported_emit e : progress_of e = None -> preserves unreported (emit e).
Proof.
  intros H s. split; [reflexivity|]. simpl. rewrite progress_calls_app. simpl.
  unfold progress_calls. simpl. rewrite H. apply app_nil_r.
Qed.

Ltac unreported_leaf :=
  first [ apply unreported_tick
        | apply unreported_emit; reflexivity
        | apply unreported_kept; intros; split; reflexivity ].

Lemma unreported_queue_links url hrefs :
  preserves unreported (queue_links w self url hrefs).
Proof.
  induction hrefs as [|href rest IH]; simpl; [walk unreported_leaf|].
  unfold queue_link, _get_url_depth. walk unreported_leaf.
Qed.

Ltac reported_leaf :=
  apply unreported_reported;
  match goal with |- unreported ?s (snd (?m ?s)) =>
    revert s; change (preserves unreported m); unreported_leaf end.

(** A fetched page: one record and one call that reports it. *)
Lemma reported_process_page url html :
  preserves (reported w) (process_page w self true url html).
Proof.
  intros s. unfold process_page. cbv zeta.
  rewrite bind_run. unfold modify at 1. cbn [fst snd].
  set (r := Row.mk _ _ url).
  assert (H1 : rows (set_rows (rows s ++ [r]) s) = rows s ++ [r]
               /\ trace (set_rows (rows s ++ [r]) s) = trace s) by (split; reflexivity).
  generalize dependent (set_rows (rows s ++ [r]) s). intros s1 [Hr1 Ht1].
  rewrite bind_run.
  match goal with |- context [snd (emit ?e s1)] =>
    assert (H2 : rows (snd (emit e s1)) = rows s1
                 /\ progress_calls (trace (snd (emit e s1)))
                    = progress_calls (trace s1) ++ [(Row.title r, html)])
      by (split; [reflexivity|]; simpl; now rewrite progress_calls_app);
    generalize dependent (snd (emit e s1)) end.
  intros s2 [Hr2 Ht2]. cbv beta.
  assert (H3 : preserves unreported
    (queue_links w self url (soup_hrefs (BeautifulSoup w html)) ;;
     delay <- _get_delay w self ;; sleep delay)).
  { pose proof (unreported_queue_links url). unfold _get_delay. walk unreported_leaf. }
  destruct (H3 s2) as [Hr3 Ht3].
  exists [r], [(Row.title r, html)]. rewrite Hr3, Ht3, Hr2, Ht2, Hr1, Ht1.
  split; [reflexivity|]. split; [reflexivity|].
  constructor; [|constructor]. split; reflexivity.
Qed.

Lemma reported_visit url depth :
  preserves (reported w) (visit w self true log_cb url depth).
Proof.
  assert (Hf : forall attempts,
    preserves unreported (fetch_attempts w self url log_cb attempts)).
  { induction attempts as [|attempt rest IH]; simpl; walk unreported_leaf. }
  assert (Hany : forall A (m : M A), preserves unreported m -> preserves (reported w) m).
  { intros A m H s. apply unreported_reported, H. }
  pose proof (reported_process_page url) as Hp.
  unfold visit, _fetch_with_retry.
  repeat (first [preserves_step | progress unfold log]);
    try solve [eauto | apply Hany; unfold _can_fetch, _get_robots_parser, _set_proxy;
                       walk unreported_leaf].
Qed.

Lemma reported_rounds n s :
  reported w s (crawl_rounds w self true log_cb n s).
Proof.
  revert s. induction n as [|n IH]; intros s; simpl; [reflexivity|].
  assert (Ht : preserves unreported (loop_test w self))
    by (unfold loop_test; walk unreported_leaf).
  specialize (Ht s). apply (unreported_reported w) in Ht.
  destruct (loop_test w self s) as [go s1]. cbn [snd] in Ht.
  destruct go; [|exact Ht].
  etransitivity; [exact Ht|]. etransitivity; [|apply IH].
  unfold crawl_body. rewrite bind_run. unfold gets. cbn [fst snd].
  destruct (q s1) as [|[url depth] rest]; [reflexivity|].
  rewrite bind_run. unfold modify. cbn [fst snd].
  etransitivity; [|apply (reported_visit url depth)].
  apply unreported_reported. split; reflexivity.
Qed.

End Progress.

(** X21. The progress callback. In a run with a [progress_cb], observed
    from its start and started without records, the callback has been
    called exactly once for every record, in the order of the records, each
    time with the title of the record and the HTML the record was made
    of. *)
Theorem X21_progress_reports_records :
  forall (w : World) (self : Config) (log_cb : bool) (s : State),
    trace s = [] -> rows s = [] ->
    forall n,
      let s' := crawl_rounds w self true log_cb n (snd (crawl_seed self s)) in
      Forall2 (reports w) (progress_calls (trace s')) (rows s')
      /\ map fst (progress_calls (trace s')) = map Row.title (rows s').
Proof.
  intros w self log_cb s Ht Hrows n s'.
  destruct (reported_rounds w self log_cb n (snd (crawl_seed self s)))
    as (new_rows & new_calls & H1 & H2 & H3).
  destruct (seed_fields self s) as (_ & _ & _ & Hr0 & Ht0).
  assert (HF : Forall2 (reports w) (progress_calls (trace s')) (rows s')).
  { subst s'. rewrite H1, H2, Hr0, Ht0, Hrows, Ht. exact H3. }
  split; [exact HF|].
  induction HF as [|c r cs rs [_ Hc] _ IH]; [reflexivity|].
  simpl. now rewrite Hc, IH.
Qed.

Lemma X21_witness :
  let self := capped_config endless_site "https://x.test/" 2 in
  let s' := crawl_rounds endless_site self true true 3
              (snd (crawl_seed self (new_state self))) in
  progress_calls (trace s')
  = [("Page", "https://x.test"); ("Page", "https://x.test/a/")]
  /\ map fst (progress_calls (trace s')) = map Row.title (rows s').
Proof.
  split; [vm_compute; reflexivity|].
  apply (X21_progress_reports_records endless_site
           (capped_config endless_site "https://x.test/" 2) true
           (new_state (capped_config endless_site "https://x.test/" 2))
           eq_refl eq_refl 3).
Defined.

(** ** The depth limit *)

Section DepthLimit.

Variable w : World.
Variable self : Config.
Variable progress_cb log_cb : bool.

Lemma rows_within_body s :
  0 <= max_depth self ->
  depths_inv self s -> crawl_inv self s -> rows_within self s ->
  rows_within self (snd (crawl_body w self progress_cb log_cb s)).
Proof.
  intros Hmax [_ Hd] (_ & Hw & _) Hr.
  destruct (q s) as [|[url depth] rest] eqn:Eq.
  { unfold crawl_body. rewrite bind_run. unfold gets. cbn [fst snd]. now rewrite Eq. }
  apply Forall_cons in Hd as [Hd _]. apply Forall_cons in Hw as [Hw _].
  simpl in Hd, Hw. unfold depth_within in Hw.
  destruct (crawl_body_step w self progress_cb log_cb url depth rest s Eq)
    as [(Hrows & _)|(html & new & Hrows & _)]; unfold rows_within; rewrite Hrows;
    [exact Hr|].
  apply Forall_app. split; [exact Hr|]. constructor; [|constructor].
  simpl. rewrite <- Hd.
  assert (Hge : (max_depth self >=? 0) = true) by (apply Z.geb_le; lia).
  rewrite Hge in Hw. simpl in Hw. rewrite Z.gtb_ltb in Hw. apply Z.ltb_ge in Hw. lia.
Qed.

Lemma rows_within_rounds n s :
  0 <= max_depth self ->
  depths_inv self s -> crawl_inv self s -> rows_within self s ->
  rows_within self (crawl_rounds w self progress_cb log_cb n s).
Proof.
  intros Hmax. revert s. induction n as [|n IH]; intros s Hd Hc Hr; simpl; [exact Hr|].
  pose proof (loop_test_spec w self s) as Ht.
  destruct (loop_test w self s) as [go s1].
  destruct Ht as [(_ & Hrows & Hdep & Hq & Hp) _].
  assert (Hd1 : depths_inv self s1) by (unfold depths_inv; now rewrite Hdep, Hq).
  assert (Hc1 : crawl_inv self s1) by (unfold crawl_inv; now rewrite Hrows, Hq, Hp).
  assert (Hr1 : rows_within self s1) by (unfold rows_within; now rewrite Hrows).
  destruct go; [|exact Hr1]. apply IH.
  - now apply depths_body.
  - now apply crawl_inv_body.
  - now apply rows_within_body.
Qed.

End DepthLimit.

(** X22. The depth limit holds for what is recorded. With [max_depth] 0 or
    more, on an object whose depth index holds path depths only (a new
    object's is empty), in a run observed from its start and started
    without records, every record is of a page whose path depth is at most
    [max_depth]: it has at most [max_depth] path segments more than the
    root. *)
Theorem X22_records_within_depth :
  forall (w : World) (self : Config) (progress_cb log_cb : bool) (s : State),
    0 <= max_depth self ->
    (forall u d, url_depths s !! u = Some d -> d = path_depth self u) ->
    trace s = [] -> rows s = [] ->
    forall n r,
      r ∈ rows (crawl_rounds w self progress_cb log_cb n (snd (crawl_seed self s))) ->
      path_depth self (Row.url r) <= max_depth self.
Proof.
  intros w self progress_cb log_cb s Hmax Hd Ht Hrows n r Hr.
  assert (H0 : depths_inv self (snd (crawl_seed self s))).
  { destruct (seed_fields self s) as (Hq & _ & Hdep & _). split.
    - intros u d. rewrite Hdep. destruct (decide (u = root self)) as [->|Hne].
      + rewrite lookup_insert_eq. intros [= <-]. unfold path_depth.
        now rewrite String.eqb_refl.
      + rewrite lookup_insert_ne by congruence. apply Hd.
    - rewrite Hq. constructor; [|constructor]. simpl. unfold path_depth.
      now rewrite String.eqb_refl. }
  assert (H1 : rows_within self (snd (crawl_seed self s))).
  { destruct (seed_fields self s) as (_ & _ & _ & Hr0 & _).
    unfold rows_within. rewrite Hr0, Hrows. constructor. }
  pose proof (rows_within_rounds w self progress_cb log_cb n _ Hmax H0
                (crawl_inv_seed self s Ht Hrows) H1) as H.
  unfold rows_within in H. rewrite Forall_forall in H. now apply H.
Qed.

Lemma X22_witness :
  let self := shallow_config deep_link_site in
  let s' := crawl_rounds deep_link_site self true true 5
              (snd (crawl_seed self (new_state self))) in
  map Row.url (rows s') = ["https://x.test"; "https://x.test/"]
  /\ Forall (fun r => path_depth self (Row.url r) <= 1) (rows s').
Proof.
  split; [vm_compute; reflexivity|].
  apply Forall_forall. intros r Hr.
  apply (X22_records_within_depth deep_link_site (shallow_config deep_link_site)
           true true (new_state (shallow_config deep_link_site))
           ltac:(vm_compute; discriminate)
           ltac:(intros u d H;
                 change (url_depths (new_state (shallow_config deep_link_site)))
                   with (∅ : gmap string Z) in H;
                 rewrite lookup_empty in H; discriminate H)
           eq_refl eq_refl 5 r Hr).
Defined.
